(** * ethertracer: code/data separation of EVM bytecode

    A shallow embedding of the Python package [ethertracer]
    ([helpers.py], [tagger.py], [analyzer.py], [__init__.py]) and the
    properties of its specification that were checked against it.

    Conventions of the embedding:
    - Python integers are [Z]; list positions produced by [range(len(..))]
      are [nat];
    - boolean masks (Python lists of [bool] and numpy boolean arrays) are
      [list bool];
    - an array that [np.array] builds from Python integers carries the type
      numpy chooses for its entries ([Np.dtype]), and the entries of a
      [float64] array are the rounded values; positions of the bytecode are
      below 2^63, Python's bound on the size of a sequence, so that numpy
      holds a position as an [int64];
    - a Python exception is the [Raise] outcome of the [outcome] monad, and
      a [while] loop that may run forever is run on fuel ([OutOfFuel]). *)

From Stdlib Require Import String Ascii.
From Stdlib Require Import ZArith QArith Arith List Bool Lia Sorted.
Import ListNotations.

Open Scope nat_scope.

(** ** Python outcomes *)

Module Py.

Inductive exn : Type := IndexError | ValueError | TypeError | KeyError.

Inductive outcome (A : Type) : Type :=
| Ok (a : A)
| Raise (e : exn)
| OutOfFuel.

Arguments Ok {A} a.
Arguments Raise {A} e.
Arguments OutOfFuel {A}.

Definition bind {A B : Type} (c : outcome A) (k : A -> outcome B) : outcome B :=
  match c with
  | Ok a => k a
  | Raise e => Raise e
  | OutOfFuel => OutOfFuel
  end.

(** [for x in xs: s = body(s, x)] *)
Fixpoint for_each {A S : Type} (xs : list A) (body : S -> A -> outcome S) (s : S)
  : outcome S :=
  match xs with
  | [] => Ok s
  | x :: rest => bind (body s x) (for_each rest body)
  end.

(** [l[i]] for [0 <= i] *)
Definition getitem {A : Type} (l : list A) (i : nat) : outcome A :=
  match nth_error l i with
  | Some x => Ok x
  | None => Raise IndexError
  end.

(** [l[-1]] *)
Definition getlast {A : Type} (l : list A) : outcome A :=
  match rev l with
  | x :: _ => Ok x
  | [] => Raise IndexError
  end.

(** [l[i] = v] for [0 <= i] *)
Fixpoint setitem {A : Type} (l : list A) (i : nat) (v : A) : outcome (list A) :=
  match l, i with
  | [], _ => Raise IndexError
  | _ :: rest, O => Ok (v :: rest)
  | x :: rest, S j => bind (setitem rest j v) (fun r => Ok (x :: r))
  end.

(** [l[a:b]] for [0 <= a], [0 <= b] *)
Definition slice {A : Type} (l : list A) (a b : nat) : list A :=
  firstn (b - a) (skipn a l).

End Py.

Import Py.

Declare Scope py_scope.
Delimit Scope py_scope with py.
Notation "x <- c ;; k" := (bind c (fun x => k))
  (at level 61, c at next level, right associativity) : py_scope.
Open Scope py_scope.

(** ** helpers.py *)

Module Helpers.

(** *** [get_compound_subsets] *)

(** First loop: the positions whose entry equals the indicator. *)
Definition index_subset_element (list_ : list bool) (indicator : bool) : list nat :=
  filter (fun i => Bool.eqb (nth i list_ false) indicator) (seq 0 (length list_)).

(** Second loop: every collected position receives the current subset
    number, which is incremented when the next position is not adjacent.
    Returns [subsets] and the final [number_of_subsets]. *)
Fixpoint number_subsets (ise : list nat) (number_of_subsets : nat)
  : list nat * nat :=
  match ise with
  | [] => ([], number_of_subsets)
  | x :: rest =>
      let n' :=
        match rest with
        | y :: _ =>
            if (1 <? Z.of_nat y - Z.of_nat x)%Z
            then S number_of_subsets else number_of_subsets
        | [] => number_of_subsets
        end in
      let (subsets, final) := number_subsets rest n' in
      (number_of_subsets :: subsets, final)
  end.

(** Inner loop of the third loop: the positions numbered [i]. *)
Definition select_subset (ise subsets : list nat) (i : nat) : list nat :=
  map fst (filter (fun p => snd p =? i) (combine ise subsets)).

Definition get_compound_subsets (list_ : list bool) (indicator : bool)
  : list (list nat) :=
  let ise := index_subset_element list_ indicator in
  let (subsets, number_of_subsets) := number_subsets ise 0 in
  map (select_subset ise subsets) (seq 0 (number_of_subsets + 1)).

(** *** [compound_bytes_to_integer] *)

Open Scope string_scope.

(** Binary digits of a positive number, most significant first. *)
Fixpoint bin_pos (p : positive) (acc : string) : string :=
  match p with
  | xH => String "1" acc
  | xO q => bin_pos q (String "0" acc)
  | xI q => bin_pos q (String "1" acc)
  end.

Definition bin_digits (z : Z) : string :=
  match z with
  | Z0 => "0"
  | Zpos p => bin_pos p ""
  | Zneg p => bin_pos p ""
  end.

Fixpoint zeros (n : nat) : string :=
  match n with
  | O => ""
  | S m => String "0" (zeros m)
  end.

(** [f'{z:08b}']: binary digits, zero-padded after the sign to width 8. *)
Definition format_08b (z : Z) : string :=
  let d := bin_digits z in
  if (z <? 0)%Z
  then String "-" (zeros (7 - String.length d) ++ d)
  else zeros (8 - String.length d) ++ d.

Fixpoint int_digits2 (s : string) (acc : Z) : outcome Z :=
  match s with
  | "" => Ok acc
  | String c r =>
      if Ascii.eqb c "0" then int_digits2 r (2 * acc)%Z
      else if Ascii.eqb c "1" then int_digits2 r (2 * acc + 1)%Z
      else Raise ValueError
  end.

(** [int(s, 2)] on the strings that [format] and [join] can produce: an
    optional leading minus sign followed by at least one binary digit. *)
Definition int_base2 (s : string) : outcome Z :=
  match s with
  | "" => Raise ValueError
  | String c r =>
      if Ascii.eqb c "-"
      then match r with
           | "" => Raise ValueError
           | _ => z <- int_digits2 r 0 ;; Ok (- z)%Z
           end
      else int_digits2 s 0
  end.

Definition compound_bytes_to_integer (bytes : list Z) : outcome Z :=
  let bit_list := map format_08b bytes in
  let compound_bits := String.concat "" bit_list in
  int_base2 compound_bits.

Close Scope string_scope.

(** *** [segment_list] *)

Definition segment_list_step (flags_segment_start flags_segment_end : list bool)
  (st : list nat * nat) (i : nat) : outcome (list nat * nat) :=
  let (segments, segment_counter) := st in
  s <- getitem flags_segment_start i ;;
  if s then
    let segment_counter := segment_counter + 1 in
    Ok (segments ++ [segment_counter], segment_counter)
  else
    e <- getitem flags_segment_end i ;;
    if e then Ok (segments ++ [segment_counter], segment_counter + 1)
    else Ok (segments ++ [segment_counter], segment_counter).

Definition segment_list (flags_segment_start flags_segment_end : list bool)
  : outcome (list nat) :=
  st <- for_each (seq 0 (length flags_segment_start))
          (segment_list_step flags_segment_start flags_segment_end) ([], 0) ;;
  Ok (fst st).

End Helpers.

(** ** opcodes.py *)

Module Opcodes.

Open Scope string_scope.
Open Scope Z_scope.

(** Modelled from the spec: the opcode table [opcodes.py] ([BYTECODES],
    [OPCODES], [opcode_by_name]) is not among the sources.  The spec makes
    it a static mapping between byte values and mnemonics: [BYTECODES]
    is keyed by byte value and yields the opcode of that value (here its
    name), [OPCODES] is keyed by mnemonic and yields the opcode (here its
    code).  A key that is absent is a [KeyError]. *)
Record Table : Type := {
  BYTECODES : Z -> option string;
  OPCODES : string -> option Z
}.

Definition bytecode_name (t : Table) (byte : Z) : outcome string :=
  match BYTECODES t byte with
  | Some n => Ok n
  | None => Raise KeyError
  end.

Definition opcode_code (t : Table) (mnemonic : string) : outcome Z :=
  match OPCODES t mnemonic with
  | Some c => Ok c
  | None => Raise KeyError
  end.

Definition opcode_by_name (t : Table) (mnemonic : string) : outcome Z :=
  opcode_code t mnemonic.

(** Modelled from the spec: a table with the EVM's assignments, in which
    the bytes of the spec's scenarios have the meaning given there
    ([0x00] STOP, [0x56] JUMP, [0x5b] JUMPDEST, [0x60..0x7f] PUSH1..PUSH32).
    It is used where a statement is evaluated on concrete bytecode. *)
Definition evm_opcodes : list (Z * string) :=
  [ (0, "STOP"); (1, "ADD"); (2, "MUL"); (3, "SUB"); (4, "DIV"); (5, "SDIV");
    (6, "MOD"); (7, "SMOD"); (8, "ADDMOD"); (9, "MULMOD"); (10, "EXP");
    (11, "SIGNEXTEND"); (16, "LT"); (17, "GT"); (18, "SLT"); (19, "SGT");
    (20, "EQ"); (21, "ISZERO"); (22, "AND"); (23, "OR"); (24, "XOR");
    (25, "NOT"); (26, "BYTE"); (32, "SHA3"); (48, "ADDRESS");
    (49, "BALANCE"); (50, "ORIGIN"); (51, "CALLER"); (52, "CALLVALUE");
    (53, "CALLDATALOAD"); (54, "CALLDATASIZE"); (55, "CALLDATACOPY");
    (56, "CODESIZE"); (57, "CODECOPY"); (58, "GASPRICE");
    (59, "EXTCODESIZE"); (60, "EXTCODECOPY"); (61, "RETURNDATASIZE");
    (62, "RETURNDATACOPY"); (64, "BLOCKHASH"); (65, "COINBASE");
    (66, "TIMESTAMP"); (67, "NUMBER"); (68, "DIFFICULTY"); (69, "GASLIMIT");
    (80, "POP"); (81, "MLOAD"); (82, "MSTORE"); (83, "MSTORE8");
    (84, "SLOAD"); (85, "SSTORE"); (86, "JUMP"); (87, "JUMPI"); (88, "PC");
    (89, "MSIZE"); (90, "GAS"); (91, "JUMPDEST"); (96, "PUSH1");
    (97, "PUSH2"); (98, "PUSH3"); (99, "PUSH4"); (100, "PUSH5");
    (101, "PUSH6"); (102, "PUSH7"); (103, "PUSH8"); (104, "PUSH9");
    (105, "PUSH10"); (106, "PUSH11"); (107, "PUSH12"); (108, "PUSH13");
    (109, "PUSH14"); (110, "PUSH15"); (111, "PUSH16"); (112, "PUSH17");
    (113, "PUSH18"); (114, "PUSH19"); (115, "PUSH20"); (116, "PUSH21");
    (117, "PUSH22"); (118, "PUSH23"); (119, "PUSH24"); (120, "PUSH25");
    (121, "PUSH26"); (122, "PUSH27"); (123, "PUSH28"); (124, "PUSH29");
    (125, "PUSH30"); (126, "PUSH31"); (127, "PUSH32"); (128, "DUP1");
    (129, "DUP2"); (130, "DUP3"); (131, "DUP4"); (132, "DUP5");
    (133, "DUP6"); (134, "DUP7"); (135, "DUP8"); (136, "DUP9");
    (137, "DUP10"); (138, "DUP11"); (139, "DUP12"); (140, "DUP13");
    (141, "DUP14"); (142, "DUP15"); (143, "DUP16"); (144, "SWAP1");
    (145, "SWAP2"); (146, "SWAP3"); (147, "SWAP4"); (148, "SWAP5");
    (149, "SWAP6"); (150, "SWAP7"); (151, "SWAP8"); (152, "SWAP9");
    (153, "SWAP10"); (154, "SWAP11"); (155, "SWAP12"); (156, "SWAP13");
    (157, "SWAP14"); (158, "SWAP15"); (159, "SWAP16"); (160, "LOG0");
    (161, "LOG1"); (162, "LOG2"); (163, "LOG3"); (164, "LOG4");
    (240, "CREATE"); (241, "CALL"); (242, "CALLCODE"); (243, "RETURN");
    (244, "DELEGATECALL"); (250, "STATICCALL"); (253, "REVERT");
    (255, "SELFDESTRUCT") ].

Definition evm : Table := {|
  BYTECODES := fun b =>
    option_map snd (find (fun e => fst e =? b) evm_opcodes);
  OPCODES := fun n =>
    option_map fst (find (fun e => String.eqb (snd e) n) evm_opcodes)
|}.

Close Scope Z_scope.
Close Scope string_scope.

End Opcodes.

(** ** numpy *)

Module Np.

(** [np.logical_and] on masks of one length: the package calls it on
    masks of the length of the bytecode only. *)
Definition logical_and (a b : list bool) : list bool :=
  map (fun p => andb (fst p) (snd p)) (combine a b).

(** [np.logical_xor]: pointwise on arrays of one length; an array of
    length 1 is broadcast over the other one; arrays of other lengths
    cannot be broadcast together, a [ValueError]. *)
Definition logical_xor (a b : list bool) : outcome (list bool) :=
  if length a =? length b
  then Ok (map (fun p => xorb (fst p) (snd p)) (combine a b))
  else match a, b with
       | [x], _ => Ok (map (xorb x) b)
       | _, [y] => Ok (map (fun x => xorb x y) a)
       | _, _ => Raise ValueError
       end.

(** [np.invert] of an array built by [np.array] from a Python list of
    booleans.  [np.array([])] has dtype [float64], for which [invert] is
    not defined: the call is a [TypeError]. *)
Definition invert (a : list bool) : outcome (list bool) :=
  match a with
  | [] => Raise TypeError
  | _ => Ok (map negb a)
  end.

(** [np.argwhere(mask == True).flatten()] *)
Definition argwhere (mask : list bool) : list nat :=
  filter (fun i => nth i mask false) (seq 0 (length mask)).

Fixpoint argmax_loop (l : list nat) (i best_i best : nat) : nat :=
  match l with
  | [] => best_i
  | x :: rest =>
      if best <? x then argmax_loop rest (S i) i x
      else argmax_loop rest (S i) best_i best
  end.

(** [a.argmax()]: the first position of the greatest entry. *)
Definition argmax (l : list nat) : outcome nat :=
  match l with
  | [] => Raise ValueError
  | x :: rest => Ok (argmax_loop rest 1 0 x)
  end.

(** [a.max()] *)
Definition max (l : list nat) : outcome nat :=
  match l with
  | [] => Raise ValueError
  | x :: rest => Ok (fold_left Nat.max rest x)
  end.

(** A [float64] that is the quotient of two integers. *)
Inductive float : Type :=
| Finite (q : Q)
| Inf
| NaN.

(** [a / b] for a [float64] [a >= 0] holding an integer and an [int]
    [b >= 0]; division by zero is [nan] or [inf] (with a warning). *)
Definition divide (a b : nat) : float :=
  match b with
  | O => match a with O => NaN | S _ => Inf end
  | S _ => Finite (Z.of_nat a # Pos.of_nat b)
  end.

(** [x < threshold]; false for [nan] and [inf]. *)
Definition lt (x : float) (threshold : Q) : bool :=
  match x with
  | Finite q => negb (Qle_bool threshold q)
  | Inf => false
  | NaN => false
  end.

(** *** Arrays of integers

    [np.array] of a list of Python integers chooses the type of the entries
    from their values (on a 64-bit platform): an integer in the range of a
    signed 64-bit word is an [int64], one in [2^63, 2^64) a [uint64], any
    other one stays a Python integer ([object]).  Entries of several types
    are promoted to a common one: [int64] with [uint64] gives [float64],
    anything with [object] gives [object].  The empty list gives an empty
    [float64] array. *)
Inductive dtype : Type := int64 | uint64 | float64 | object.

Definition int_dtype (v : Z) : dtype :=
  if ((- 2 ^ 63 <=? v) && (v <? 2 ^ 63))%Z then int64
  else if ((0 <=? v) && (v <? 2 ^ 64))%Z then uint64
  else object.

Definition promote (a b : dtype) : dtype :=
  match a, b with
  | object, _ | _, object => object
  | int64, int64 => int64
  | uint64, uint64 => uint64
  | _, _ => float64
  end.

Fixpoint result_type (l : list Z) : dtype :=
  match l with
  | [] => float64
  | v :: rest =>
      match rest with
      | [] => int_dtype v
      | _ :: _ => promote (int_dtype v) (result_type rest)
      end
  end.

(** The [float64] nearest to an integer of less than 1024 bits (ties to
    the even significand of 53 bits); the result is an integer again and is
    written as one. *)
Definition float64_of_int (v : Z) : Z :=
  let a := Z.abs v in
  let bits := (Z.log2 a + 1)%Z in
  if (bits <=? 53)%Z then v
  else
    let e := (bits - 53)%Z in
    let q := Z.shiftr a e in
    let r := (a - Z.shiftl q e)%Z in
    let half := Z.shiftl 1 (e - 1) in
    let q' := if ((half <? r) || ((r =? half) && Z.odd q))%Z
              then (q + 1)%Z else q in
    (Z.sgn v * Z.shiftl q' e)%Z.

(** The conversion of an integer to an entry of an array of type [d]. *)
Definition cast (d : dtype) (v : Z) : Z :=
  match d with
  | float64 => float64_of_int v
  | _ => v
  end.

(** A one-dimensional array: the type of its entries and their values. *)
Record ndarray : Type := {
  dtype_of : dtype;
  tolist : list Z
}.

Definition array (l : list Z) : ndarray :=
  {| dtype_of := result_type l;
     tolist := map (cast (result_type l)) l |}.

(** [np.array] of a list of pairs [[address, value]]: an array of two
    columns, of one type for the entries of both. *)
Record ndarray2 : Type := {
  dtype_of2 : dtype;
  rows : list (nat * Z)
}.

Definition array2 (l : list (nat * Z)) : ndarray2 :=
  let d := result_type (flat_map (fun p => [Z.of_nat (fst p); snd p]) l) in
  {| dtype_of2 := d;
     rows :=
       map (fun p => (Z.to_nat (cast d (Z.of_nat (fst p))), cast d (snd p))) l |}.

(** [v > n] for an entry [v] of an array of type [d] and a Python integer
    [n]: a [float64] is compared with the [float64] nearest to [n]. *)
Definition greater (d : dtype) (v n : Z) : bool :=
  match d with
  | float64 => (float64_of_int n <? v)%Z
  | _ => (n <? v)%Z
  end.

End Np.

(** ** tagger.py *)

Module Tagger.

Import Opcodes.

Definition is_mnemonic (t : Table) (byte : Z) (mnemonic : string) : outcome bool :=
  n <- bytecode_name t byte ;; Ok (String.eqb n mnemonic).

Definition tag_valid_mnemonics (t : Table) (machine_code : list Z) : list bool :=
  map (fun b => match BYTECODES t b with Some _ => true | None => false end)
      machine_code.

Definition tag_invalid_mnemonics (t : Table) (machine_code : list Z) : list bool :=
  map (fun b => match BYTECODES t b with Some _ => false | None => true end)
      machine_code.

(** The table is looked up once per position. *)
Definition tag_mnemonic (t : Table) (machine_code : list Z) (mnemonic : string)
  : outcome (list bool) :=
  for_each machine_code
    (fun tags b => c <- opcode_code t mnemonic ;; Ok (tags ++ [Z.eqb b c])) [].

(** The [for j in range(i + 1, i + n + 1)] loop with its [break]. *)
Fixpoint tag_operands (len : nat) (js : list nat) (tags : list bool)
  : outcome (list bool) :=
  match js with
  | [] => Ok tags
  | j :: rest =>
      if len <=? j then Ok tags
      else tags' <- setitem tags j true ;; tag_operands len rest tags'
  end.

(** The [while i < len(machine_code)] loop; every round increases [i]. *)
Fixpoint tag_push_data_loop (fuel : nat) (t : Table) (machine_code : list Z)
  (push1 push32 : Z) (i : nat) (tags : list bool) : outcome (list bool) :=
  if i <? length machine_code then
    match fuel with
    | O => OutOfFuel
    | S fuel' =>
        instruction <- getitem machine_code i ;;
        if ((push1 <=? instruction) && (instruction <=? push32))%Z then
          _ <- bytecode_name t instruction ;;
          let identified_push_number := Z.to_nat (instruction - push1 + 1) in
          tags' <- tag_operands (length machine_code)
                     (seq (i + 1) identified_push_number) tags ;;
          tag_push_data_loop fuel' t machine_code push1 push32
            (i + identified_push_number + 1) tags'
        else
          tag_push_data_loop fuel' t machine_code push1 push32 (i + 1) tags
    end
  else Ok tags.

Definition tag_push_data (t : Table) (machine_code : list Z) : outcome (list bool) :=
  push1 <- opcode_by_name t "PUSH1" ;;
  push32 <- opcode_by_name t "PUSH32" ;;
  tag_push_data_loop (length machine_code) t machine_code push1 push32 0
    (repeat false (length machine_code)).

End Tagger.

(** ** analyzer.py *)

Module Analyzer.

Import Helpers.

(** [masking] is [None] at every call of the package; the functions are
    embedded for that case. *)
Definition segment_code (machine_code : list Z)
  (start_flags_mask end_flags_mask : list bool) : outcome (list nat) :=
  segment_list start_flags_mask end_flags_mask.

Definition _tag_valid_segments (segments : list nat) (validation_mask : list bool)
  (invalid_indicator : bool) : outcome (list bool) :=
  indices <- for_each (seq 0 (length segments))
               (fun acc i =>
                  v <- getitem validation_mask i ;;
                  Ok (if Bool.eqb v invalid_indicator then acc ++ [i] else acc))
               [] ;;
  let invalid_segment_numbers := map (fun i => nth i segments 0) indices in
  Ok (map (fun i =>
             if existsb (Nat.eqb (nth i segments 0)) invalid_segment_numbers
             then false else true)
          (seq 0 (length segments))).

Definition validate_segment_mnemonics (machine_code : list Z)
  (segments : list nat) (invalid_mnemonics_mask : list bool) : outcome (list bool) :=
  _tag_valid_segments segments invalid_mnemonics_mask true.

(** The list [pushjump_data] that the loop of [_get_pushjump_data]
    builds. *)
Definition pushjump_data_list (machine_code : list Z)
  (push_data_mask jumps_mask : list bool) : outcome (list (nat * Z)) :=
  let datasets_indices := get_compound_subsets push_data_mask true in
  for_each datasets_indices
    (fun pushjump_data set =>
       set_start <- getitem set 0 ;;
       set_end <- getlast set ;;
       if set_end + 1 <? length machine_code then
         j <- getitem jumps_mask (set_end + 1) ;;
         if j then
           compound_data <-
             compound_bytes_to_integer (slice machine_code set_start (set_end + 1)) ;;
           Ok (pushjump_data ++ [(set_end + 1, compound_data)])
         else Ok pushjump_data
       else Ok pushjump_data)
    [].

(** [return np.array(pushjump_data)] *)
Definition _get_pushjump_data (machine_code : list Z)
  (push_data_mask jumps_mask : list bool) : outcome Np.ndarray2 :=
  pushjump_data <- pushjump_data_list machine_code push_data_mask jumps_mask ;;
  Ok (Np.array2 pushjump_data).

(** [pushjumps[:, 1]] needs a two-dimensional array: [np.array([])] has one
    dimension, so an empty list of pairs is an [IndexError].  The addresses
    selected from the array have the type of its entries, and
    [invalid_jumps_mask] is a Python list: an address taken from a
    [float64] array is no list index, a [TypeError]. *)
Definition validate_segment_jumps (machine_code : list Z) (segments : list nat)
  (push_data_mask jumps_mask : list bool) : outcome (list bool) :=
  pushjumps <- _get_pushjump_data machine_code push_data_mask jumps_mask ;;
  match Np.rows pushjumps with
  | [] => Raise IndexError
  | _ =>
      let invalid_jump_addresses :=
        map fst
          (filter
             (fun p => Np.greater (Np.dtype_of2 pushjumps) (snd p)
                         (Z.of_nat (length machine_code)))
             (Np.rows pushjumps)) in
      invalid_jumps_mask <-
        for_each invalid_jump_addresses
          (fun m i =>
             match Np.dtype_of2 pushjumps with
             | Np.float64 => Raise TypeError
             | _ => setitem m i true
             end)
          (repeat false (length machine_code)) ;;
      _tag_valid_segments segments invalid_jumps_mask true
  end.

(** The list [push_data] that the loop of [_get_push_data] builds. *)
Definition push_data_list (machine_code : list Z) (push_data_mask : list bool)
  : outcome (list Z) :=
  let datasets_indices := get_compound_subsets push_data_mask true in
  for_each datasets_indices
    (fun push_data set =>
       set_start <- getitem set 0 ;;
       set_end <- getlast set ;;
       if set_end + 1 <? length machine_code then
         compound_data <-
           compound_bytes_to_integer (slice machine_code set_start (set_end + 1)) ;;
         Ok (push_data ++ [compound_data])
       else Ok push_data)
    [].

(** [return np.array(push_data)] *)
Definition _get_push_data (machine_code : list Z) (push_data_mask : list bool)
  : outcome Np.ndarray :=
  push_data <- push_data_list machine_code push_data_mask ;;
  Ok (Np.array push_data).

(** Python sets of numbers, as duplicate-free lists of their values: an
    [int64] and a [float64] of one value are one element of a set.  Only
    membership in the sets, their size and, where an element is used as an
    index, the operand an element is taken from are observed. *)
Definition set_of (l : list Z) : list Z := nodup Z.eq_dec l.

Definition intersection (a b : list Z) : list Z :=
  filter (fun v => existsb (Z.eqb v) b) a.

Definition difference (a b : list Z) : list Z :=
  filter (fun v => negb (existsb (Z.eqb v) b)) a.

(** The state of the loop of [search_contract_starts]. *)
Record search_state : Type := {
  starting_points_mask : list bool;
  total_hits : nat;
  hit_ratio : Np.float;
  jumpdest_indices : list Z
}.

Definition search_condition (stop_threshold : Q) (st : search_state) : bool :=
  Np.lt (hit_ratio st) stop_threshold && (0 <=? length (jumpdest_indices st)).

Definition count_hits (push_data jumpdest_indices : list Z) (bias : nat) : nat :=
  length (intersection (set_of push_data)
            (set_of (map (fun j => (j - Z.of_nat bias)%Z) jumpdest_indices))).

Definition search_body (machine_code : list Z) (push_data : list Z)
  (total_jumpdest_number : nat) (st : search_state) : outcome search_state :=
  let bias_hits :=
    map (count_hits push_data (jumpdest_indices st)) (seq 0 (length machine_code)) in
  best_bias <- Np.argmax bias_hits ;;
  hits_best_bias <- Np.max bias_hits ;;
  mask <- setitem (starting_points_mask st) best_bias true ;;
  let total_hits := total_hits st + hits_best_bias in
  let hit_ratio := Np.divide total_hits total_jumpdest_number in
  let found :=
    map (fun v => (v + Z.of_nat best_bias)%Z)
        (intersection (set_of push_data)
           (map (fun j => (j - Z.of_nat best_bias)%Z) (jumpdest_indices st))) in
  Ok {| starting_points_mask := mask;
        total_hits := total_hits;
        hit_ratio := hit_ratio;
        jumpdest_indices := difference (set_of (jumpdest_indices st)) found |}.

Fixpoint search_loop (fuel : nat) (machine_code : list Z) (push_data : list Z)
  (total_jumpdest_number : nat) (stop_threshold : Q) (st : search_state)
  : outcome search_state :=
  if search_condition stop_threshold st then
    match fuel with
    | O => OutOfFuel
    | S fuel' =>
        st' <- search_body machine_code push_data total_jumpdest_number st ;;
        search_loop fuel' machine_code push_data total_jumpdest_number
          stop_threshold st'
    end
  else Ok st.

(** The array [push_data] is only turned into a set here, and the elements
    kept from an intersection are those of the index array. *)
Definition search_contract_starts (fuel : nat) (machine_code : list Z)
  (push_data_mask jumpdests_mask : list bool) (stop_threshold : Q)
  : outcome (list bool) :=
  let jumpdest_indices := map Z.of_nat (Np.argwhere jumpdests_mask) in
  push_data <- _get_push_data machine_code push_data_mask ;;
  st <- search_loop fuel machine_code (Np.tolist push_data)
          (length jumpdest_indices) stop_threshold
          {| starting_points_mask := repeat false (length machine_code);
             total_hits := 0;
             hit_ratio := Np.Finite 0;
             jumpdest_indices := jumpdest_indices |} ;;
  Ok (starting_points_mask st).

(** The intersection of two sets keeps the elements of the smaller set (of
    its argument when the sizes are equal): the common elements are entries
    of [push_data] when the set of pushed values is the smaller one.  An
    entry of a [float64] array is no index of [valid_jumpdest_mask], an
    [IndexError]; a common element of any other origin is an integer that
    is a position shifted by an entrance, and [np.array] holds it as an
    [int64]. *)
Definition _tag_valid_jumpdests_to_starting_points (machine_code : list Z)
  (starting_points_mask push_data_mask jumpdests_mask : list bool)
  : outcome (list bool) :=
  push_data <- _get_push_data machine_code push_data_mask ;;
  let jumpdest_indices := map Z.of_nat (Np.argwhere jumpdests_mask) in
  let starting_points := Np.argwhere starting_points_mask in
  st <- for_each starting_points
          (fun (st : list bool * list Z) bias =>
             let (valid_jumpdest_mask, jumpdest_indices) := st in
             let pushed := set_of (Np.tolist push_data) in
             let shifted :=
               set_of (map (fun j => (j - Z.of_nat bias)%Z) jumpdest_indices) in
             let from_push_data := length pushed <? length shifted in
             let valid_jumpdests :=
               map (fun v => (v + Z.of_nat bias)%Z) (intersection pushed shifted) in
             mask <- for_each valid_jumpdests
                       (fun m j =>
                          match Np.dtype_of push_data, from_push_data with
                          | Np.float64, true => Raise IndexError
                          | _, _ => setitem m (Z.to_nat j) true
                          end)
                       valid_jumpdest_mask ;;
             Ok (mask, difference (set_of jumpdest_indices) (set_of valid_jumpdests)))
          (repeat false (length machine_code), jumpdest_indices) ;;
  Ok (fst st).

Definition validate_segment_jumpdests (machine_code : list Z) (segments : list nat)
  (push_data_mask jumpdests_mask contract_entrance_mask : list bool)
  : outcome (list bool) :=
  valid_jumpdests_mask <-
    _tag_valid_jumpdests_to_starting_points machine_code contract_entrance_mask
      push_data_mask jumpdests_mask ;;
  invalid_jumpdests_mask <- Np.logical_xor jumpdests_mask valid_jumpdests_mask ;;
  _tag_valid_segments segments invalid_jumpdests_mask true.

End Analyzer.

(** ** __init__.py *)

Module Ethertracer.

Import Opcodes.

(** The tags of [analyze], after push-data has been masked out of them. *)
Record tags : Type := {
  push_data_mask : list bool;
  invalid_mnemonic_mask : list bool;
  jumpdest_mask : list bool;
  jump_mask : list bool;
  stop_mask : list bool;
  return_mask : list bool;
  selfdestruct_mask : list bool
}.

Definition analyze_tags (t : Table) (machine_code : list Z) : outcome tags :=
  push_data_mask <- Tagger.tag_push_data t machine_code ;;
  let invalid_mnemonic_mask := Tagger.tag_invalid_mnemonics t machine_code in
  jumpdest_mask <- Tagger.tag_mnemonic t machine_code "JUMPDEST" ;;
  jump_mask <- Tagger.tag_mnemonic t machine_code "JUMP" ;;
  stop_mask <- Tagger.tag_mnemonic t machine_code "STOP" ;;
  return_mask <- Tagger.tag_mnemonic t machine_code "RETURN" ;;
  selfdestruct_mask <- Tagger.tag_mnemonic t machine_code "SELFDESTRUCT" ;;
  n <- Np.invert push_data_mask ;;
  let invalid_mnemonic_mask := Np.logical_and invalid_mnemonic_mask n in
  n <- Np.invert push_data_mask ;;
  let jumpdest_mask := Np.logical_and jumpdest_mask n in
  n <- Np.invert push_data_mask ;;
  let jump_mask := Np.logical_and jump_mask n in
  n <- Np.invert push_data_mask ;;
  let stop_mask := Np.logical_and stop_mask n in
  n <- Np.invert push_data_mask ;;
  let return_mask := Np.logical_and return_mask n in
  n <- Np.invert push_data_mask ;;
  let selfdestruct_mask := Np.logical_and selfdestruct_mask n in
  Ok {| push_data_mask := push_data_mask;
        invalid_mnemonic_mask := invalid_mnemonic_mask;
        jumpdest_mask := jumpdest_mask;
        jump_mask := jump_mask;
        stop_mask := stop_mask;
        return_mask := return_mask;
        selfdestruct_mask := selfdestruct_mask |}.

Definition start_flag_mask (m : tags) : list bool := jumpdest_mask m.

Definition end_flag_mask (m : tags) : list bool :=
  Np.logical_and (jump_mask m)
    (Np.logical_and (stop_mask m)
       (Np.logical_and (return_mask m) (selfdestruct_mask m))).

Definition analyze_segments (machine_code : list Z) (m : tags) : outcome (list nat) :=
  Analyzer.segment_code machine_code (start_flag_mask m) (end_flag_mask m).

(** *** The report *)

Inductive instruction_text : Type :=
| Mnemonic (name : string)
| Hex (byte : Z).

Inductive finding : Type :=
| JUMPDEST_NEVER_REACHED
| INVALID_MNEMONIC_OCCURS
| JUMP_OUT_OF_RANGE
| no_finding.

Inductive report_line : Type :=
| Header
| Line (address : nat) (contract_address : option nat)
       (instruction : instruction_text) (is_code : bool) (segment : nat)
       (found : finding).

(** Column 1: the offset from the latest contract start, or ["x"]. *)
Definition contract_address_column (len : nat) (contract_starts_mask : list bool)
  : outcome (list (option nat)) :=
  st <- for_each (seq 0 len)
          (fun (st : list (option nat) * option nat) row =>
             let (column, i) := st in
             c <- getitem contract_starts_mask row ;;
             if c then Ok (column ++ [Some 0], Some 1)
             else match i with
                  | Some i => Ok (column ++ [Some i], Some (i + 1))
                  | None => Ok (column ++ [None], None)
                  end)
          ([], None) ;;
  Ok (fst st).

Definition instruction_column (t : Table) (machine_code : list Z)
  (valid_segments_mask push_data_mask : list bool) : outcome (list instruction_text) :=
  for_each (seq 0 (length machine_code))
    (fun column row =>
       v <- getitem valid_segments_mask row ;;
       p <- (if v then getitem push_data_mask row else Ok true) ;;
       b <- getitem machine_code row ;;
       if v && negb p
       then n <- bytecode_name t b ;; Ok (column ++ [Mnemonic n])
       else Ok (column ++ [Hex b]))
    [].

Definition finding_column (len : nat)
  (mnemonic_segment_check_mask pushjump_segment_check_mask
     jumpdest_segment_check_mask : list bool) : outcome (list finding) :=
  for_each (seq 0 len)
    (fun column row =>
       j <- getitem jumpdest_segment_check_mask row ;;
       if negb j then Ok (column ++ [JUMPDEST_NEVER_REACHED])
       else
         m <- getitem mnemonic_segment_check_mask row ;;
         if negb m then Ok (column ++ [INVALID_MNEMONIC_OCCURS])
         else
           p <- getitem pushjump_segment_check_mask row ;;
           if negb p then Ok (column ++ [JUMP_OUT_OF_RANGE])
           else Ok (column ++ [no_finding]))
    [].

Definition _print_results_to_txt (t : Table) (machine_code : list Z)
  (push_data_mask valid_segments_mask contract_starts_mask : list bool)
  (segments : list nat)
  (mnemonic_segment_check_mask pushjump_segment_check_mask
     jumpdest_segment_check_mask : list bool) : outcome (list report_line) :=
  let len := length machine_code in
  column1 <- contract_address_column len contract_starts_mask ;;
  column2 <- instruction_column t machine_code valid_segments_mask push_data_mask ;;
  column3 <- for_each (seq 0 len)
               (fun column row =>
                  v <- getitem valid_segments_mask row ;; Ok (column ++ [v])) [] ;;
  column4 <- for_each (seq 0 len)
               (fun column row =>
                  s <- getitem segments row ;; Ok (column ++ [s])) [] ;;
  column5 <- finding_column len mnemonic_segment_check_mask
               pushjump_segment_check_mask jumpdest_segment_check_mask ;;
  Ok (Header ::
      map (fun row =>
             Line row (nth row column1 None) (nth row column2 (Hex 0))
                  (nth row column3 false) (nth row column4 0)
                  (nth row column5 no_finding))
          (seq 0 len)).

(** [analyze]: the returned mask, together with the report it writes. *)
Definition analyze (t : Table) (fuel : nat) (machine_code : list Z)
  : outcome (list bool * list report_line) :=
  m <- analyze_tags t machine_code ;;
  segments <- analyze_segments machine_code m ;;
  mnemonic_segment_check_mask <-
    Analyzer.validate_segment_mnemonics machine_code segments
      (invalid_mnemonic_mask m) ;;
  pushjump_segment_check_mask <-
    Analyzer.validate_segment_jumps machine_code segments
      (push_data_mask m) (jump_mask m) ;;
  contract_starts_mask <-
    Analyzer.search_contract_starts fuel machine_code (push_data_mask m)
      (jumpdest_mask m) (98 # 100) ;;
  jumpdest_segment_check_mask <-
    Analyzer.validate_segment_jumpdests machine_code segments (push_data_mask m)
      (jumpdest_mask m) contract_starts_mask ;;
  let valid_segments_mask :=
    Np.logical_and mnemonic_segment_check_mask
      (Np.logical_and pushjump_segment_check_mask jumpdest_segment_check_mask) in
  report <-
    _print_results_to_txt t machine_code (push_data_mask m) valid_segments_mask
      contract_starts_mask segments mnemonic_segment_check_mask
      pushjump_segment_check_mask jumpdest_segment_check_mask ;;
  Ok (valid_segments_mask, report).

End Ethertracer.

(** ** The specification's vocabulary *)

Import Helpers.

Module Spec.

(** [sum_i s[i] * 256^(len(s)-1-i)] *)
Definition big_endian_sum (s : list Z) : Z :=
  fold_right Z.add 0%Z
    (map (fun i => (nth i s 0 * 256 ^ Z.of_nat (length s - 1 - i))%Z)
         (seq 0 (length s))).

Definition is_byte (b : Z) : Prop := (0 <= b <= 255)%Z.

(** Horner's rule in base 256, from an accumulator. *)
Definition horner (s : list Z) (acc : Z) : Z :=
  fold_left (fun a b => (a * 256 + b)%Z) s acc.

(** The numbering walk of the specification: a counter [c]; a start flag
    pre-increments and emits it, otherwise an end flag emits it and then
    increments it, otherwise it is emitted unchanged. *)
Fixpoint numbering_walk (c : nat) (start end_ : list bool) : list nat :=
  match start, end_ with
  | s :: start', e :: end' =>
      if s then S c :: numbering_walk (S c) start' end'
      else if e then c :: numbering_walk (S c) start' end'
      else c :: numbering_walk c start' end'
  | _, _ => []
  end.

(** Position [i] lies before the first start flag. *)
Definition before_first_start (start : list bool) (i : nat) : bool :=
  forallb negb (firstn (S i) start).

(** The number of flags set in a mask. *)
Definition count_flags (mask : list bool) : nat :=
  length (filter (fun b => b) mask).

Definition non_decreasing (l : list nat) : Prop :=
  forall i j, i <= j -> j < length l -> nth i l 0 <= nth j l 0.

(** Every position before the first start flag receives id 0. *)
Definition pre_entry_zero (start end_ : list bool) : Prop :=
  forall out i,
    segment_list start end_ = Ok out ->
    i < length start -> before_first_start start i = true ->
    nth i out 0 = 0.

(** A mask gives one answer on all positions of a segment. *)
Definition constant_on_segments (segments : list nat) (mask : list bool) : Prop :=
  length mask = length segments /\
  forall i j,
    i < length segments -> j < length segments ->
    nth i segments 0 = nth j segments 0 ->
    nth i mask false = nth j mask false.

(** Positions [a..b] form a maximal contiguous run of true entries. *)
Definition maximal_run (mask : list bool) (a b : nat) : Prop :=
  a <= b /\
  (forall i, a <= i -> i <= b -> nth i mask false = true) /\
  (forall i, S i = a -> nth i mask false = false) /\
  nth (S b) mask false = false.

(** A list of positions cut wherever two neighbours are not adjacent. *)
Fixpoint split_runs (l : list nat) : list (list nat) :=
  match l with
  | [] => []
  | x :: rest =>
      match split_runs rest, rest with
      | r :: rs, y :: _ =>
          if (1 <? Z.of_nat y - Z.of_nat x)%Z then [x] :: r :: rs
          else (x :: r) :: rs
      | _, _ => [[x]]
      end
  end.

(** The folded values of the runs that [_get_push_data] keeps. *)
Definition run_values (machine_code : list Z) (runs : list (list nat)) : list Z :=
  flat_map
    (fun r =>
       if last r 0 + 1 <? length machine_code
       then [big_endian_sum (slice machine_code (hd 0 r) (last r 0 + 1))]
       else [])
    runs.


(** A value that the loop of [_get_push_data] stores: the folded value of
    a maximal run that ends before the final byte. *)
Definition pushed_value (machine_code : list Z) (mask : list bool) (v : Z)
  : Prop :=
  exists a b,
    maximal_run mask a b /\
    (b + 1 < length machine_code /\
     v = big_endian_sum (slice machine_code a (b + 1))).


(** Non-negative integers that numpy cannot hold in one integer type: one
    of them needs a [uint64], another fits an [int64], and none is too
    large for a [uint64]. *)
Definition mixed_words (P : Z -> Prop) : Prop :=
  (exists v, P v /\ (2 ^ 63 <= v)%Z) /\
  (exists v, P v /\ (v < 2 ^ 63)%Z) /\
  (forall v, P v -> (v < 2 ^ 64)%Z).

(** A byte in the range of the push opcodes, and the number of operand
    bytes it announces. *)
Definition is_push (push1 push32 b : Z) : bool :=
  ((push1 <=? b) && (b <=? push32))%Z.

Definition operands (push1 b : Z) : nat := Z.to_nat (b - push1 + 1).

(** Position [p] is an operand of a push opcode at an untagged position. *)
Definition push_operand (machine_code : list Z) (push1 push32 : Z)
  (tags : list bool) (p : nat) : Prop :=
  exists j,
    j < p /\ nth j tags false = false /\
    is_push push1 push32 (nth j machine_code 0%Z) = true /\
    p <= j + operands push1 (nth j machine_code 0%Z).

(** The scan of [tag_push_data] when it stands at position [i]: nothing is
    tagged from [i] on, every tag is an operand of an opcode whose operands
    end before [i], and the opcodes before [i] have their operands tagged. *)
Definition push_scan (machine_code : list Z) (push1 push32 : Z) (i : nat)
  (tags : list bool) : Prop :=
  length tags = length machine_code /\
  (forall p, i <= p -> nth p tags false = false) /\
  (forall p, nth p tags false = true ->
     exists j,
       j < p /\ nth j tags false = false /\
       is_push push1 push32 (nth j machine_code 0%Z) = true /\
       p <= j + operands push1 (nth j machine_code 0%Z) /\
       j + operands push1 (nth j machine_code 0%Z) < i) /\
  (forall j, j < i -> nth j tags false = false ->
     is_push push1 push32 (nth j machine_code 0%Z) = true ->
     forall p, j < p -> p <= j + operands push1 (nth j machine_code 0%Z) ->
               p < length machine_code -> nth p tags false = true).


(** Position [p] is reached from one of the entrances [entrances] by a
    pushed value. *)
Definition reached (push_data : list Z) (entrances : list nat) (p : Z) : Prop :=
  exists e, In e entrances /\ In (p - Z.of_nat e)%Z push_data.

(** The state of the loop of [_tag_valid_jumpdests_to_starting_points]
    after the entrances [done]: the [JUMPDEST]s not yet reached remain, and
    the reached ones are marked. *)
Definition reach_state (len : nat) (push_data jumpdests : list Z)
  (done : list nat) (st : list bool * list Z) : Prop :=
  length (fst st) = len /\
  (forall x, In x (snd st)
             <-> In x jumpdests /\ ~ reached push_data done x) /\
  (forall p, nth p (fst st) false = true
             <-> In (Z.of_nat p) jumpdests /\
                 reached push_data done (Z.of_nat p)).

End Spec.

Import Spec.

(** * Properties *)

(** Inversion of a [bind] that returned. *)
Ltac bind_inv H :=
  match type of H with
  | bind ?c _ = Ok _ =>
      let x := fresh "x" in
      let E := fresh "E" in
      destruct c as [x | |] eqn:E; cbn [bind] in H;
      [| discriminate H | discriminate H]
  end.

(** Evaluates the computation at the head of a [bind]. *)
Ltac run_head :=
  match goal with
  | |- bind ?c _ = _ =>
      let v := eval vm_compute in c in
      replace c with v by (vm_compute; reflexivity); cbn [bind]
  end.

(** ** Folding bytes into an integer *)

Section Folding.

Open Scope string_scope.

Lemma bin_pos_acc (p : positive) (acc rest : string) :
  bin_pos p acc ++ rest = bin_pos p (acc ++ rest).
Proof.
  revert acc; induction p as [q IH | q IH |]; intros acc; simpl;
    try rewrite IH; reflexivity.
Qed.

Lemma length_bin_pos (p : positive) (acc : string) :
  String.length (bin_pos p acc) = (Pos.size_nat p + String.length acc)%nat.
Proof.
  revert acc; induction p as [q IH | q IH |]; intros acc; simpl;
    try rewrite IH; simpl; lia.
Qed.

Lemma int_digits2_bin_pos (p : positive) (rest : string) (acc : Z) :
  int_digits2 (bin_pos p rest) acc
  = int_digits2 rest (acc * 2 ^ Z.of_nat (Pos.size_nat p) + Zpos p)%Z.
Proof.
  revert rest acc; induction p as [q IH | q IH |]; intros rest acc.
  - cbn [bin_pos]. rewrite IH. cbn [int_digits2 Ascii.eqb Bool.eqb].
    change (Pos.size_nat q~1) with (S (Pos.size_nat q)).
    rewrite Nat2Z.inj_succ, Z.pow_succ_r by lia. f_equal. lia.
  - cbn [bin_pos]. rewrite IH. cbn [int_digits2 Ascii.eqb Bool.eqb].
    change (Pos.size_nat q~0) with (S (Pos.size_nat q)).
    rewrite Nat2Z.inj_succ, Z.pow_succ_r by lia. f_equal. lia.
  - cbn [bin_pos int_digits2 Ascii.eqb Bool.eqb Pos.size_nat].
    change (Z.of_nat 1) with 1%Z. rewrite Z.pow_1_r. f_equal. lia.
Qed.

Lemma int_digits2_zeros (n : nat) (rest : string) (acc : Z) :
  int_digits2 (zeros n ++ rest) acc = int_digits2 rest (acc * 2 ^ Z.of_nat n)%Z.
Proof.
  revert acc; induction n as [| n IH]; intros acc.
  - cbn [zeros append]. f_equal. change (Z.of_nat 0) with 0%Z. lia.
  - cbn [zeros append int_digits2 Ascii.eqb Bool.eqb]. rewrite IH. f_equal.
    rewrite Nat2Z.inj_succ, Z.pow_succ_r by lia. lia.
Qed.

Lemma size_nat_bound (n : nat) (p : positive) :
  (Zpos p < 2 ^ Z.of_nat n)%Z -> (Pos.size_nat p <= n)%nat.
Proof.
  revert p; induction n as [| n IH]; intros p H.
  - change (2 ^ Z.of_nat 0)%Z with 1%Z in H. lia.
  - rewrite Nat2Z.inj_succ, Z.pow_succ_r in H by lia.
    destruct p as [q | q |]; cbn [Pos.size_nat]; [| | lia];
      apply le_n_S, IH; lia.
Qed.

Lemma size_nat_byte (p : positive) :
  (Zpos p <= 255)%Z -> (Pos.size_nat p <= 8)%nat.
Proof.
  intros H. apply size_nat_bound. change (2 ^ Z.of_nat 8)%Z with 256%Z. lia.
Qed.

Lemma length_format_08b (b : Z) :
  is_byte b -> String.length (format_08b b) = 8%nat.
Proof.
  intros [L U]. destruct b as [| p | p]; [reflexivity | | lia].
  unfold format_08b. replace (Z.pos p <? 0)%Z with false by reflexivity.
  cbv zeta. cbn [bin_digits].
  pose proof (size_nat_byte p U) as Hsize.
  assert (Hz : forall n s, String.length (zeros n ++ s) = (n + String.length s)%nat).
  { induction n as [| n IH]; intros s; simpl; [reflexivity | now rewrite IH]. }
  rewrite Hz, length_bin_pos. cbn [String.length]. lia.
Qed.

Lemma int_digits2_format_08b (b : Z) (rest : string) (acc : Z) :
  is_byte b ->
  int_digits2 (format_08b b ++ rest) acc = int_digits2 rest (acc * 256 + b)%Z.
Proof.
  intros [L U]. destruct b as [| p | p]; [| | lia].
  - change (format_08b 0) with (zeros 8). rewrite int_digits2_zeros.
    f_equal. change (2 ^ Z.of_nat 8)%Z with 256%Z. lia.
  - unfold format_08b. replace (Z.pos p <? 0)%Z with false by reflexivity.
    cbv zeta. cbn [bin_digits].
    pose proof (size_nat_byte p U) as Hsize.
    rewrite length_bin_pos. cbn [String.length]. rewrite Nat.add_0_r.
    remember (8 - Pos.size_nat p)%nat as k eqn:Hk.
    assert (A : forall a c d : string, (a ++ c) ++ d = a ++ (c ++ d)).
    { induction a as [| x a IH]; intros c d; cbn [append];
        [reflexivity | now rewrite IH]. }
    rewrite A, bin_pos_acc. cbn [append].
    rewrite int_digits2_zeros, int_digits2_bin_pos. f_equal.
    rewrite <- Z.mul_assoc, <- Z.pow_add_r by lia.
    replace (Z.of_nat k + Z.of_nat (Pos.size_nat p))%Z with 8%Z by lia.
    reflexivity.
Qed.

Lemma int_base2_digits (s : string) (z : Z) :
  s <> "" -> int_digits2 s 0 = Ok z -> int_base2 s = Ok z.
Proof.
  intros N H. destruct s as [| c r]; [congruence |].
  unfold int_base2. destruct (Ascii.eqb c "-") eqn:E; [| exact H].
  apply Ascii.eqb_eq in E. subst c. simpl in H. discriminate.
Qed.

Lemma concat_cons (x : string) (xs : list string) :
  String.concat "" (x :: xs) = x ++ String.concat "" xs.
Proof.
  destruct xs as [| y ys]; simpl; [| reflexivity].
  induction x as [| c x IH]; simpl; [reflexivity | now rewrite <- IH].
Qed.

Close Scope string_scope.

Lemma int_digits2_bytes (s : list Z) (acc : Z) :
  Forall is_byte s ->
  int_digits2 (String.concat "" (map format_08b s)) acc = Ok (horner s acc).
Proof.
  intros F. revert acc. induction F as [| b s B F IH]; intros acc.
  - reflexivity.
  - simpl map. rewrite concat_cons, int_digits2_format_08b by exact B.
    rewrite IH. reflexivity.
Qed.

Lemma big_endian_sum_cons (b : Z) (s : list Z) :
  big_endian_sum (b :: s)
  = (b * 256 ^ Z.of_nat (length s) + big_endian_sum s)%Z.
Proof.
  unfold big_endian_sum. cbn [length seq map fold_right nth].
  rewrite Nat.sub_0_r. f_equal.
  - f_equal. f_equal. f_equal. lia.
  - rewrite <- seq_shift, map_map. f_equal. apply map_ext. intros i.
    f_equal. f_equal. f_equal. lia.
Qed.

Lemma horner_sum (s : list Z) (acc : Z) :
  horner s acc = (acc * 256 ^ Z.of_nat (length s) + big_endian_sum s)%Z.
Proof.
  revert acc. induction s as [| b s IH]; intros acc.
  - unfold horner, big_endian_sum. simpl. lia.
  - unfold horner in *. simpl fold_left. rewrite IH, big_endian_sum_cons.
    simpl length. rewrite Nat2Z.inj_succ, Z.pow_succ_r by lia. lia.
Qed.

Lemma compound_bytes_sum (s : list Z) :
  s <> [] -> Forall is_byte s ->
  compound_bytes_to_integer s = Ok (big_endian_sum s).
Proof.
  intros N F. unfold compound_bytes_to_integer. cbv zeta.
  apply int_base2_digits.
  - destruct s as [| b s]; [congruence |]. simpl map. rewrite concat_cons.
    inversion F as [| ? ? B _]; subst.
    pose proof (length_format_08b b B) as L.
    destruct (format_08b b); [discriminate L | discriminate].
  - rewrite int_digits2_bytes by exact F. rewrite horner_sum. f_equal; lia.
Qed.

End Folding.

(** ** Segment numbering *)

Section SegmentNumbering.

Lemma segment_list_loop (ss : list bool) :
  forall (ps pe es : list bool) (segments : list nat) (c : nat),
    length ps = length pe -> length ss = length es ->
    exists c',
      for_each (seq (length ps) (length ss))
        (segment_list_step (ps ++ ss) (pe ++ es)) (segments, c)
      = Ok (segments ++ numbering_walk c ss es, c').
Proof.
  induction ss as [| s ss IH]; intros ps pe es segments c Hp Hs.
  - exists c. cbn. now rewrite app_nil_r.
  - destruct es as [| e es]; [discriminate |].
    injection Hs as Hs.
    assert (Gs : getitem (ps ++ s :: ss) (length ps) = Ok s).
    { unfold getitem. rewrite nth_error_app2, Nat.sub_diag by lia. reflexivity. }
    assert (Ge : getitem (pe ++ e :: es) (length ps) = Ok e).
    { unfold getitem. rewrite Hp, nth_error_app2, Nat.sub_diag by lia.
      reflexivity. }
    assert (Hp' : length (ps ++ [s]) = length (pe ++ [e]))
      by (rewrite !length_app; cbn; lia).
    assert (Es : ps ++ s :: ss = (ps ++ [s]) ++ ss)
      by (rewrite <- app_assoc; reflexivity).
    assert (Ee : pe ++ e :: es = (pe ++ [e]) ++ es)
      by (rewrite <- app_assoc; reflexivity).
    assert (El : S (length ps) = length (ps ++ [s]))
      by (rewrite length_app; cbn; lia).
    cbn [length seq for_each]. unfold segment_list_step at 1.
    rewrite Gs. cbn [bind]. destruct s.
    + cbn [bind numbering_walk]. rewrite Nat.add_1_r.
      destruct (IH (ps ++ [true]) (pe ++ [e]) es (segments ++ [S c]) (S c) Hp' Hs)
        as [c' Hc'].
      exists c'. rewrite Es, Ee, El, Hc', <- app_assoc. reflexivity.
    + rewrite Ge. cbn [bind numbering_walk]. destruct e.
      * cbn [bind]. rewrite Nat.add_1_r.
        destruct (IH (ps ++ [false]) (pe ++ [true]) es (segments ++ [c]) (S c) Hp' Hs)
          as [c' Hc'].
        exists c'. rewrite Es, Ee, El, Hc', <- app_assoc. reflexivity.
      * cbn [bind].
        destruct (IH (ps ++ [false]) (pe ++ [false]) es (segments ++ [c]) c Hp' Hs)
          as [c' Hc'].
        exists c'. rewrite Es, Ee, El, Hc', <- app_assoc. reflexivity.
Qed.

Lemma segment_list_walk (start end_ : list bool) :
  length start = length end_ ->
  segment_list start end_ = Ok (numbering_walk 0 start end_).
Proof.
  intros H. unfold segment_list.
  destruct (segment_list_loop start [] [] end_ [] 0 eq_refl H) as [c' Hc'].
  cbn [length app] in Hc'. rewrite Hc'. reflexivity.
Qed.

Lemma length_numbering_walk (start end_ : list bool) (c : nat) :
  length start = length end_ ->
  length (numbering_walk c start end_) = length start.
Proof.
  revert end_ c; induction start as [| s start IH]; intros [| e end_] c H;
    try discriminate; [reflexivity |].
  injection H as H. cbn [numbering_walk].
  destruct s; [| destruct e]; cbn [length]; now rewrite IH.
Qed.

Lemma numbering_walk_lower (start end_ : list bool) (c i : nat) :
  i < length (numbering_walk c start end_) ->
  c <= nth i (numbering_walk c start end_) 0.
Proof.
  revert end_ c i; induction start as [| s start IH]; intros [| e end_] c i H;
    try (cbn in H; lia).
  cbn [numbering_walk] in *.
  destruct s; [| destruct e]; destruct i as [| i]; cbn [nth length] in *;
    try lia.
  - specialize (IH end_ (S c) i). lia.
  - specialize (IH end_ (S c) i). lia.
  - specialize (IH end_ c i). lia.
Qed.

Lemma numbering_walk_monotone (start end_ : list bool) (c : nat) :
  non_decreasing (numbering_walk c start end_).
Proof.
  revert end_ c; induction start as [| s start IH]; intros [| e end_] c i j Hij Hj;
    try (cbn in Hj; lia).
  cbn [numbering_walk] in *.
  destruct i as [| i], j as [| j]; try lia.
  - destruct s; [| destruct e]; cbn [nth length] in *.
    + pose proof (numbering_walk_lower start end_ (S c) j). lia.
    + pose proof (numbering_walk_lower start end_ (S c) j). lia.
    + pose proof (numbering_walk_lower start end_ c j). lia.
  - destruct s; [| destruct e]; cbn [nth length] in *;
      apply IH; lia.
Qed.

Lemma numbering_walk_pre_entry (start end_ : list bool) (c i : nat) :
  length start = length end_ -> i < length start ->
  before_first_start start i = true ->
  nth i (numbering_walk c start end_) 0 = c + count_flags (firstn i end_).
Proof.
  revert end_ c i; induction start as [| s start IH]; intros [| e end_] c i H Hi B;
    try discriminate; [cbn in Hi; lia |].
  injection H as H. unfold before_first_start in B. cbn [firstn forallb] in B.
  apply andb_true_iff in B as [Bs B]. destruct s; [discriminate |].
  cbn [numbering_walk]. destruct i as [| i].
  - destruct e; cbn; unfold count_flags; cbn; lia.
  - cbn [length] in Hi.
    assert (B' : before_first_start start i = true).
    { unfold before_first_start. destruct start; [cbn in Hi; lia | exact B]. }
    destruct e; cbn [nth firstn]; rewrite IH by (try assumption; lia);
      unfold count_flags; cbn [filter length]; lia.
Qed.

End SegmentNumbering.

(** ** Validators work on whole segments *)

Section Validators.

Import Analyzer.

Lemma nth_map_seq {A : Type} (f : nat -> A) (n i : nat) (d : A) :
  i < n -> nth i (map f (seq 0 n)) d = f i.
Proof.
  intros H. rewrite (nth_indep _ d (f 0)) by (rewrite length_map, length_seq; lia).
  rewrite (map_nth f (seq 0 n) 0 i), seq_nth by lia. reflexivity.
Qed.

Lemma tag_valid_segments_constant (segments : list nat)
  (validation_mask : list bool) (invalid_indicator : bool) (out : list bool) :
  _tag_valid_segments segments validation_mask invalid_indicator = Ok out ->
  constant_on_segments segments out.
Proof.
  unfold _tag_valid_segments. intros H. bind_inv H. cbv zeta in H.
  injection H as H. subst out. split.
  - now rewrite length_map, length_seq.
  - intros i j Hi Hj Hs. rewrite !nth_map_seq by assumption.
    rewrite Hs. reflexivity.
Qed.

Lemma tag_valid_segments_indices (validation_mask : list bool)
  (invalid_indicator : bool) (positions : list nat) (acc : list nat) :
  Forall (fun i => i < length validation_mask) positions ->
  exists indices,
    for_each positions
      (fun acc i =>
         v <- getitem validation_mask i ;;
         Ok (if Bool.eqb v invalid_indicator then acc ++ [i] else acc))
      acc
    = Ok indices.
Proof.
  intros F. revert acc. induction F as [| i positions Hi F IH]; intros acc.
  - exists acc. reflexivity.
  - cbn [for_each]. unfold getitem at 1.
    destruct (nth_error validation_mask i) as [v |] eqn:E.
    + cbn [bind]. apply IH.
    + apply nth_error_None in E. lia.
Qed.

Lemma tag_valid_segments_total (segments : list nat)
  (validation_mask : list bool) (invalid_indicator : bool) :
  length segments <= length validation_mask ->
  exists out, _tag_valid_segments segments validation_mask invalid_indicator = Ok out.
Proof.
  intros H. unfold _tag_valid_segments.
  destruct (tag_valid_segments_indices validation_mask invalid_indicator
              (seq 0 (length segments)) []) as [indices E].
  { apply Forall_forall. intros i Hi. apply in_seq in Hi. lia. }
  rewrite E. cbn [bind]. eexists. reflexivity.
Qed.

Lemma logical_and_constant (segments : list nat) (a b : list bool) :
  constant_on_segments segments a -> constant_on_segments segments b ->
  constant_on_segments segments (Np.logical_and a b).
Proof.
  intros [La Ha] [Lb Hb]. unfold Np.logical_and. split.
  - rewrite length_map, length_combine. lia.
  - intros i j Hi Hj Hs.
    assert (N : forall k, k < length segments ->
                nth k (map (fun p => fst p && snd p) (combine a b)) false
                = nth k a false && nth k b false).
    { intros k Hk.
      rewrite (nth_indep _ false ((fun p => fst p && snd p) (false, false)))
        by (rewrite length_map, length_combine; lia).
      rewrite (map_nth (fun p => fst p && snd p)), combine_nth by lia.
      reflexivity. }
    rewrite !N by assumption. rewrite (Ha i j), (Hb i j) by assumption.
    reflexivity.
Qed.

Lemma validate_segment_jumps_constant (machine_code : list Z)
  (segments : list nat) (push_data_mask jumps_mask out : list bool) :
  validate_segment_jumps machine_code segments push_data_mask jumps_mask = Ok out ->
  constant_on_segments segments out.
Proof.
  unfold validate_segment_jumps. intros H. bind_inv H.
  destruct (Np.rows x) as [| p ps]; [discriminate H |]. bind_inv H.
  eapply tag_valid_segments_constant. exact H.
Qed.

Lemma validate_segment_jumpdests_constant (machine_code : list Z)
  (segments : list nat) (push_data_mask jumpdests_mask entrance out : list bool) :
  validate_segment_jumpdests machine_code segments push_data_mask jumpdests_mask
    entrance = Ok out ->
  constant_on_segments segments out.
Proof.
  unfold validate_segment_jumpdests. intros H. bind_inv H. bind_inv H.
  eapply tag_valid_segments_constant. exact H.
Qed.

Lemma analyze_constant (t : Opcodes.Table) (fuel : nat) (machine_code : list Z)
  (result : list bool * list Ethertracer.report_line) :
  Ethertracer.analyze t fuel machine_code = Ok result ->
  exists m segments,
    Ethertracer.analyze_tags t machine_code = Ok m /\
    Ethertracer.analyze_segments machine_code m = Ok segments /\
    constant_on_segments segments (fst result).
Proof.
  unfold Ethertracer.analyze. intros H.
  bind_inv H. rename x into m. bind_inv H. rename x into segments.
  bind_inv H. rename x into v1. bind_inv H. rename x into v2.
  bind_inv H. rename x into starts. bind_inv H. rename x into v3.
  cbv zeta in H. bind_inv H. injection H as H. subst result.
  exists m, segments. split; [reflexivity |]. split; [exact E0 |].
  cbn [fst]. apply logical_and_constant; [| apply logical_and_constant].
  - eapply tag_valid_segments_constant. exact E1.
  - eapply validate_segment_jumps_constant. exact E2.
  - eapply validate_segment_jumpdests_constant. exact E4.
Qed.

End Validators.

(** ** Compound subsets *)

Section CompoundSubsets.

Lemma select_subset_cons (x : nat) (ise : list nat) (n : nat) (subsets : list nat)
  (i : nat) :
  select_subset (x :: ise) (n :: subsets) i
  = if n =? i then x :: select_subset ise subsets i
    else select_subset ise subsets i.
Proof.
  unfold select_subset. cbn [combine filter snd].
  destruct (n =? i); reflexivity.
Qed.

Lemma select_subset_below (ise subsets : list nat) (n i : nat) :
  Forall (fun s => n <= s) subsets -> i < n -> select_subset ise subsets i = [].
Proof.
  intros F Hi. revert ise. induction F as [| s subsets Hs F IH]; intros ise.
  - destruct ise; reflexivity.
  - destruct ise as [| x ise]; [reflexivity |].
    rewrite select_subset_cons.
    destruct (Nat.eqb_spec s i); [lia | apply IH].
Qed.

Lemma split_runs_nonempty (x : nat) (l : list nat) :
  exists r rs, split_runs (x :: l) = (x :: r) :: rs.
Proof.
  revert x. induction l as [| y l IH]; intros x.
  - exists [], []. reflexivity.
  - destruct (IH y) as [r [rs E]]. cbn [split_runs] in *. rewrite E.
    destruct (1 <? Z.of_nat y - Z.of_nat x)%Z; eauto.
Qed.

(** The second and third loops of [get_compound_subsets], started at any
    subset number, cut the positions into [split_runs]. *)
Lemma number_subsets_split (l : list nat) :
  l <> [] ->
  forall n,
    n <= snd (number_subsets l n) /\
    Forall (fun s => n <= s) (fst (number_subsets l n)) /\
    map (select_subset l (fst (number_subsets l n)))
        (seq n (snd (number_subsets l n) + 1 - n))
    = split_runs l.
Proof.
  induction l as [| x l IH]; [congruence |]. intros _ n.
  destruct l as [| y l].
  - cbn [number_subsets fst snd split_runs].
    replace (n + 1 - n) with 1 by lia. cbn [seq map].
    rewrite select_subset_cons, Nat.eqb_refl.
    repeat split; [lia | repeat constructor].
  - set (n' := if (1 <? Z.of_nat y - Z.of_nat x)%Z then S n else n).
    assert (Hn' : n <= n') by (subst n'; destruct (1 <? _)%Z; lia).
    destruct (IH ltac:(congruence) n') as [Hle [Hall Hmap]].
    change (number_subsets (x :: y :: l) n)
      with (let (subsets, final) := number_subsets (y :: l) n' in
            (n :: subsets, final)).
    destruct (number_subsets (y :: l) n') as [subsets final] eqn:E.
    cbn [fst snd] in *.
    split; [lia |]. split.
    { constructor; [lia |]. eapply Forall_impl; [| exact Hall].
      cbn. intros; lia. }
    destruct (split_runs_nonempty y l) as [r [rs Hr]].
    change (split_runs (x :: y :: l))
      with (match split_runs (y :: l) with
            | r :: rs =>
                if (1 <? Z.of_nat y - Z.of_nat x)%Z then [x] :: r :: rs
                else (x :: r) :: rs
            | [] => [[x]]
            end).
    rewrite <- Hmap.
    replace (final + 1 - n) with (S (final - n)) by lia.
    replace (final + 1 - n') with (S (final - n')) by lia.
    cbn [seq map]. rewrite select_subset_cons, Nat.eqb_refl.
    assert (Htail : forall k m, n < k ->
              map (select_subset (x :: y :: l) (n :: subsets)) (seq k m)
              = map (select_subset (y :: l) subsets) (seq k m)).
    { intros k m Hk. apply map_ext_in. intros i Hi. apply in_seq in Hi.
      rewrite select_subset_cons. destruct (Nat.eqb_spec n i); [lia | reflexivity]. }
    subst n'. destruct (1 <? Z.of_nat y - Z.of_nat x)%Z.
    + rewrite (select_subset_below (y :: l) subsets (S n) n Hall) by lia.
      rewrite Htail by lia.
      replace (final - n) with (S (final - S n)) by lia.
      cbn [seq map]. reflexivity.
    + rewrite Htail by lia. reflexivity.
Qed.

Lemma get_compound_subsets_split (mask : list bool) (indicator : bool) :
  index_subset_element mask indicator <> [] ->
  get_compound_subsets mask indicator
  = split_runs (index_subset_element mask indicator).
Proof.
  intros H. unfold get_compound_subsets. cbv zeta.
  destruct (number_subsets_split _ H 0) as [_ [_ E]].
  destruct (number_subsets (index_subset_element mask indicator) 0)
    as [subsets final].
  cbn [fst snd] in E. rewrite Nat.sub_0_r in E. exact E.
Qed.

Lemma split_runs_cons2 (x y : nat) (l : list nat) :
  split_runs (x :: y :: l)
  = match split_runs (y :: l) with
    | r :: rs =>
        if (1 <? Z.of_nat y - Z.of_nat x)%Z then [x] :: r :: rs
        else (x :: r) :: rs
    | [] => [[x]]
    end.
Proof. reflexivity. Qed.

(** A contiguous block that is followed by a gap is the first run. *)
Lemma split_runs_first_run (k a : nat) (l2 : list nat) :
  Forall (fun x => a + S k < x) l2 ->
  exists rs, split_runs (seq a (S k) ++ l2) = seq a (S k) :: rs.
Proof.
  revert a; induction k as [| k IH]; intros a F.
  - cbn [seq app]. destruct l2 as [| y l2]; [exists []; reflexivity |].
    destruct (split_runs_nonempty y l2) as [r [rs E]].
    rewrite split_runs_cons2, E.
    inversion F as [| ? ? Hy _]; subst.
    replace (1 <? Z.of_nat y - Z.of_nat a)%Z with true
      by (symmetry; apply Z.ltb_lt; lia).
    eauto.
  - destruct (IH (S a)) as [rs E].
    { eapply Forall_impl; [| exact F]. cbn. intros; lia. }
    change (seq a (S (S k)) ++ l2) with (a :: S a :: (seq (S (S a)) k ++ l2)).
    rewrite split_runs_cons2.
    change (S a :: (seq (S (S a)) k ++ l2)) with (seq (S a) (S k) ++ l2).
    rewrite E.
    replace (1 <? Z.of_nat (S a) - Z.of_nat a)%Z with false
      by (symmetry; apply Z.ltb_ge; lia).
    exists rs. reflexivity.
Qed.

(** A contiguous block between two gaps is one of the runs. *)
Lemma split_runs_block (l1 l2 : list nat) (a k : nat) :
  Forall (fun x => x + 1 < a) l1 ->
  Forall (fun x => a + S k < x) l2 ->
  In (seq a (S k)) (split_runs (l1 ++ seq a (S k) ++ l2)).
Proof.
  intros F1 F2. induction F1 as [| x l1 Hx F1 IH].
  - destruct (split_runs_first_run k a l2 F2) as [rs E].
    cbn [app]. rewrite E. left. reflexivity.
  - remember (l1 ++ seq a (S k) ++ l2) as rest eqn:Hrest.
    destruct rest as [| y rest].
    { destruct l1; discriminate Hrest. }
    cbn [app]. rewrite <- Hrest, split_runs_cons2.
    destruct (split_runs_nonempty y rest) as [r [rs E]].
    rewrite E in *.
    destruct (1 <? Z.of_nat y - Z.of_nat x)%Z eqn:G.
    + right. exact IH.
    + destruct IH as [IH | IH]; [| right; exact IH].
      exfalso. apply Z.ltb_ge in G. cbn [seq] in IH.
      injection IH as Hy _. lia.
Qed.

(** The runs of a strictly increasing list are contiguous blocks. *)
Lemma split_runs_contiguous (l : list nat) :
  StronglySorted lt l ->
  Forall (fun r => exists a k, r = seq a (S k)) (split_runs l).
Proof.
  induction l as [| x l IH]; intros Hs; [constructor |].
  inversion Hs as [| ? ? Sl Hx]; subst.
  destruct l as [| y l].
  - repeat constructor. exists x, 0. reflexivity.
  - specialize (IH Sl). rewrite split_runs_cons2.
    destruct (split_runs_nonempty y l) as [r [rs E]]. rewrite E in *.
    inversion IH as [| ? ? [a [k Hr]] Hrs]; subst.
    inversion Hx as [| ? ? Hxy _]; subst.
    destruct (1 <? Z.of_nat y - Z.of_nat x)%Z eqn:G.
    + constructor; [exists x, 0; reflexivity |]. exact IH.
    + constructor; [| exact Hrs]. apply Z.ltb_ge in G.
      cbn [seq] in Hr. injection Hr as Ha Hr. subst a r.
      assert (y = S x) by lia. subst y.
      exists x, (S k). reflexivity.
Qed.

Lemma filter_seq_sorted (p : nat -> bool) (n a : nat) :
  StronglySorted lt (filter p (seq a n)) /\
  Forall (fun x => a <= x) (filter p (seq a n)).
Proof.
  revert a; induction n as [| n IH]; intros a; [split; constructor |].
  destruct (IH (S a)) as [Hs F]. cbn [seq filter].
  assert (F' : Forall (fun x => a < x) (filter p (seq (S a) n)))
    by (eapply Forall_impl; [| exact F]; cbn; intros; lia).
  destruct (p a).
  - split; constructor; auto.
    eapply Forall_impl; [| exact F']. cbn. intros; lia.
  - split; [exact Hs |]. eapply Forall_impl; [| exact F']. cbn. intros; lia.
Qed.

Lemma filter_all (p : nat -> bool) (l : list nat) :
  (forall x, In x l -> p x = true) -> filter p l = l.
Proof.
  intros H. apply forallb_filter_id, forallb_forall. exact H.
Qed.

Lemma maximal_run_index_subset (mask : list bool) (a b : nat) :
  maximal_run mask a b ->
  exists l1 l2,
    index_subset_element mask true = l1 ++ seq a (S (b - a)) ++ l2 /\
    Forall (fun x => x + 1 < a) l1 /\
    Forall (fun x => a + S (b - a) < x) l2.
Proof.
  intros [Hab [Hin [Hbefore Hafter]]].
  assert (Hb : b < length mask).
  { destruct (Nat.lt_ge_cases b (length mask)) as [L | G]; [exact L |].
    specialize (Hin b Hab (le_n b)). rewrite nth_overflow in Hin by exact G.
    discriminate. }
  set (p := fun i => Bool.eqb (nth i mask false) true).
  exists (filter p (seq 0 a)), (filter p (seq (S b) (length mask - S b))).
  split; [| split].
  - unfold index_subset_element. fold p.
    replace (length mask) with (a + (S (b - a) + (length mask - S b))) at 1 by lia.
    rewrite !seq_app, !filter_app. cbn [Nat.add].
    replace (a + S (b - a)) with (S b) by lia.
    f_equal. f_equal. apply filter_all. intros x Hx. apply in_seq in Hx.
    unfold p. rewrite Hin by lia. reflexivity.
  - apply Forall_forall. intros x Hx. apply filter_In in Hx as [Hx Hp].
    apply in_seq in Hx. unfold p in Hp.
    destruct (Nat.eq_dec (S x) a) as [E | N]; [| lia].
    rewrite (Hbefore x E) in Hp. discriminate.
  - apply Forall_forall. intros x Hx. apply filter_In in Hx as [Hx Hp].
    apply in_seq in Hx. unfold p in Hp.
    destruct (Nat.eq_dec x (S b)) as [E | N]; [| lia].
    subst x. rewrite Hafter in Hp. discriminate.
Qed.

(** Every maximal run of the mask is one of the compound subsets. *)
Lemma maximal_run_in_subsets (mask : list bool) (a b : nat) :
  maximal_run mask a b ->
  In (seq a (S (b - a))) (get_compound_subsets mask true).
Proof.
  intros H. destruct (maximal_run_index_subset mask a b H) as [l1 [l2 [E [F1 F2]]]].
  rewrite get_compound_subsets_split.
  - rewrite E. apply split_runs_block; assumption.
  - rewrite E. destruct l1; discriminate.
Qed.

(** With a true entry in the mask, every compound subset is a contiguous
    block of positions. *)
Lemma subsets_contiguous (mask : list bool) :
  index_subset_element mask true <> [] ->
  Forall (fun r => exists a k, r = seq a (S k)) (get_compound_subsets mask true).
Proof.
  intros H. rewrite get_compound_subsets_split by exact H.
  apply split_runs_contiguous. unfold index_subset_element.
  apply filter_seq_sorted.
Qed.

End CompoundSubsets.

(** ** Arrays of integers *)

Ltac words :=
  change (2 ^ 63)%Z with 9223372036854775808%Z in *;
  change (2 ^ 64)%Z with 18446744073709551616%Z in *.

Section Arrays.

Lemma int_dtype_cases (v : Z) :
  (0 <= v)%Z ->
  (Np.int_dtype v = Np.int64 /\ v < 2 ^ 63)%Z \/
  (Np.int_dtype v = Np.uint64 /\ 2 ^ 63 <= v < 2 ^ 64)%Z \/
  (Np.int_dtype v = Np.object /\ 2 ^ 64 <= v)%Z.
Proof.
  intros H. unfold Np.int_dtype.
  destruct (Z.leb_spec (- 2 ^ 63) v), (Z.ltb_spec v (2 ^ 63)),
    (Z.leb_spec 0 v), (Z.ltb_spec v (2 ^ 64)); cbn [andb]; words;
    first [ left; split; [reflexivity | lia]
          | right; left; split; [reflexivity | lia]
          | right; right; split; [reflexivity | lia]
          | lia ].
Qed.

(** The type of an array of non-negative integers, from their sizes. *)
Lemma result_type_spec (l : list Z) :
  l <> [] -> Forall (fun v => 0 <= v)%Z l ->
  match Np.result_type l with
  | Np.int64 => forall v, In v l -> (v < 2 ^ 63)%Z
  | Np.uint64 => forall v, In v l -> (2 ^ 63 <= v < 2 ^ 64)%Z
  | Np.object => exists v, In v l /\ (2 ^ 64 <= v)%Z
  | Np.float64 => mixed_words (fun v => In v l)
  end.
Proof.
  intros N F. induction F as [| v rest Hv F IH]; [congruence |]. clear N.
  destruct rest as [| w rest].
  - cbn [Np.result_type].
    destruct (int_dtype_cases v Hv) as [[-> H] | [[-> H] | [-> H]]].
    + intros x [<- | []]. exact H.
    + intros x [<- | []]. exact H.
    + exists v. split; [left; reflexivity | exact H].
  - specialize (IH ltac:(discriminate)).
    change (Np.result_type (v :: w :: rest))
      with (Np.promote (Np.int_dtype v) (Np.result_type (w :: rest))).
    remember (w :: rest) as l eqn:El.
    assert (Hw : In w l) by (subst l; left; reflexivity). clear El.
    unfold mixed_words in *.
    destruct (int_dtype_cases v Hv) as [[-> H] | [[-> H] | [-> H]]];
      destruct (Np.result_type l); cbn [Np.promote]; words.
    all: try (intros x [<- | Hx]; [lia | now apply IH]).
    all: try (destruct IH as [x [Hx Hx']]; exists x;
              split; [right; exact Hx | exact Hx']).
    all: try (exists v; split; [left; reflexivity | lia]).
    all: try (destruct IH as [[x [Hx Hx']] [[y [Hy Hy']] Hall]];
              split; [exists x; split; [right; exact Hx | exact Hx'] |];
              split; [exists y; split; [right; exact Hy | exact Hy'] |];
              intros z [<- | Hz]; [lia | now apply Hall]).
    + split; [exists w; split; [right; exact Hw | apply IH; exact Hw] |].
      split; [exists v; split; [left; reflexivity | exact H] |].
      intros z [<- | Hz]; [lia | now apply IH].
    + split; [exists v; split; [left; reflexivity | lia] |].
      split; [exists w; split; [right; exact Hw | apply IH; exact Hw] |].
      intros z [<- | Hz]; [lia |]. specialize (IH z Hz). lia.
Qed.

Lemma result_type_float64 (l : list Z) :
  l <> [] -> Forall (fun v => 0 <= v)%Z l ->
  (Np.result_type l = Np.float64 <-> mixed_words (fun v => In v l)).
Proof.
  intros N F. pose proof (result_type_spec l N F) as S. split.
  - intros E. rewrite E in S. exact S.
  - intros [[x [Hx Hx']] [[y [Hy Hy']] Hall]].
    destruct (Np.result_type l); try reflexivity; exfalso; words.
    + specialize (S x Hx). lia.
    + specialize (S y Hy). lia.
    + destruct S as [z [Hz Hz']]. specialize (Hall z Hz). lia.
Qed.

Lemma mixed_words_ext (P Q : Z -> Prop) :
  (forall v, P v <-> Q v) -> mixed_words P -> mixed_words Q.
Proof.
  intros H [[x [Hx Hx']] [[y [Hy Hy']] Hall]]. split; [| split].
  - exists x. split; [apply H; exact Hx | exact Hx'].
  - exists y. split; [apply H; exact Hy | exact Hy'].
  - intros z Hz. apply Hall, H. exact Hz.
Qed.


Lemma In_tolist_array (l : list Z) (w : Z) :
  In w (Np.tolist (Np.array l))
  <-> exists v, In v l /\ w = Np.cast (Np.dtype_of (Np.array l)) v.
Proof.
  cbn [Np.array Np.tolist Np.dtype_of]. rewrite in_map_iff.
  split; intros [v [H1 H2]]; exists v; auto.
Qed.


Lemma rows_array2_nil (l : list (nat * Z)) :
  Np.rows (Np.array2 l) = [] <-> l = [].
Proof.
  unfold Np.array2. cbv zeta. cbn [Np.rows]. split.
  - intros H. destruct l; [reflexivity | discriminate H].
  - intros ->. reflexivity.
Qed.

End Arrays.

(** ** Push immediates *)

Section PushData.

Import Analyzer.

Lemma block_ends (a k : nat) :
  getitem (seq a (S k)) 0 = Ok a /\
  getlast (seq a (S k)) = Ok (a + k) /\
  hd 0 (seq a (S k)) = a /\
  last (seq a (S k)) 0 = a + k.
Proof.
  split; [reflexivity |]. split; [| split; [reflexivity |]].
  - unfold getlast. rewrite seq_S, rev_unit. reflexivity.
  - rewrite seq_S. apply last_last.
Qed.

Lemma slice_bytes (machine_code : list Z) (a b : nat) :
  Forall is_byte machine_code -> a < b -> a < length machine_code ->
  slice machine_code a b <> [] /\ Forall is_byte (slice machine_code a b).
Proof.
  intros F Hab Ha. unfold slice. split.
  - intros E. apply (f_equal (@length Z)) in E.
    rewrite length_firstn, length_skipn in E. cbn in E. lia.
  - rewrite <- (firstn_skipn a machine_code) in F.
    apply Forall_app in F as [_ F].
    rewrite <- (firstn_skipn (b - a) (skipn a machine_code)) in F.
    apply Forall_app in F as [F _]. exact F.
Qed.

Lemma get_push_data_loop (machine_code : list Z) (runs : list (list nat)) :
  Forall is_byte machine_code ->
  Forall (fun r => exists a k, r = seq a (S k)) runs ->
  forall push_data,
    for_each runs
      (fun push_data set =>
         set_start <- getitem set 0 ;;
         set_end <- getlast set ;;
         if set_end + 1 <? length machine_code then
           compound_data <-
             compound_bytes_to_integer
               (slice machine_code set_start (set_end + 1)) ;;
           Ok (push_data ++ [compound_data])
         else Ok push_data)
      push_data
    = Ok (push_data ++ run_values machine_code runs).
Proof.
  intros B F. induction F as [| r runs [a [k Hr]] F IH]; intros push_data.
  - cbn. now rewrite app_nil_r.
  - subst r. destruct (block_ends a k) as [H0 [Hl [Hh Ht]]].
    cbn [for_each]. rewrite H0. cbn [bind]. rewrite Hl. cbn [bind].
    unfold run_values. cbn [flat_map]. rewrite Hh, Ht.
    destruct (a + k + 1 <? length machine_code) eqn:G.
    + apply Nat.ltb_lt in G.
      destruct (slice_bytes machine_code a (a + k + 1) B) as [Hn Hb]; try lia.
      rewrite (compound_bytes_sum _ Hn Hb). cbn [bind].
      rewrite IH. unfold run_values. rewrite <- app_assoc. reflexivity.
    + cbn [bind]. rewrite IH. reflexivity.
Qed.

Lemma get_push_data_values (machine_code : list Z) (mask : list bool) :
  Forall is_byte machine_code ->
  index_subset_element mask true <> [] ->
  push_data_list machine_code mask
  = Ok (run_values machine_code (get_compound_subsets mask true)).
Proof.
  intros B H. unfold push_data_list. cbv zeta.
  rewrite (get_push_data_loop machine_code _ B (subsets_contiguous mask H)).
  reflexivity.
Qed.

(** [_get_push_data] returns the array of the list that its loop builds. *)
Lemma get_push_data_array (machine_code : list Z) (mask : list bool)
  (push_data : Np.ndarray) :
  _get_push_data machine_code mask = Ok push_data <->
  exists l, push_data_list machine_code mask = Ok l /\ push_data = Np.array l.
Proof.
  unfold _get_push_data. split.
  - intros H. bind_inv H. injection H as <-. eauto.
  - intros [l [E ->]]. rewrite E. reflexivity.
Qed.

Lemma get_pushjump_data_array (machine_code : list Z)
  (mask jumps_mask : list bool) (pushjump_data : Np.ndarray2) :
  _get_pushjump_data machine_code mask jumps_mask = Ok pushjump_data <->
  exists l,
    pushjump_data_list machine_code mask jumps_mask = Ok l /\
    pushjump_data = Np.array2 l.
Proof.
  unfold _get_pushjump_data. split.
  - intros H. bind_inv H. injection H as <-. eauto.
  - intros [l [E ->]]. rewrite E. reflexivity.
Qed.

Lemma slice_is_bytes (machine_code : list Z) (a b : nat) :
  Forall is_byte machine_code -> Forall is_byte (slice machine_code a b).
Proof.
  intros F. unfold slice.
  rewrite <- (firstn_skipn a machine_code) in F.
  apply Forall_app in F as [_ F].
  rewrite <- (firstn_skipn (b - a) (skipn a machine_code)) in F.
  apply Forall_app in F as [F _]. exact F.
Qed.

End PushData.

(** ** The push-data tagger terminates *)

Section Tagging.

Import Opcodes Tagger.

Lemma setitem_returns {A : Type} (l : list A) (i : nat) (v : A) :
  setitem l i v <> OutOfFuel.
Proof.
  revert i; induction l as [| x l IH]; intros [| i]; cbn [setitem];
    try discriminate.
  specialize (IH i). destruct (setitem l i v); cbn [bind];
    [discriminate | discriminate | congruence].
Qed.

Lemma tag_operands_returns (len : nat) (js : list nat) (tags : list bool) :
  tag_operands len js tags <> OutOfFuel.
Proof.
  revert tags; induction js as [| j js IH]; intros tags; cbn [tag_operands];
    [discriminate |].
  destruct (len <=? j); [discriminate |].
  pose proof (setitem_returns tags j true) as H.
  destruct (setitem tags j true); cbn [bind];
    [apply IH | discriminate | congruence].
Qed.

(** Every round of the [while] loop advances [i], so the loop is over
    after at most [len(machine_code) - i] rounds. *)
Lemma tag_push_data_loop_returns (fuel : nat) (t : Table) (machine_code : list Z)
  (push1 push32 : Z) :
  forall i tags,
    length machine_code - i <= fuel ->
    tag_push_data_loop fuel t machine_code push1 push32 i tags <> OutOfFuel.
Proof.
  induction fuel as [| fuel IH]; intros i tags H; cbn [tag_push_data_loop];
    destruct (Nat.ltb_spec i (length machine_code)) as [L | G];
    try discriminate; [lia |].
  unfold getitem. destruct (nth_error machine_code i) as [instruction |];
    cbn [bind]; [| discriminate].
  destruct ((push1 <=? instruction)%Z && (instruction <=? push32)%Z).
  - unfold bytecode_name. destruct (BYTECODES t instruction); cbn [bind];
      [| discriminate].
    pose proof (tag_operands_returns (length machine_code)
                  (seq (i + 1) (Z.to_nat (instruction - push1 + 1))) tags) as Ho.
    destruct (tag_operands _ _ tags); cbn [bind];
      [apply IH; lia | discriminate | congruence].
  - apply IH. lia.
Qed.

Lemma tag_push_data_returns (t : Table) (machine_code : list Z) :
  tag_push_data t machine_code <> OutOfFuel.
Proof.
  unfold tag_push_data, opcode_by_name, opcode_code.
  destruct (OPCODES t "PUSH1"); cbn [bind]; [| discriminate].
  destruct (OPCODES t "PUSH32"); cbn [bind]; [| discriminate].
  apply tag_push_data_loop_returns. lia.
Qed.

End Tagging.

(** ** The end mask of the orchestrator *)

Section EndMask.

Import Opcodes Ethertracer.

Lemma tag_mnemonic_loop (t : Table) (mnemonic : string) (c : Z)
  (machine_code : list Z) :
  OPCODES t mnemonic = Some c ->
  forall tags,
    for_each machine_code
      (fun tags b => c <- opcode_code t mnemonic ;; Ok (tags ++ [Z.eqb b c])) tags
    = Ok (tags ++ map (fun b => Z.eqb b c) machine_code).
Proof.
  intros H. induction machine_code as [| b machine_code IH]; intros tags.
  - cbn. now rewrite app_nil_r.
  - cbn [for_each map]. unfold opcode_code at 1. rewrite H. cbn [bind].
    rewrite IH, <- app_assoc. reflexivity.
Qed.

Lemma tag_mnemonic_map (t : Table) (mnemonic : string) (c : Z)
  (machine_code : list Z) :
  OPCODES t mnemonic = Some c ->
  Tagger.tag_mnemonic t machine_code mnemonic
  = Ok (map (fun b => Z.eqb b c) machine_code).
Proof.
  intros H. unfold Tagger.tag_mnemonic.
  rewrite (tag_mnemonic_loop t mnemonic c machine_code H). reflexivity.
Qed.

Lemma conjunction_of_distinct_tags (f g : Z -> bool) :
  (forall b, f b && g b = false) ->
  forall machine_code n n' rest,
    Forall (fun x => x = false)
      (Np.logical_and (Np.logical_and (map f machine_code) n)
         (Np.logical_and (Np.logical_and (map g machine_code) n') rest)).
Proof.
  intros H. induction machine_code as [| b machine_code IH]; intros n n' rest.
  - constructor.
  - destruct n as [| x n]; [constructor |].
    destruct n' as [| y n']; [constructor |].
    destruct rest as [| z rest]; [constructor |].
    unfold Np.logical_and in *. cbn [map combine fst snd].
    constructor; [| apply IH].
    specialize (H b). destruct (f b), (g b), x, y, z; cbn in *; congruence.
Qed.

(** Whenever [JUMP] and [STOP] are different bytes, the end mask of
    [analyze] has no true entry, on any bytecode. *)
Lemma end_flag_mask_all_false (t : Table) (machine_code : list Z) (m : tags)
  (jump stop : Z) :
  OPCODES t "JUMP" = Some jump -> OPCODES t "STOP" = Some stop ->
  jump <> stop ->
  analyze_tags t machine_code = Ok m ->
  Forall (fun x => x = false) (end_flag_mask m).
Proof.
  intros Hj Hs Hne H. unfold analyze_tags in H.
  rewrite (tag_mnemonic_map t "JUMP" jump machine_code Hj) in H.
  rewrite (tag_mnemonic_map t "STOP" stop machine_code Hs) in H.
  bind_inv H. bind_inv H. cbn [bind] in H. bind_inv H. bind_inv H.
  repeat bind_inv H. injection H as H. subst m.
  unfold end_flag_mask. cbn [jump_mask stop_mask return_mask selfdestruct_mask].
  apply conjunction_of_distinct_tags. intros b.
  destruct (Z.eqb_spec b jump), (Z.eqb_spec b stop); try reflexivity. congruence.
Qed.

End EndMask.

(** * The claims *)

Section Claims.

Import Opcodes Analyzer Ethertracer.

Open Scope Z_scope.

(** C9.  For a non-empty list of bytes, [compound_bytes_to_integer]
    returns the sum of [s[i] * 256^(len(s)-1-i)], the non-negative integer
    whose base-256 digits are the bytes, most significant first. *)
Theorem compound_bytes_to_integer_big_endian (s : list Z) :
  s <> [] -> Forall is_byte s ->
  compound_bytes_to_integer s = Ok (big_endian_sum s) /\ 0 <= big_endian_sum s.
Proof.
  intros N F. split; [exact (compound_bytes_sum s N F) |].
  clear N. induction F as [| b s [L U] F IH].
  - unfold big_endian_sum. cbn. lia.
  - rewrite big_endian_sum_cons.
    assert (0 <= 256 ^ Z.of_nat (length s)) by (apply Z.pow_nonneg; lia).
    nia.
Qed.

Lemma compound_bytes_to_integer_big_endian_witness :
  [1; 2; 255] <> [] /\ Forall is_byte [1; 2; 255] /\
  compound_bytes_to_integer [1; 2; 255] = Ok (big_endian_sum [1; 2; 255]) /\
  0 <= big_endian_sum [1; 2; 255].
Proof.
  assert (N : [1; 2; 255] <> []) by discriminate.
  assert (F : Forall is_byte [1; 2; 255])
    by (repeat constructor; unfold is_byte; lia).
  split; [exact N |]. split; [exact F |].
  exact (compound_bytes_to_integer_big_endian [1; 2; 255] N F).
Defined.

Close Scope Z_scope.

(** C8, as amended.  [segment_list] is the numbering walk of the
    specification (a start flag pre-increments the counter and emits it,
    otherwise an end flag emits it and post-increments it, otherwise the
    counter is emitted; a start flag wins over an end flag).  Its output is
    non-decreasing, and a position before the first start flag receives the
    number of end flags set strictly before it. *)
Theorem segment_list_numbering (start end_ : list bool) :
  length start = length end_ ->
  segment_list start end_ = Ok (numbering_walk 0 start end_) /\
  non_decreasing (numbering_walk 0 start end_) /\
  forall i,
    i < length start -> before_first_start start i = true ->
    nth i (numbering_walk 0 start end_) 0 = count_flags (firstn i end_).
Proof.
  intros H. split; [exact (segment_list_walk start end_ H) |].
  split; [apply numbering_walk_monotone |].
  intros i Hi B. rewrite (numbering_walk_pre_entry start end_ 0 i H Hi B).
  reflexivity.
Qed.

Lemma segment_list_numbering_witness :
  length [false; false; true; false] = length [true; false; false; true] /\
  segment_list [false; false; true; false] [true; false; false; true]
  = Ok (numbering_walk 0 [false; false; true; false] [true; false; false; true]) /\
  non_decreasing
    (numbering_walk 0 [false; false; true; false] [true; false; false; true]) /\
  forall i,
    i < length [false; false; true; false] ->
    before_first_start [false; false; true; false] i = true ->
    nth i (numbering_walk 0 [false; false; true; false] [true; false; false; true]) 0
    = count_flags (firstn i [true; false; false; true]).
Proof.
  split; [reflexivity |].
  exact (segment_list_numbering [false; false; true; false]
           [true; false; false; true] eq_refl).
Defined.

(** C8, as stated, fails: with an end flag at position 0 and the first
    start flag at position 2, position 1 lies before the first start flag
    and receives id 1. *)
Lemma pre_entry_not_zero :
  ~ pre_entry_zero [false; false; true] [true; false; false].
Proof.
  intros H. specialize (H [0; 1; 2] 1 eq_refl (le_S _ _ (le_n 2)) eq_refl).
  discriminate H.
Qed.

(** C10.  The mask returned by [_tag_valid_segments] has the length of the
    segment vector and gives one answer on all positions of a segment; it
    is returned whenever the validation mask covers the segment vector.
    The verdict of [analyze] is therefore constant on every segment. *)
Theorem validators_constant_on_segments :
  (forall segments validation_mask invalid_indicator out,
     _tag_valid_segments segments validation_mask invalid_indicator = Ok out ->
     constant_on_segments segments out) /\
  (forall segments validation_mask invalid_indicator,
     length segments <= length validation_mask ->
     exists out,
       _tag_valid_segments segments validation_mask invalid_indicator = Ok out) /\
  (forall t fuel machine_code result,
     analyze t fuel machine_code = Ok result ->
     exists m segments,
       analyze_tags t machine_code = Ok m /\
       analyze_segments machine_code m = Ok segments /\
       constant_on_segments segments (fst result)).
Proof.
  split; [exact tag_valid_segments_constant |].
  split; [exact tag_valid_segments_total | exact analyze_constant].
Qed.

Lemma validators_constant_on_segments_witness :
  (_tag_valid_segments [0; 0; 1] [false; true; false] true
   = Ok [false; false; true] /\
   constant_on_segments [0; 0; 1] [false; false; true]) /\
  (length [0; 0; 1] <= length [false; true; false] /\
   exists out, _tag_valid_segments [0; 0; 1] [false; true; false] true = Ok out) /\
  (exists result,
     analyze evm 2 [96; 3; 86; 91; 0; 12; 91; 96; 0; 86; 96; 6; 86]%Z = Ok result /\
     fst result
     = [true; true; true; false; false; false; true; true; true; true; true;
        true; true] /\
     exists m segments,
       analyze_tags evm [96; 3; 86; 91; 0; 12; 91; 96; 0; 86; 96; 6; 86]%Z = Ok m /\
       analyze_segments [96; 3; 86; 91; 0; 12; 91; 96; 0; 86; 96; 6; 86]%Z m
       = Ok segments /\
       constant_on_segments segments (fst result)).
Proof.
  split; [| split].
  - split; [reflexivity |].
    exact (proj1 validators_constant_on_segments [0; 0; 1] [false; true; false]
             true [false; false; true] eq_refl).
  - split; [cbn; lia |].
    apply (proj1 (proj2 validators_constant_on_segments)). cbn. lia.
  - eexists. split; [vm_compute; reflexivity |]. split; [reflexivity |].
    apply (proj2 (proj2 validators_constant_on_segments) evm 2).
    vm_compute. reflexivity.
Defined.

(** C2.  On a mask without a true entry [get_compound_subsets] returns one
    empty subset, not the empty list. *)
Theorem get_compound_subsets_all_false (n : nat) :
  get_compound_subsets (repeat false n) true = [[]].
Proof.
  unfold get_compound_subsets.
  assert (E : index_subset_element (repeat false n) true = []).
  { unfold index_subset_element. rewrite repeat_length.
    generalize (seq 0 n) as l. induction l as [| i l IH]; [reflexivity |].
    cbn [filter].
    replace (nth i (repeat false n) false) with false; [exact IH |].
    destruct (Nat.lt_ge_cases i n) as [L | G].
    - symmetry. apply nth_repeat_lt. exact L.
    - symmetry. apply nth_overflow. rewrite repeat_length. exact G. }
  rewrite E. reflexivity.
Qed.

(** C1.  On the lone [STOP] byte the stop mask is set at position 0, while
    the end mask that [analyze] hands to the segmenter, a conjunction of the
    four terminator masks, is not. *)
Theorem end_flag_mask_lone_stop :
  exists m,
    analyze_tags evm [0]%Z = Ok m /\
    stop_mask m = [true] /\
    end_flag_mask m = [false].
Proof.
  eexists. split; [vm_compute; reflexivity |]. split; reflexivity.
Qed.

(** C3.  On [JUMPDEST STOP] both positions receive segment id 1, and
    [analyze] raises [IndexError]: the push-data mask has no true entry,
    and [_get_pushjump_data] indexes the empty subset. *)
Theorem analyze_minimal_segment :
  exists m,
    analyze_tags evm [91; 0]%Z = Ok m /\
    analyze_segments [91; 0]%Z m = Ok [1; 1] /\
    _get_pushjump_data [91; 0]%Z (push_data_mask m) (jump_mask m)
    = Raise IndexError /\
    forall fuel, analyze evm fuel [91; 0]%Z = Raise IndexError.
Proof.
  eexists. split; [vm_compute; reflexivity |].
  split; [reflexivity |]. split; [reflexivity |].
  intros fuel. reflexivity.
Qed.

(** C4.  On the empty bytecode [analyze] raises, whatever the opcode
    table: no mask and no report are produced.  [_get_pushjump_data] would
    raise on the empty mask as well. *)
Theorem analyze_empty :
  (forall t fuel, exists e, analyze t fuel [] = Raise e) /\
  _get_pushjump_data [] [] [] = Raise IndexError.
Proof.
  split; [| reflexivity]. intros t fuel.
  unfold analyze, analyze_tags, Tagger.tag_push_data, opcode_by_name, opcode_code.
  destruct (OPCODES t "PUSH1"); [| eexists; reflexivity].
  destruct (OPCODES t "PUSH32"); eexists; reflexivity.
Qed.

(** The masks of the bytecodes on which the entrance finder is run below
    are those that [analyze] hands to it. *)
Lemma tagger_examples :
  Tagger.tag_push_data evm [96; 5]%Z = Ok [false; true] /\
  (exists m, analyze_tags evm [91; 97; 255; 255; 86; 0]%Z = Ok m /\
             push_data_mask m = [false; false; true; true; false; false] /\
             jumpdest_mask m = [true; false; false; false; false; false]) /\
  (exists m, analyze_tags evm [96; 0; 86]%Z = Ok m /\
             push_data_mask m = [false; true; false] /\
             jumpdest_mask m = [false; false; false]).
Proof.
  split; [reflexivity |].
  split; eexists; (split; [vm_compute; reflexivity | split; reflexivity]).
Qed.

(** The state in which the search on [JUMPDEST; PUSH2 0xffff; JUMP; STOP]
    is caught: offset 0 marked, no hit, the [JUMPDEST] still unexplained. *)
Lemma search_body_fixed_point :
  let st := {| starting_points_mask := [true; false; false; false; false; false];
               total_hits := 0;
               hit_ratio := Np.Finite (0 # 1);
               jumpdest_indices := [0%Z] |} in
  search_body [91; 97; 255; 255; 86; 0]%Z [65535%Z] 1
    {| starting_points_mask := [false; false; false; false; false; false];
       total_hits := 0;
       hit_ratio := Np.Finite 0;
       jumpdest_indices := [0%Z] |} = Ok st /\
  search_body [91; 97; 255; 255; 86; 0]%Z [65535%Z] 1 st = Ok st.
Proof. split; reflexivity. Qed.

(** C5.  [search_contract_starts] does not terminate on
    [JUMPDEST; PUSH2 0xffff; JUMP; STOP] for any positive threshold: no
    offset explains the [JUMPDEST], the hit ratio stays 0, the index list is
    never shorter than 0, and the loop repeats one state; no amount of fuel
    suffices.  [analyze] hangs on this bytecode with it. *)
Theorem search_contract_starts_diverges :
  (forall stop_threshold fuel,
     (0 < stop_threshold)%Q ->
     search_contract_starts fuel [91; 97; 255; 255; 86; 0]%Z
       [false; false; true; true; false; false]
       [true; false; false; false; false; false] stop_threshold = OutOfFuel) /\
  (forall fuel, analyze evm fuel [91; 97; 255; 255; 86; 0]%Z = OutOfFuel).
Proof.
  assert (D : forall stop_threshold fuel,
     (0 < stop_threshold)%Q ->
     search_contract_starts fuel [91; 97; 255; 255; 86; 0]%Z
       [false; false; true; true; false; false]
       [true; false; false; false; false; false] stop_threshold = OutOfFuel).
  { intros stop_threshold fuel Hpos.
    assert (C : forall q, (q == 0)%Q -> Np.lt (Np.Finite q) stop_threshold = true).
    { intros q Hq. unfold Np.lt. apply negb_true_iff.
      destruct (Qle_bool stop_threshold q) eqn:E; [| reflexivity].
      apply Qle_bool_iff in E. rewrite Hq in E.
      exfalso. exact (Qlt_not_le _ _ Hpos E). }
    destruct search_body_fixed_point as [B0 B1]. cbv zeta in B0, B1.
    set (st := {| starting_points_mask := [true; false; false; false; false; false];
                  total_hits := 0;
                  hit_ratio := Np.Finite (0 # 1);
                  jumpdest_indices := [0%Z] |}) in *.
    assert (L : forall n,
               search_loop n [91; 97; 255; 255; 86; 0]%Z [65535%Z] 1
                 stop_threshold st = OutOfFuel).
    { induction n as [| n IH]; cbn [search_loop]; unfold search_condition;
        cbn [hit_ratio jumpdest_indices st]; rewrite C by reflexivity;
        cbn [andb length Nat.leb]; [reflexivity |].
      rewrite B1. cbn [bind]. exact IH. }
    unfold search_contract_starts.
    change (_get_push_data [91; 97; 255; 255; 86; 0]%Z
              [false; false; true; true; false; false])
      with (Ok {| Np.dtype_of := Np.int64; Np.tolist := [65535%Z] |}).
    cbn [bind Np.tolist].
    change (map Z.of_nat (Np.argwhere [true; false; false; false; false; false]))
      with [0%Z].
    cbn [length repeat].
    destruct fuel as [| fuel]; cbn [search_loop]; unfold search_condition;
      cbn [hit_ratio jumpdest_indices]; rewrite C by reflexivity;
      cbn [andb length Nat.leb]; [reflexivity |].
    rewrite B0. cbn [bind]. rewrite L. reflexivity. }
  split; [exact D |].
  intros fuel. unfold analyze. do 4 run_head.
  cbn [push_data_mask jumpdest_mask]. rewrite D by reflexivity. reflexivity.
Qed.

Lemma search_contract_starts_diverges_witness :
  (0 < 98 # 100)%Q /\
  search_contract_starts 1000 [91; 97; 255; 255; 86; 0]%Z
    [false; false; true; true; false; false]
    [true; false; false; false; false; false] (98 # 100) = OutOfFuel.
Proof.
  assert (H : (0 < 98 # 100)%Q) by reflexivity.
  split; [exact H |].
  exact (proj1 search_contract_starts_diverges (98 # 100) 1000 H).
Defined.

(** C6.  On [PUSH1 0x00; JUMP], which has no [JUMPDEST],
    [search_contract_starts] marks offset 0 as a contract entrance: the
    first round runs, and the hit ratio 0/0 then ends the loop.  The report
    of [analyze] counts contract addresses from that entrance. *)
Theorem search_contract_starts_no_jumpdest :
  (forall fuel,
     search_contract_starts (S fuel) [96; 0; 86]%Z [false; true; false]
       [false; false; false] (98 # 100) = Ok [true; false; false]) /\
  (forall fuel,
     analyze evm (S fuel) [96; 0; 86]%Z
     = Ok ([true; true; true],
           [Header;
            Line 0 (Some 0) (Mnemonic "PUSH1") true 0 no_finding;
            Line 1 (Some 1) (Hex 0) true 0 no_finding;
            Line 2 (Some 2) (Mnemonic "JUMP") true 0 no_finding])).
Proof.
  split; intros fuel; destruct fuel; vm_compute; reflexivity.
Qed.

End Claims.

(** * Further properties of the code *)

(** ** The compound subsets are the maximal runs *)

Section Runs.

Lemma split_runs_concat (l : list nat) : concat (split_runs l) = l.
Proof.
  induction l as [| x l IH]; [reflexivity |].
  destruct l as [| y l]; [reflexivity |].
  rewrite split_runs_cons2.
  destruct (split_runs_nonempty y l) as [r [rs E]]. rewrite E in *.
  destruct (1 <? Z.of_nat y - Z.of_nat x)%Z; cbn [concat app] in *;
    rewrite IH; reflexivity.
Qed.

Lemma split_runs_incl (l r : list nat) : In r (split_runs l) -> incl r l.
Proof.
  intros H x Hx. rewrite <- (split_runs_concat l). apply in_concat.
  exists r. split; assumption.
Qed.

Lemma sorted_nodup (l : list nat) : StronglySorted lt l -> NoDup l.
Proof.
  induction 1 as [| x l Hs IH Hx]; constructor; [| exact IH].
  intros Hin. rewrite Forall_forall in Hx. specialize (Hx x Hin). lia.
Qed.

Lemma seq_singleton (a k x : nat) : seq a (S k) = [x] -> a = x /\ k = 0.
Proof.
  cbn [seq]. intros H. injection H as Ha Hk. split; [exact Ha |].
  destruct k; [reflexivity | discriminate Hk].
Qed.

(** In a strictly increasing list, a run ends where the next number is
    missing and starts where the previous one is. *)
Lemma split_runs_maximal (l : list nat) :
  StronglySorted lt l ->
  forall a k,
    In (seq a (S k)) (split_runs l) ->
    ~ In (a + S k) l /\ (forall x, S x = a -> ~ In x l).
Proof.
  induction l as [| x rest IH]; intros Hs a k Hin; [destruct Hin |].
  inversion Hs as [| ? ? Hrest Hx]; subst. rewrite Forall_forall in Hx.
  destruct rest as [| y l].
  - destruct Hin as [E | []]. symmetry in E.
    apply seq_singleton in E as [-> ->]. split.
    + intros [H | []]. lia.
    + intros x0 Hx0 [H | []]. lia.
  - assert (Hxy : x < y) by (apply Hx; left; reflexivity).
    assert (Hy : forall z, In z (y :: l) -> y <= z).
    { inversion Hrest as [| ? ? _ Hyl]; subst. rewrite Forall_forall in Hyl.
      intros z [-> | Hz]; [lia |]. specialize (Hyl z Hz). lia. }
    specialize (IH Hrest).
    pose proof (split_runs_incl (y :: l)) as Hincl.
    pose proof (split_runs_concat (y :: l)) as Hcat.
    rewrite split_runs_cons2 in Hin.
    destruct (split_runs_nonempty y l) as [r0 [rs E]]. rewrite E in *.
    destruct (1 <? Z.of_nat y - Z.of_nat x)%Z eqn:G.
    + apply Z.ltb_lt in G. destruct Hin as [E1 | Hin].
      * symmetry in E1. apply seq_singleton in E1 as [-> ->]. split.
        -- intros [H | H]; [lia |]. specialize (Hy _ H). lia.
        -- intros x0 Hx0 [H | H]; [lia |]. specialize (Hy _ H). lia.
      * destruct (IH a k Hin) as [Hafter Hbefore].
        assert (Ha : In a (y :: l)).
        { apply (Hincl _ Hin). left. reflexivity. }
        specialize (Hy _ Ha). split.
        -- intros [H | H]; [lia | exact (Hafter H)].
        -- intros x0 Hx0 [H | H]; [lia | exact (Hbefore x0 Hx0 H)].
    + apply Z.ltb_ge in G. assert (y = S x) by lia. subst y.
      destruct Hin as [E1 | Hin].
      * cbn [seq] in E1. injection E1 as Ha E1. subst a.
        destruct k as [| k]; [discriminate E1 |].
        destruct (IH (S x) k) as [Hafter _].
        { left. exact E1. }
        split.
        -- replace (x + S (S k)) with (S x + S k) by lia.
           intros [H | H]; [lia | exact (Hafter H)].
        -- intros x0 Hx0 [H | H]; [lia |]. specialize (Hy _ H). lia.
      * destruct (IH a k (or_intror Hin)) as [Hafter Hbefore].
        assert (Ha : In a (S x :: l)).
        { apply (Hincl _ (or_intror Hin)). left. reflexivity. }
        specialize (Hy _ Ha). split.
        -- intros [H | H]; [lia | exact (Hafter H)].
        -- intros x0 Hx0 [H | H]; [| exact (Hbefore x0 Hx0 H)].
           subst x0. subst a.
           pose proof (sorted_nodup _ Hrest) as Hnd.
           rewrite <- Hcat in Hnd. cbn [concat app] in Hnd.
           inversion Hnd as [| ? ? Hnotin _]; subst. apply Hnotin.
           apply in_or_app. right. apply in_concat.
           exists (seq (S x) (S k)). split; [exact Hin | left; reflexivity].
Qed.

Lemma index_subset_element_In (mask : list bool) (indicator : bool) (i : nat) :
  In i (index_subset_element mask indicator)
  <-> i < length mask /\ nth i mask false = indicator.
Proof.
  unfold index_subset_element. rewrite filter_In, in_seq.
  rewrite Bool.eqb_true_iff. intuition lia.
Qed.

Lemma index_subset_element_true (mask : list bool) (i : nat) :
  In i (index_subset_element mask true) <-> nth i mask false = true.
Proof.
  rewrite index_subset_element_In. split; [tauto |]. intros H. split; [| exact H].
  destruct (Nat.lt_ge_cases i (length mask)) as [L | G]; [exact L |].
  rewrite nth_overflow in H by exact G. discriminate.
Qed.

Lemma subset_is_maximal_run (mask : list bool) (r : list nat) :
  index_subset_element mask true <> [] ->
  In r (get_compound_subsets mask true) ->
  exists a b, maximal_run mask a b /\ r = seq a (S (b - a)).
Proof.
  intros Hne Hin.
  pose proof (subsets_contiguous mask Hne) as Hc.
  rewrite Forall_forall in Hc. destruct (Hc r Hin) as [a [k ->]].
  rewrite get_compound_subsets_split in Hin by exact Hne.
  assert (Hs : StronglySorted lt (index_subset_element mask true))
    by (unfold index_subset_element; apply filter_seq_sorted).
  destruct (split_runs_maximal _ Hs a k Hin) as [Hafter Hbefore].
  pose proof (split_runs_incl _ _ Hin) as Hincl.
  exists a, (a + k). split.
  - split; [lia |]. split; [| split].
    + intros i H1 H2. apply index_subset_element_true. apply Hincl.
      apply in_seq. lia.
    + intros i Hi. destruct (nth i mask false) eqn:E; [| reflexivity].
      exfalso. apply (Hbefore i Hi). apply index_subset_element_true. exact E.
    + destruct (nth (S (a + k)) mask false) eqn:E; [| reflexivity].
      exfalso. apply Hafter. replace (a + S k) with (S (a + k)) by lia.
      apply index_subset_element_true. exact E.
  - f_equal. lia.
Qed.

Lemma get_compound_subsets_flat (mask : list bool) (indicator : bool) :
  concat (get_compound_subsets mask indicator)
  = index_subset_element mask indicator.
Proof.
  destruct (index_subset_element mask indicator) as [| x l] eqn:E.
  - unfold get_compound_subsets. rewrite E. reflexivity.
  - rewrite get_compound_subsets_split by (rewrite E; discriminate).
    rewrite split_runs_concat. exact E.
Qed.

End Runs.

(** X1.  Flattened, the compound subsets are the positions whose entry
    equals the indicator, each once and in increasing order: no position
    is lost or repeated by the grouping. *)
Theorem get_compound_subsets_partition (mask : list bool) (indicator : bool) :
  concat (get_compound_subsets mask indicator)
  = filter (fun i => Bool.eqb (nth i mask false) indicator) (seq 0 (length mask)).
Proof. exact (get_compound_subsets_flat mask indicator). Qed.

(** X2.  For a mask with a true entry, the compound subsets are exactly
    the maximal runs of true positions, each listed as its positions in
    increasing order. *)
Theorem get_compound_subsets_maximal_runs (mask : list bool) (r : list nat) :
  (exists i, nth i mask false = true) ->
  (In r (get_compound_subsets mask true)
   <-> exists a b, maximal_run mask a b /\ r = seq a (S (b - a))).
Proof.
  intros [i Hi].
  assert (Hne : index_subset_element mask true <> []).
  { apply index_subset_element_true in Hi. intros E. rewrite E in Hi.
    destruct Hi. }
  split.
  - apply subset_is_maximal_run. exact Hne.
  - intros [a [b [Hrun ->]]]. apply maximal_run_in_subsets. exact Hrun.
Qed.

Lemma get_compound_subsets_maximal_runs_witness :
  (exists i, nth i [false; true; true; false; true] false = true) /\
  (In [1; 2] (get_compound_subsets [false; true; true; false; true] true)
   <-> exists a b,
         maximal_run [false; true; true; false; true] a b /\
         [1; 2] = seq a (S (b - a))).
Proof.
  assert (H : exists i, nth i [false; true; true; false; true] false = true)
    by (exists 1; reflexivity).
  split; [exact H |].
  exact (get_compound_subsets_maximal_runs [false; true; true; false; true]
           [1; 2] H).
Defined.

(** ** Segment numbering: boundaries and bounds *)

Section SegmentBoundaries.

Lemma numbering_walk_first (start end_ : list bool) (c : nat) :
  length start = length end_ -> 0 < length start ->
  nth 0 (numbering_walk c start end_) 0
  = c + (if nth 0 start false then 1 else 0).
Proof.
  destruct start as [| s start], end_ as [| e end_]; cbn [length];
    try discriminate; try lia.
  intros _ _. cbn [numbering_walk]. destruct s; [| destruct e]; cbn [nth]; lia.
Qed.

Lemma numbering_walk_step (start : list bool) :
  forall end_ c i,
    length start = length end_ -> S i < length start ->
    nth (S i) (numbering_walk c start end_) 0
    = nth i (numbering_walk c start end_) 0
      + (if nth (S i) start false then 1 else 0)
      + (if negb (nth i start false) && nth i end_ false then 1 else 0).
Proof.
  induction start as [| s0 start IH]; intros end_ c i Hl Hi;
    [cbn in Hi; lia |].
  destruct end_ as [| e0 end_]; [discriminate |]. injection Hl as Hl.
  cbn [length] in Hi.
  destruct i as [| i].
  - destruct start as [| s1 start]; [cbn in Hi; lia |].
    destruct end_ as [| e1 end_]; [discriminate |].
    cbn [numbering_walk].
    destruct s0, e0, s1, e1; cbn [numbering_walk nth negb andb]; lia.
  - assert (Hi' : S i < length start) by lia.
    specialize (IH end_).
    cbn [numbering_walk]. destruct s0; [| destruct e0]; cbn [nth];
      rewrite IH by assumption; reflexivity.
Qed.

(** The loop of [segment_list] on masks of any lengths. *)
Lemma segment_list_loop_returns (start end_ : list bool) (n : nat) :
  forall k segments c,
    (forall i, k <= i -> i < k + n ->
               i < length start /\
               (nth i start false = false -> i < length end_)) ->
    exists segments' c',
      for_each (seq k n) (segment_list_step start end_) (segments, c)
      = Ok (segments ++ segments', c') /\
      length segments' = n.
Proof.
  induction n as [| n IH]; intros k segments c H.
  - exists [], c. cbn. now rewrite app_nil_r.
  - destruct (H k (le_n k) ltac:(lia)) as [Hk He].
    assert (Hrest : forall i, S k <= i -> i < S k + n ->
                      i < length start /\
                      (nth i start false = false -> i < length end_))
      by (intros i H1 H2; apply H; lia).
    cbn [seq for_each]. unfold segment_list_step at 1. unfold getitem.
    destruct (nth_error start k) as [s |] eqn:Es;
      [| apply nth_error_None in Es; lia].
    pose proof (nth_error_nth _ _ false Es) as Hs.
    cbn [bind]. destruct s.
    + cbn [bind].
      destruct (IH (S k) (segments ++ [c + 1]) (c + 1) Hrest)
        as [segments' [c' [E L]]].
      exists ((c + 1) :: segments'), c'. rewrite E, <- app_assoc.
      split; [reflexivity | cbn; lia].
    + specialize (He Hs).
      destruct (nth_error end_ k) as [e |] eqn:Ee;
        [| apply nth_error_None in Ee; lia].
      cbn [bind]. destruct e; cbn [bind].
      * destruct (IH (S k) (segments ++ [c]) (c + 1) Hrest)
          as [segments' [c' [E L]]].
        exists (c :: segments'), c'. rewrite E, <- app_assoc.
        split; [reflexivity | cbn; lia].
      * destruct (IH (S k) (segments ++ [c]) c Hrest)
          as [segments' [c' [E L]]].
        exists (c :: segments'), c'. rewrite E, <- app_assoc.
        split; [reflexivity | cbn; lia].
Qed.

Lemma segment_list_loop_raises (start end_ : list bool) (n : nat) :
  forall k segments c,
    k + n <= length start ->
    (exists i, k <= i /\ i < k + n /\
               nth i start false = false /\ length end_ <= i) ->
    for_each (seq k n) (segment_list_step start end_) (segments, c)
    = Raise IndexError.
Proof.
  induction n as [| n IH]; intros k segments c Hn [i [H1 [H2 [Hs He]]]];
    [lia |].
  cbn [seq for_each]. unfold segment_list_step at 1. unfold getitem.
  destruct (nth_error start k) as [s |] eqn:Es;
    [| apply nth_error_None in Es; lia].
  pose proof (nth_error_nth _ _ false Es) as Hsk.
  assert (Hnext : i <> k ->
            exists j, S k <= j /\ j < S k + n /\
                      nth j start false = false /\ length end_ <= j).
  { intros Hik. exists i. repeat split; try assumption; lia. }
  cbn [bind]. destruct s.
  - cbn [bind]. apply IH; [lia |]. apply Hnext. intros ->. congruence.
  - destruct (nth_error end_ k) as [e |] eqn:Ee.
    + assert (Hk : k < length end_)
        by (apply nth_error_Some; rewrite Ee; discriminate).
      cbn [bind]. destruct e; cbn [bind]; (apply IH; [lia |]);
        apply Hnext; lia.
    + reflexivity.
Qed.

End SegmentBoundaries.

(** X3.  On masks of one length [segment_list] returns one id per position;
    the first id is 1 under a start flag and 0 otherwise, and from one
    position to the next the id grows by one for a start flag at the next
    position and by one for an end flag (without start flag) at the current
    one: ids change exactly there. *)
Theorem segment_list_boundaries (start end_ : list bool) :
  length start = length end_ ->
  exists out,
    segment_list start end_ = Ok out /\
    length out = length start /\
    (0 < length start -> nth 0 out 0 = if nth 0 start false then 1 else 0) /\
    forall i,
      S i < length start ->
      nth (S i) out 0
      = nth i out 0
        + (if nth (S i) start false then 1 else 0)
        + (if negb (nth i start false) && nth i end_ false then 1 else 0).
Proof.
  intros H. exists (numbering_walk 0 start end_).
  split; [exact (segment_list_walk start end_ H) |].
  split; [exact (length_numbering_walk start end_ 0 H) |].
  split.
  - intros Hpos. rewrite (numbering_walk_first start end_ 0 H Hpos). reflexivity.
  - intros i Hi. exact (numbering_walk_step start end_ 0 i H Hi).
Qed.

Lemma segment_list_boundaries_witness :
  length [false; true; false; true] = length [true; false; true; false] /\
  exists out,
    segment_list [false; true; false; true] [true; false; true; false] = Ok out /\
    length out = length [false; true; false; true] /\
    (0 < length [false; true; false; true] ->
     nth 0 out 0 = if nth 0 [false; true; false; true] false then 1 else 0) /\
    forall i,
      S i < length [false; true; false; true] ->
      nth (S i) out 0
      = nth i out 0
        + (if nth (S i) [false; true; false; true] false then 1 else 0)
        + (if negb (nth i [false; true; false; true] false)
              && nth i [true; false; true; false] false then 1 else 0).
Proof.
  split; [reflexivity |].
  exact (segment_list_boundaries [false; true; false; true]
           [true; false; true; false] eq_refl).
Defined.

(** X4.  [segment_list] reads the end mask only at positions without a
    start flag: it returns one id per position when the end mask reaches
    every such position, and raises [IndexError] when some position
    without a start flag lies beyond the end mask. *)
Theorem segment_list_end_mask_bounds (start end_ : list bool) :
  ((forall i, i < length start -> nth i start false = false -> i < length end_) ->
   exists out, segment_list start end_ = Ok out /\ length out = length start) /\
  ((exists i, i < length start /\ nth i start false = false /\ length end_ <= i) ->
   segment_list start end_ = Raise IndexError).
Proof.
  split.
  - intros H.
    destruct (segment_list_loop_returns start end_ (length start) 0 [] 0)
      as [segments' [c' [E L]]].
    { intros i _ Hi. split; [lia |]. intros Hs. apply H; [lia | exact Hs]. }
    unfold segment_list. rewrite E. cbn. eauto.
  - intros [i [Hi [Hs He]]]. unfold segment_list.
    rewrite (segment_list_loop_raises start end_ (length start) 0 [] 0);
      [reflexivity | lia |].
    exists i. repeat split; try assumption; lia.
Qed.

Lemma segment_list_end_mask_bounds_witness :
  ((forall i, i < length [false; true; true] ->
              nth i [false; true; true] false = false -> i < length [true]) /\
   exists out,
     segment_list [false; true; true] [true] = Ok out /\
     length out = length [false; true; true]) /\
  ((exists i, i < length [true; false] /\
              nth i [true; false] false = false /\ length [true] <= i) /\
   segment_list [true; false] [true] = Raise IndexError).
Proof.
  split.
  - assert (H : forall i, i < length [false; true; true] ->
                  nth i [false; true; true] false = false -> i < length [true]).
    { intros [| [| [| i]]] Hi Hs; cbn in *; try discriminate; lia. }
    split; [exact H |].
    exact (proj1 (segment_list_end_mask_bounds [false; true; true] [true]) H).
  - assert (H : exists i, i < length [true; false] /\
                  nth i [true; false] false = false /\ length [true] <= i).
    { exists 1. cbn. repeat split; lia. }
    split; [exact H |].
    exact (proj2 (segment_list_end_mask_bounds [true; false] [true]) H).
Defined.

(** ** Folded values: range and width *)

Section FoldedValues.

Open Scope Z_scope.

Lemma big_endian_sum_range (s : list Z) :
  Forall is_byte s -> 0 <= big_endian_sum s < 256 ^ Z.of_nat (length s).
Proof.
  induction 1 as [| b s [L U] F IH].
  - unfold big_endian_sum. cbn. lia.
  - rewrite big_endian_sum_cons. cbn [length].
    rewrite Nat2Z.inj_succ, Z.pow_succ_r by lia.
    assert (0 < 256 ^ Z.of_nat (length s)) by (apply Z.pow_pos_nonneg; lia).
    nia.
Qed.

Lemma big_endian_sum_injective (s1 : list Z) :
  forall s2,
    Forall is_byte s1 -> Forall is_byte s2 -> length s1 = length s2 ->
    big_endian_sum s1 = big_endian_sum s2 -> s1 = s2.
Proof.
  induction s1 as [| b1 s1 IH]; intros [| b2 s2] F1 F2 Hl E;
    try discriminate; [reflexivity |].
  injection Hl as Hl.
  inversion F1 as [| ? ? [L1 U1] F1']; subst.
  inversion F2 as [| ? ? [L2 U2] F2']; subst.
  rewrite !big_endian_sum_cons, Hl in E.
  pose proof (big_endian_sum_range s1 F1') as R1.
  pose proof (big_endian_sum_range s2 F2') as R2.
  rewrite Hl in R1.
  assert (b1 = b2) by nia. subst b2.
  f_equal. apply IH; try assumption. lia.
Qed.

End FoldedValues.

(** X5.  The value folded from [n] bytes lies in [0, 256^n). *)
Theorem compound_bytes_to_integer_range (s : list Z) :
  s <> [] -> Forall is_byte s ->
  exists v,
    compound_bytes_to_integer s = Ok v /\
    (0 <= v < 256 ^ Z.of_nat (length s))%Z.
Proof.
  intros N F. exists (big_endian_sum s).
  split; [exact (compound_bytes_sum s N F) | exact (big_endian_sum_range s F)].
Qed.

Lemma compound_bytes_to_integer_range_witness :
  [255; 255]%Z <> [] /\ Forall is_byte [255; 255]%Z /\
  exists v,
    compound_bytes_to_integer [255; 255]%Z = Ok v /\
    (0 <= v < 256 ^ Z.of_nat (length [255; 255]%Z))%Z.
Proof.
  assert (N : [255; 255]%Z <> []) by discriminate.
  assert (F : Forall is_byte [255; 255]%Z)
    by (repeat constructor; unfold is_byte; lia).
  split; [exact N |]. split; [exact F |].
  exact (compound_bytes_to_integer_range [255; 255]%Z N F).
Defined.

(** X6.  On byte lists of one length the folding loses nothing: two lists
    with the same folded value are equal. *)
Theorem compound_bytes_to_integer_injective (s1 s2 : list Z) :
  s1 <> [] -> Forall is_byte s1 -> Forall is_byte s2 ->
  length s1 = length s2 ->
  compound_bytes_to_integer s1 = compound_bytes_to_integer s2 ->
  s1 = s2.
Proof.
  intros N1 F1 F2 Hl E.
  assert (N2 : s2 <> []) by (destruct s1, s2; try discriminate; congruence).
  rewrite (compound_bytes_sum s1 N1 F1), (compound_bytes_sum s2 N2 F2) in E.
  injection E as E. exact (big_endian_sum_injective s1 s2 F1 F2 Hl E).
Qed.

Lemma compound_bytes_to_integer_injective_witness :
  [1; 2]%Z <> [] /\ Forall is_byte [1; 2]%Z /\ Forall is_byte [1; 2]%Z /\
  length [1; 2]%Z = length [1; 2]%Z /\
  compound_bytes_to_integer [1; 2]%Z = compound_bytes_to_integer [1; 2]%Z /\
  [1; 2]%Z = [1; 2]%Z.
Proof.
  assert (N : [1; 2]%Z <> []) by discriminate.
  assert (F : Forall is_byte [1; 2]%Z)
    by (repeat constructor; unfold is_byte; lia).
  repeat (split; [first [exact N | exact F | reflexivity] |]).
  exact (compound_bytes_to_integer_injective [1; 2]%Z [1; 2]%Z N F F
           eq_refl eq_refl).
Defined.

(** X7.  A leading zero byte does not show in the folded value: push
    operands of different widths can fold to one value. *)
Theorem compound_bytes_to_integer_leading_zero (s : list Z) :
  s <> [] -> Forall is_byte s ->
  compound_bytes_to_integer (0%Z :: s) = compound_bytes_to_integer s.
Proof.
  intros N F.
  assert (F0 : Forall is_byte (0%Z :: s))
    by (constructor; [unfold is_byte; lia | exact F]).
  rewrite (compound_bytes_sum s N F).
  rewrite (compound_bytes_sum (0%Z :: s) ltac:(discriminate) F0).
  rewrite big_endian_sum_cons. f_equal.
Qed.

Lemma compound_bytes_to_integer_leading_zero_witness :
  [5]%Z <> [] /\ Forall is_byte [5]%Z /\
  compound_bytes_to_integer [0; 5]%Z = compound_bytes_to_integer [5]%Z.
Proof.
  assert (N : [5]%Z <> []) by discriminate.
  assert (F : Forall is_byte [5]%Z)
    by (repeat constructor; unfold is_byte; lia).
  split; [exact N |]. split; [exact F |].
  exact (compound_bytes_to_integer_leading_zero [5]%Z N F).
Defined.

(** ** The push-data tagger *)

Ltac nat_cases :=
  repeat match goal with
         | |- context [?a <=? ?b] => destruct (Nat.leb_spec a b)
         | |- context [?a <? ?b] => destruct (Nat.ltb_spec a b)
         | |- context [?a =? ?b] => destruct (Nat.eqb_spec a b)
         end;
  cbn [andb orb negb]; try reflexivity; try lia.

Section PushTagger.

Import Opcodes Tagger.

Lemma setitem_spec {A : Type} (l : list A) (v d : A) :
  forall i,
    i < length l ->
    exists l',
      setitem l i v = Ok l' /\
      length l' = length l /\
      forall p, nth p l' d = if p =? i then v else nth p l d.
Proof.
  induction l as [| x l IH]; intros i Hi; [cbn in Hi; lia |].
  destruct i as [| i].
  - exists (v :: l). split; [reflexivity |]. split; [reflexivity |].
    intros [| p]; reflexivity.
  - destruct (IH i ltac:(cbn in Hi; lia)) as [l' [E [L N]]].
    exists (x :: l'). cbn [setitem]. rewrite E. cbn [bind].
    split; [reflexivity |]. split; [cbn; lia |].
    intros [| p]; [reflexivity |]. cbn [nth]. rewrite N. reflexivity.
Qed.

Lemma setitem_out_of_range {A : Type} (l : list A) (v : A) :
  forall i, length l <= i -> setitem l i v = Raise IndexError.
Proof.
  induction l as [| x l IH]; intros i Hi; [destruct i; reflexivity |].
  destruct i as [| i]; [cbn in Hi; lia |].
  cbn [setitem]. rewrite IH by (cbn in Hi; lia). reflexivity.
Qed.

(** The inner loop tags the operand window, cut at the end of the code. *)
Lemma tag_operands_spec (len k : nat) :
  forall a tags,
    length tags = len ->
    exists tags',
      tag_operands len (seq a k) tags = Ok tags' /\
      length tags' = len /\
      forall p,
        nth p tags' false
        = ((a <=? p) && (p <? a + k) && (p <? len)) || nth p tags false.
Proof.
  induction k as [| k IH]; intros a tags L.
  - exists tags. split; [reflexivity |]. split; [exact L |].
    intros p. nat_cases.
  - cbn [seq tag_operands]. destruct (Nat.leb_spec len a) as [G | G].
    + exists tags. split; [reflexivity |]. split; [exact L |].
      intros p. nat_cases.
    + destruct (setitem_spec tags true false a ltac:(lia)) as [tags1 [E [L1 N1]]].
      rewrite E. cbn [bind].
      destruct (IH (S a) tags1 ltac:(lia)) as [tags' [E' [L' N']]].
      exists tags'. split; [exact E' |]. split; [exact L' |].
      intros p. rewrite N', N1. nat_cases.
Qed.

(** What the loop of [tag_push_data] delivers from a scan state. *)
Lemma tag_push_data_loop_spec (t : Table) (machine_code : list Z)
  (push1 push32 : Z) (fuel : nat) :
  forall i tags,
    length machine_code - i <= fuel ->
    push_scan machine_code push1 push32 i tags ->
    match tag_push_data_loop fuel t machine_code push1 push32 i tags with
    | Ok mask =>
        exists i', length machine_code <= i' /\
                   push_scan machine_code push1 push32 i' mask
    | Raise e =>
        e = KeyError /\
        exists j, j < length machine_code /\
                  is_push push1 push32 (nth j machine_code 0%Z) = true /\
                  BYTECODES t (nth j machine_code 0%Z) = None
    | OutOfFuel => False
    end.
Proof.
  induction fuel as [| fuel IH]; intros i tags Hf Hscan;
    cbn [tag_push_data_loop];
    destruct (Nat.ltb_spec i (length machine_code)) as [Hi | Hi];
    try (exists i; split; [lia | exact Hscan]); [lia |].
  unfold getitem.
  destruct (nth_error machine_code i) as [instruction |] eqn:Ei;
    [| apply nth_error_None in Ei; lia].
  pose proof (nth_error_nth _ _ 0%Z Ei) as Hnth. cbn [bind].
  destruct Hscan as [L [A [B C]]].
  change ((push1 <=? instruction)%Z && (instruction <=? push32)%Z)
    with (is_push push1 push32 instruction).
  destruct (is_push push1 push32 instruction) eqn:Hp.
  - unfold bytecode_name.
    destruct (BYTECODES t instruction) as [name |] eqn:Eb; cbn [bind].
    2:{ split; [reflexivity |]. exists i. rewrite Hnth. auto. }
    change (Z.to_nat (instruction - push1 + 1)) with (operands push1 instruction).
    set (k := operands push1 instruction).
    destruct (tag_operands_spec (length machine_code) k (i + 1) tags L)
      as [tags' [E [L' N']]].
    rewrite E. cbn [bind]. apply IH; [lia |].
    split; [exact L' |]. split; [| split].
    + intros p Hp'. rewrite N', (A p) by lia. nat_cases.
    + intros p Hp'. rewrite N' in Hp'. apply orb_true_iff in Hp' as [W | O].
      * exists i. rewrite N', (A i) by lia. rewrite Hnth. fold k.
        apply andb_true_iff in W as [W W3]. apply andb_true_iff in W as [W1 W2].
        apply Nat.leb_le in W1. apply Nat.ltb_lt in W2.
        repeat split; try assumption; try lia. nat_cases.
      * destruct (B p O) as [j [H1 [H2 [H3 [H4 H5]]]]].
        exists j. rewrite N', H2.
        repeat split; try assumption; try lia. nat_cases.
    + intros j Hj Hjf Hjp p Hp1 Hp2 Hp3. rewrite N' in Hjf |- *.
      apply orb_false_iff in Hjf as [W O].
      destruct (Nat.lt_trichotomy j i) as [Hlt | [Heq | Hgt]].
      * rewrite (C j Hlt O Hjp p Hp1 Hp2 Hp3). apply orb_true_r.
      * subst j. rewrite Hnth in Hp2. fold k in Hp2.
        apply orb_true_iff. left. nat_cases.
      * exfalso. revert W. fold k in Hj.
        destruct (Nat.ltb_spec j (length machine_code)); [| lia]. nat_cases.
  - apply IH; [lia |]. split; [exact L |]. split; [| split].
    + intros p Hp'. apply A. lia.
    + intros p Hp'. destruct (B p Hp') as [j [H1 [H2 [H3 [H4 H5]]]]].
      exists j. repeat split; try assumption; lia.
    + intros j Hj Hjf Hjp p Hp1 Hp2 Hp3.
      destruct (Nat.eq_dec j i) as [-> | Hne].
      * rewrite Hnth in Hjp. congruence.
      * apply (C j); try assumption; lia.
Qed.

Lemma push_scan_start (machine_code : list Z) (push1 push32 : Z) :
  push_scan machine_code push1 push32 0 (repeat false (length machine_code)).
Proof.
  assert (F : forall p, nth p (repeat false (length machine_code)) false = false).
  { intros p. destruct (Nat.lt_ge_cases p (length machine_code)).
    - apply nth_repeat_lt. assumption.
    - apply nth_overflow. rewrite repeat_length. assumption. }
  split; [apply repeat_length |]. split; [intros; apply F |]. split.
  - intros p Hp. rewrite F in Hp. discriminate.
  - intros j Hj. lia.
Qed.

Lemma push_scan_end (machine_code : list Z) (push1 push32 : Z) (i : nat)
  (mask : list bool) :
  length machine_code <= i ->
  push_scan machine_code push1 push32 i mask ->
  length mask = length machine_code /\
  forall p,
    p < length machine_code ->
    (nth p mask false = true
     <-> push_operand machine_code push1 push32 mask p).
Proof.
  intros Hi [L [A [B C]]]. split; [exact L |]. intros p Hp. split.
  - intros H. destruct (B p H) as [j [H1 [H2 [H3 [H4 _]]]]].
    exists j. auto.
  - intros [j [H1 [H2 [H3 H4]]]]. apply (C j); try assumption; lia.
Qed.

End PushTagger.

Section TaggerOutcomes.

Import Opcodes Tagger.

Lemma tag_push_data_spec (t : Table) (machine_code : list Z) (mask : list bool) :
  tag_push_data t machine_code = Ok mask ->
  exists push1 push32,
    OPCODES t "PUSH1" = Some push1 /\
    OPCODES t "PUSH32" = Some push32 /\
    length mask = length machine_code /\
    forall p,
      p < length machine_code ->
      (nth p mask false = true
       <-> push_operand machine_code push1 push32 mask p).
Proof.
  unfold tag_push_data, opcode_by_name, opcode_code. intros H.
  destruct (OPCODES t "PUSH1") as [push1 |]; [| discriminate H].
  destruct (OPCODES t "PUSH32") as [push32 |]; [| discriminate H].
  cbn [bind] in H.
  pose proof (tag_push_data_loop_spec t machine_code push1 push32
                (length machine_code) 0 _ ltac:(lia)
                (push_scan_start machine_code push1 push32)) as S.
  rewrite H in S. destruct S as [i' [Hi' Hscan]].
  exists push1, push32. split; [reflexivity |]. split; [reflexivity |].
  exact (push_scan_end machine_code push1 push32 i' mask Hi' Hscan).
Qed.

Lemma tag_push_data_raises (t : Table) (machine_code : list Z) (e : exn) :
  tag_push_data t machine_code = Raise e ->
  e = KeyError /\
  (OPCODES t "PUSH1" = None \/ OPCODES t "PUSH32" = None \/
   exists push1 push32 b,
     OPCODES t "PUSH1" = Some push1 /\ OPCODES t "PUSH32" = Some push32 /\
     In b machine_code /\ is_push push1 push32 b = true /\
     BYTECODES t b = None).
Proof.
  unfold tag_push_data, opcode_by_name, opcode_code. intros H.
  destruct (OPCODES t "PUSH1") as [push1 |];
    [| injection H as <-; auto].
  destruct (OPCODES t "PUSH32") as [push32 |];
    [| injection H as <-; auto].
  cbn [bind] in H.
  pose proof (tag_push_data_loop_spec t machine_code push1 push32
                (length machine_code) 0 _ ltac:(lia)
                (push_scan_start machine_code push1 push32)) as S.
  rewrite H in S. destruct S as [-> [j [Hj [Hp Hb]]]].
  split; [reflexivity |]. right. right.
  exists push1, push32, (nth j machine_code 0%Z).
  repeat split; try assumption; try reflexivity. apply nth_In. exact Hj.
Qed.

Lemma tag_mnemonic_length (t : Table) (mnemonic : string) (machine_code : list Z) :
  forall tags out,
    for_each machine_code
      (fun tags b => c <- opcode_code t mnemonic ;; Ok (tags ++ [Z.eqb b c])) tags
    = Ok out ->
    length out = length tags + length machine_code.
Proof.
  induction machine_code as [| b machine_code IH]; intros tags out H.
  - cbn in H. injection H as <-. cbn. lia.
  - cbn [for_each] in H. unfold opcode_code at 1 in H.
    destruct (OPCODES t mnemonic); cbn [bind] in H; [| discriminate H].
    apply IH in H. rewrite H, length_app. cbn. lia.
Qed.

Lemma nth_logical_and (a : list bool) :
  forall b i,
    nth i (Np.logical_and a b) false = nth i a false && nth i b false.
Proof.
  unfold Np.logical_and.
  induction a as [| x a IH]; intros b i.
  - destruct i; reflexivity.
  - destruct b as [| y b].
    + destruct i; cbn; now rewrite andb_false_r.
    + destruct i as [| i]; [reflexivity |]. cbn [combine map nth]. apply IH.
Qed.

Lemma length_logical_and (a b : list bool) :
  length (Np.logical_and a b) = Nat.min (length a) (length b).
Proof. unfold Np.logical_and. now rewrite length_map, length_combine. Qed.

Lemma invert_returns (a n : list bool) :
  Np.invert a = Ok n -> a <> [] /\ n = map negb a.
Proof.
  destruct a; [discriminate |]. intros H. injection H as <-.
  split; [discriminate | reflexivity].
Qed.

Lemma nth_invert (a : list bool) (i : nat) :
  nth i a false = true -> nth i (map negb a) false = false.
Proof.
  revert i. induction a as [| x a IH]; intros [| i] H; cbn in *;
    try discriminate.
  - now rewrite H.
  - now apply IH.
Qed.

End TaggerOutcomes.

(** X8.  When [tag_push_data] returns, the mask has the length of the
    bytecode, and a position is tagged exactly when it lies among the
    operand bytes announced by a push opcode at an earlier position that is
    not tagged itself; operands that would lie beyond the end of the
    bytecode are cut off. *)
Theorem tag_push_data_operands (t : Opcodes.Table) (machine_code : list Z)
  (mask : list bool) :
  Tagger.tag_push_data t machine_code = Ok mask ->
  exists push1 push32,
    Opcodes.OPCODES t "PUSH1" = Some push1 /\
    Opcodes.OPCODES t "PUSH32" = Some push32 /\
    length mask = length machine_code /\
    forall p,
      p < length machine_code ->
      (nth p mask false = true
       <-> push_operand machine_code push1 push32 mask p).
Proof. exact (tag_push_data_spec t machine_code mask). Qed.

Lemma tag_push_data_operands_witness :
  Tagger.tag_push_data Opcodes.evm [97; 96; 0; 96]%Z
  = Ok [false; true; true; false] /\
  exists push1 push32,
    Opcodes.OPCODES Opcodes.evm "PUSH1" = Some push1 /\
    Opcodes.OPCODES Opcodes.evm "PUSH32" = Some push32 /\
    length [false; true; true; false] = length [97; 96; 0; 96]%Z /\
    forall p,
      p < length [97; 96; 0; 96]%Z ->
      (nth p [false; true; true; false] false = true
       <-> push_operand [97; 96; 0; 96]%Z push1 push32
             [false; true; true; false] p).
Proof.
  split; [reflexivity |].
  exact (tag_push_data_operands Opcodes.evm [97; 96; 0; 96]%Z
           [false; true; true; false] eq_refl).
Defined.

(** X9.  [tag_push_data] always ends; it fails only with [KeyError], when
    the table lacks [PUSH1] or [PUSH32] or a byte in their range; with
    these keys present it returns a mask. *)
Theorem tag_push_data_outcome (t : Opcodes.Table) (machine_code : list Z) :
  Tagger.tag_push_data t machine_code <> OutOfFuel /\
  (forall e, Tagger.tag_push_data t machine_code = Raise e -> e = KeyError) /\
  (Opcodes.OPCODES t "PUSH1" = None \/ Opcodes.OPCODES t "PUSH32" = None ->
   Tagger.tag_push_data t machine_code = Raise KeyError) /\
  (forall push1 push32,
     Opcodes.OPCODES t "PUSH1" = Some push1 ->
     Opcodes.OPCODES t "PUSH32" = Some push32 ->
     (forall b, In b machine_code -> is_push push1 push32 b = true ->
                Opcodes.BYTECODES t b <> None) ->
     exists mask, Tagger.tag_push_data t machine_code = Ok mask).
Proof.
  split; [exact (tag_push_data_returns t machine_code) |].
  split; [intros e H; exact (proj1 (tag_push_data_raises t machine_code e H)) |].
  split.
  - unfold Tagger.tag_push_data, Opcodes.opcode_by_name, Opcodes.opcode_code.
    intros [H | H].
    + rewrite H. reflexivity.
    + rewrite H. destruct (Opcodes.OPCODES t "PUSH1"); reflexivity.
  - intros push1 push32 H1 H32 Hkeys.
    destruct (Tagger.tag_push_data t machine_code) as [mask | e |] eqn:E.
    + exists mask. reflexivity.
    + exfalso.
      destruct (tag_push_data_raises t machine_code e E)
        as [_ [H | [H | [p1 [p32 [b [G1 [G32 [Hin [Hp Hb]]]]]]]]]];
        try congruence.
      rewrite H1 in G1. rewrite H32 in G32.
      injection G1 as <-. injection G32 as <-.
      exact (Hkeys b Hin Hp Hb).
    + exfalso. exact (tag_push_data_returns t machine_code E).
Qed.

Lemma tag_push_data_outcome_witness :
  (Opcodes.OPCODES {| Opcodes.BYTECODES := fun _ => None;
                      Opcodes.OPCODES := fun _ => None |} "PUSH1" = None /\
   Tagger.tag_push_data {| Opcodes.BYTECODES := fun _ => None;
                           Opcodes.OPCODES := fun _ => None |} [96; 5]%Z
   = Raise KeyError) /\
  (Opcodes.OPCODES Opcodes.evm "PUSH1" = Some 96%Z /\
   Opcodes.OPCODES Opcodes.evm "PUSH32" = Some 127%Z /\
   (forall b, In b [96; 5]%Z -> is_push 96 127 b = true ->
              Opcodes.BYTECODES Opcodes.evm b <> None) /\
   exists mask, Tagger.tag_push_data Opcodes.evm [96; 5]%Z = Ok mask).
Proof.
  split.
  - split; [reflexivity |].
    apply (proj1 (proj2 (proj2 (tag_push_data_outcome _ [96; 5]%Z)))).
    left. reflexivity.
  - assert (K : forall b, In b [96; 5]%Z -> is_push 96 127 b = true ->
                  Opcodes.BYTECODES Opcodes.evm b <> None).
    { intros b [<- | [<- | []]] H; [discriminate | discriminate H]. }
    split; [reflexivity |]. split; [reflexivity |]. split; [exact K |].
    exact (proj2 (proj2 (proj2 (tag_push_data_outcome Opcodes.evm [96; 5]%Z)))
             96%Z 127%Z eq_refl eq_refl K).
Defined.

(** X10.  [tag_mnemonic] looks the mnemonic up once per byte: for a known
    mnemonic it marks the bytes equal to its code; for an unknown one it
    raises [KeyError], except on the empty bytecode, where it returns the
    empty mask without a lookup. *)
Theorem tag_mnemonic_outcome (t : Opcodes.Table) (machine_code : list Z)
  (mnemonic : string) :
  (forall c, Opcodes.OPCODES t mnemonic = Some c ->
             Tagger.tag_mnemonic t machine_code mnemonic
             = Ok (map (fun b => Z.eqb b c) machine_code)) /\
  (Opcodes.OPCODES t mnemonic = None ->
   Tagger.tag_mnemonic t machine_code mnemonic
   = match machine_code with [] => Ok [] | _ :: _ => Raise KeyError end).
Proof.
  split.
  - intros c H. exact (tag_mnemonic_map t mnemonic c machine_code H).
  - intros H. unfold Tagger.tag_mnemonic.
    destruct machine_code as [| b machine_code]; [reflexivity |].
    cbn [for_each]. unfold Opcodes.opcode_code at 1. rewrite H. reflexivity.
Qed.

Lemma tag_mnemonic_outcome_witness :
  (Opcodes.OPCODES Opcodes.evm "JUMP" = Some 86%Z /\
   Tagger.tag_mnemonic Opcodes.evm [86; 0; 86]%Z "JUMP"
   = Ok (map (fun b => Z.eqb b 86) [86; 0; 86]%Z)) /\
  (Opcodes.OPCODES Opcodes.evm "NOP" = None /\
   Tagger.tag_mnemonic Opcodes.evm [86]%Z "NOP" = Raise KeyError /\
   Tagger.tag_mnemonic Opcodes.evm [] "NOP" = Ok []).
Proof.
  split.
  - split; [reflexivity |].
    exact (proj1 (tag_mnemonic_outcome Opcodes.evm [86; 0; 86]%Z "JUMP")
             86%Z eq_refl).
  - split; [reflexivity |]. split.
    + exact (proj2 (tag_mnemonic_outcome Opcodes.evm [86]%Z "NOP") eq_refl).
    + exact (proj2 (tag_mnemonic_outcome Opcodes.evm [] "NOP") eq_refl).
Defined.

(** ** The tags of the orchestrator *)

Section OrchestratorTags.

Import Opcodes Ethertracer.

Lemma masked_tag (a x n : list bool) (len : nat) :
  Np.invert x = Ok n -> length a = len -> length x = len ->
  length (Np.logical_and a n) = len /\
  forall i, nth i x false = true -> nth i (Np.logical_and a n) false = false.
Proof.
  intros H La Lx. apply invert_returns in H as [_ ->]. split.
  - rewrite length_logical_and, length_map. lia.
  - intros i Hi. rewrite nth_logical_and, (nth_invert x i Hi).
    apply andb_false_r.
Qed.

Lemma tag_mnemonic_returns_length (t : Table) (machine_code : list Z)
  (mnemonic : string) (tags : list bool) :
  Tagger.tag_mnemonic t machine_code mnemonic = Ok tags ->
  length tags = length machine_code.
Proof.
  unfold Tagger.tag_mnemonic. intros H.
  apply tag_mnemonic_length in H. exact H.
Qed.

Lemma analyze_tags_spec (t : Table) (machine_code : list Z) (m : tags) :
  analyze_tags t machine_code = Ok m ->
  machine_code <> [] /\
  Tagger.tag_push_data t machine_code = Ok (push_data_mask m) /\
  (length (push_data_mask m) = length machine_code /\
   length (invalid_mnemonic_mask m) = length machine_code /\
   length (jumpdest_mask m) = length machine_code /\
   length (jump_mask m) = length machine_code /\
   length (stop_mask m) = length machine_code /\
   length (return_mask m) = length machine_code /\
   length (selfdestruct_mask m) = length machine_code) /\
  forall i,
    nth i (push_data_mask m) false = true ->
    nth i (invalid_mnemonic_mask m) false = false /\
    nth i (jumpdest_mask m) false = false /\
    nth i (jump_mask m) false = false /\
    nth i (stop_mask m) false = false /\
    nth i (return_mask m) false = false /\
    nth i (selfdestruct_mask m) false = false.
Proof.
  unfold analyze_tags. intros H.
  bind_inv H. rename x into push, E into Epush. cbv zeta in H.
  bind_inv H. rename x into jumpdest, E into E1.
  bind_inv H. rename x into jump, E into E2.
  bind_inv H. rename x into stop, E into E3.
  bind_inv H. rename x into ret, E into E4.
  bind_inv H. rename x into selfdestruct, E into E5.
  bind_inv H. rename x into n1, E into N1. cbv zeta in H.
  injection H as <-.
  cbn [push_data_mask invalid_mnemonic_mask jumpdest_mask jump_mask stop_mask
       return_mask selfdestruct_mask].
  destruct (tag_push_data_spec t machine_code push Epush)
    as [p1 [p32 [_ [_ [Lp _]]]]].
  apply tag_mnemonic_returns_length in E1, E2, E3, E4, E5.
  assert (L0 : length (Tagger.tag_invalid_mnemonics t machine_code)
               = length machine_code)
    by (unfold Tagger.tag_invalid_mnemonics; apply length_map).
  destruct (masked_tag _ push n1 _ N1 L0 Lp) as [M1 X1].
  destruct (masked_tag _ push n1 _ N1 E1 Lp) as [M2 X2].
  destruct (masked_tag _ push n1 _ N1 E2 Lp) as [M3 X3].
  destruct (masked_tag _ push n1 _ N1 E3 Lp) as [M4 X4].
  destruct (masked_tag _ push n1 _ N1 E4 Lp) as [M5 X5].
  destruct (masked_tag _ push n1 _ N1 E5 Lp) as [M6 X6].
  split.
  { apply invert_returns in N1 as [Hne _]. intros ->.
    cbn in Lp. destruct push; [congruence | discriminate Lp]. }
  split; [reflexivity |].
  split; [repeat split; assumption |].
  intros i Hi. repeat split; auto.
Qed.

End OrchestratorTags.

(** X11.  When the tagging phase of [analyze] returns, the bytecode is not
    empty, the seven masks have its length, and a push-data position
    carries no other tag: it is neither an invalid mnemonic nor a
    [JUMPDEST], [JUMP], [STOP], [RETURN] or [SELFDESTRUCT]. *)
Theorem analyze_tags_push_exclusive (t : Opcodes.Table) (machine_code : list Z)
  (m : Ethertracer.tags) :
  Ethertracer.analyze_tags t machine_code = Ok m ->
  machine_code <> [] /\
  (length (Ethertracer.push_data_mask m) = length machine_code /\
   length (Ethertracer.invalid_mnemonic_mask m) = length machine_code /\
   length (Ethertracer.jumpdest_mask m) = length machine_code /\
   length (Ethertracer.jump_mask m) = length machine_code /\
   length (Ethertracer.stop_mask m) = length machine_code /\
   length (Ethertracer.return_mask m) = length machine_code /\
   length (Ethertracer.selfdestruct_mask m) = length machine_code) /\
  forall i,
    nth i (Ethertracer.push_data_mask m) false = true ->
    nth i (Ethertracer.invalid_mnemonic_mask m) false = false /\
    nth i (Ethertracer.jumpdest_mask m) false = false /\
    nth i (Ethertracer.jump_mask m) false = false /\
    nth i (Ethertracer.stop_mask m) false = false /\
    nth i (Ethertracer.return_mask m) false = false /\
    nth i (Ethertracer.selfdestruct_mask m) false = false.
Proof.
  intros H. destruct (analyze_tags_spec t machine_code m H) as [H1 [_ [H2 H3]]].
  auto.
Qed.

Lemma analyze_tags_push_exclusive_witness :
  exists m,
    Ethertracer.analyze_tags Opcodes.evm [91; 96; 91; 0]%Z = Ok m /\
    Ethertracer.jumpdest_mask m = [true; false; false; false] /\
    [91; 96; 91; 0]%Z <> [] /\
    (length (Ethertracer.push_data_mask m) = length [91; 96; 91; 0]%Z /\
     length (Ethertracer.invalid_mnemonic_mask m) = length [91; 96; 91; 0]%Z /\
     length (Ethertracer.jumpdest_mask m) = length [91; 96; 91; 0]%Z /\
     length (Ethertracer.jump_mask m) = length [91; 96; 91; 0]%Z /\
     length (Ethertracer.stop_mask m) = length [91; 96; 91; 0]%Z /\
     length (Ethertracer.return_mask m) = length [91; 96; 91; 0]%Z /\
     length (Ethertracer.selfdestruct_mask m) = length [91; 96; 91; 0]%Z) /\
    forall i,
      nth i (Ethertracer.push_data_mask m) false = true ->
      nth i (Ethertracer.invalid_mnemonic_mask m) false = false /\
      nth i (Ethertracer.jumpdest_mask m) false = false /\
      nth i (Ethertracer.jump_mask m) false = false /\
      nth i (Ethertracer.stop_mask m) false = false /\
      nth i (Ethertracer.return_mask m) false = false /\
      nth i (Ethertracer.selfdestruct_mask m) false = false.
Proof.
  eexists. split; [vm_compute; reflexivity |]. split; [reflexivity |].
  apply (analyze_tags_push_exclusive Opcodes.evm). vm_compute. reflexivity.
Defined.

(** ** Segment validation *)

Section SegmentValidation.

Import Analyzer.

Lemma collect_indices (validation_mask : list bool) (invalid_indicator : bool)
  (positions : list nat) :
  forall acc indices,
    for_each positions
      (fun acc i =>
         v <- getitem validation_mask i ;;
         Ok (if Bool.eqb v invalid_indicator then acc ++ [i] else acc))
      acc
    = Ok indices ->
    Forall (fun i => i < length validation_mask) positions /\
    indices
    = acc ++ filter (fun i => Bool.eqb (nth i validation_mask false)
                                invalid_indicator) positions.
Proof.
  induction positions as [| i positions IH]; intros acc indices H.
  - cbn in H. injection H as <-. split; [constructor | now rewrite app_nil_r].
  - cbn [for_each] in H. unfold getitem at 1 in H.
    destruct (nth_error validation_mask i) as [v |] eqn:E;
      cbn [bind] in H; [| discriminate H].
    assert (Hi : i < length validation_mask)
      by (apply nth_error_Some; rewrite E; discriminate).
    apply IH in H as [F ->]. split; [constructor; assumption |].
    cbn [filter]. rewrite (nth_error_nth _ _ false E).
    destruct (Bool.eqb v invalid_indicator);
      [rewrite <- app_assoc |]; reflexivity.
Qed.

Lemma collect_indices_raises (validation_mask : list bool)
  (invalid_indicator : bool) (positions : list nat) :
  forall acc,
    (exists i, In i positions /\ length validation_mask <= i) ->
    for_each positions
      (fun acc i =>
         v <- getitem validation_mask i ;;
         Ok (if Bool.eqb v invalid_indicator then acc ++ [i] else acc))
      acc
    = Raise IndexError.
Proof.
  induction positions as [| i positions IH]; intros acc [j [Hj Hl]];
    [destruct Hj |].
  cbn [for_each]. unfold getitem at 1.
  destruct (nth_error validation_mask i) as [v |] eqn:E; cbn [bind];
    [| reflexivity].
  apply IH. destruct Hj as [-> | Hj]; [| eauto].
  apply nth_error_None in Hl. congruence.
Qed.

(** A position is invalid exactly when its segment holds a hit. *)
Lemma tag_valid_segments_spec (segments : list nat) (validation_mask : list bool)
  (invalid_indicator : bool) (out : list bool) :
  _tag_valid_segments segments validation_mask invalid_indicator = Ok out ->
  length segments <= length validation_mask /\
  length out = length segments /\
  forall i,
    i < length segments ->
    (nth i out true = false
     <-> exists j,
           j < length segments /\
           nth j validation_mask false = invalid_indicator /\
           nth j segments 0 = nth i segments 0).
Proof.
  unfold _tag_valid_segments. intros H. bind_inv H. cbv zeta in H.
  injection H as <-. apply collect_indices in E as [F E]. cbn [app] in E.
  subst x. rewrite Forall_forall in F. split.
  - destruct segments as [| s segments]; [cbn; lia |].
    assert (Hlast : In (length segments) (seq 0 (length (s :: segments))))
      by (apply in_seq; cbn; lia).
    specialize (F _ Hlast). cbn. lia.
  - split; [now rewrite length_map, length_seq |].
    intros i Hi. rewrite nth_map_seq by exact Hi.
    destruct (existsb _ _) eqn:Ex.
    + split; [intros _ | reflexivity].
      apply existsb_exists in Ex as [s [Hs Heq]]. apply Nat.eqb_eq in Heq.
      apply in_map_iff in Hs as [j [Hj Hin]].
      apply filter_In in Hin as [Hin Hv]. apply in_seq in Hin.
      apply Bool.eqb_prop in Hv.
      exists j. repeat split; try assumption; try lia; congruence.
    + split; [discriminate |]. intros [j [Hj [Hv Hs]]]. exfalso.
      assert (Ex' : existsb (Nat.eqb (nth i segments 0))
                      (map (fun i0 => nth i0 segments 0)
                         (filter (fun i0 => Bool.eqb (nth i0 validation_mask false)
                                              invalid_indicator)
                            (seq 0 (length segments)))) = true).
      { apply existsb_exists. exists (nth j segments 0). split.
        - apply in_map_iff. exists j. split; [reflexivity |].
          apply filter_In. split; [apply in_seq; lia |].
          rewrite Hv. apply Bool.eqb_reflx.
        - apply Nat.eqb_eq. symmetry. exact Hs. }
      congruence.
Qed.

Lemma tag_valid_segments_short_mask (segments : list nat)
  (validation_mask : list bool) (invalid_indicator : bool) :
  length validation_mask < length segments ->
  _tag_valid_segments segments validation_mask invalid_indicator
  = Raise IndexError.
Proof.
  intros H. unfold _tag_valid_segments.
  rewrite collect_indices_raises; [reflexivity |].
  exists (length validation_mask). split; [apply in_seq; lia | lia].
Qed.

End SegmentValidation.

(** X12.  When [_tag_valid_segments] returns, a position is marked invalid
    exactly when some position of the same segment id is a hit of the
    validation mask; one hit invalidates its whole segment and nothing
    else. *)
Theorem tag_valid_segments_hits (segments : list nat) (validation_mask : list bool)
  (invalid_indicator : bool) (out : list bool) :
  Analyzer._tag_valid_segments segments validation_mask invalid_indicator = Ok out ->
  length out = length segments /\
  forall i,
    i < length segments ->
    (nth i out true = false
     <-> exists j,
           j < length segments /\
           nth j validation_mask false = invalid_indicator /\
           nth j segments 0 = nth i segments 0).
Proof.
  intros H.
  destruct (tag_valid_segments_spec segments validation_mask invalid_indicator
              out H) as [_ R].
  exact R.
Qed.

Lemma tag_valid_segments_hits_witness :
  Analyzer._tag_valid_segments [0; 0; 1; 1; 2] [false; true; false; false; false]
    true = Ok [false; false; true; true; true] /\
  length [false; false; true; true; true] = length [0; 0; 1; 1; 2] /\
  forall i,
    i < length [0; 0; 1; 1; 2] ->
    (nth i [false; false; true; true; true] true = false
     <-> exists j,
           j < length [0; 0; 1; 1; 2] /\
           nth j [false; true; false; false; false] false = true /\
           nth j [0; 0; 1; 1; 2] 0 = nth i [0; 0; 1; 1; 2] 0).
Proof.
  split; [reflexivity |].
  exact (tag_valid_segments_hits [0; 0; 1; 1; 2]
           [false; true; false; false; false] true
           [false; false; true; true; true] eq_refl).
Defined.

(** X13.  A validation mask shorter than the segment vector makes
    [_tag_valid_segments] raise [IndexError]. *)
Theorem tag_valid_segments_index_error (segments : list nat)
  (validation_mask : list bool) (invalid_indicator : bool) :
  length validation_mask < length segments ->
  Analyzer._tag_valid_segments segments validation_mask invalid_indicator
  = Raise IndexError.
Proof.
  exact (tag_valid_segments_short_mask segments validation_mask invalid_indicator).
Qed.

Lemma tag_valid_segments_index_error_witness :
  length [true] < length [0; 0] /\
  Analyzer._tag_valid_segments [0; 0] [true] false = Raise IndexError.
Proof.
  assert (H : length [true] < length [0; 0]) by (cbn; lia).
  split; [exact H |].
  exact (tag_valid_segments_index_error [0; 0] [true] false H).
Defined.

(** ** Push immediates and push-jump pairs *)

Section PushJump.

Import Analyzer.

Lemma no_true_subsets (mask : list bool) :
  (forall i, nth i mask false = false) ->
  get_compound_subsets mask true = [[]].
Proof.
  intros H. unfold get_compound_subsets.
  destruct (index_subset_element mask true) as [| x l] eqn:E; [reflexivity |].
  assert (Hx : In x (index_subset_element mask true))
    by (rewrite E; left; reflexivity).
  apply index_subset_element_true in Hx. rewrite H in Hx. discriminate.
Qed.

Lemma true_entry_subsets (mask : list bool) :
  (exists i, nth i mask false = true) -> index_subset_element mask true <> [].
Proof.
  intros [i Hi] E. apply index_subset_element_true in Hi.
  rewrite E in Hi. destruct Hi.
Qed.


(** The runs behind the values and pairs, as maximal runs of the mask. *)
Lemma subsets_as_runs (mask : list bool) (P : nat -> nat -> Prop) :
  (exists i, nth i mask false = true) ->
  ((exists r, In r (get_compound_subsets mask true) /\
              P (hd 0 r) (last r 0))
   <-> exists a b, maximal_run mask a b /\ P a b).
Proof.
  intros Ht. pose proof (true_entry_subsets mask Ht) as Hne. split.
  - intros [r [Hin HP]].
    destruct (subset_is_maximal_run mask r Hne Hin) as [a [b [Hrun ->]]].
    destruct (block_ends a (b - a)) as [_ [_ [Hh Hl]]].
    rewrite Hh, Hl in HP. destruct Hrun as [Hab Hrest].
    replace (a + (b - a)) with b in HP by lia.
    exists a, b. split; [split; assumption | exact HP].
  - intros [a [b [Hrun HP]]]. exists (seq a (S (b - a))).
    split; [apply maximal_run_in_subsets; exact Hrun |].
    destruct (block_ends a (b - a)) as [_ [_ [Hh Hl]]].
    rewrite Hh, Hl. destruct Hrun as [Hab _].
    replace (a + (b - a)) with b by lia. exact HP.
Qed.

Lemma get_push_data_members (machine_code : list Z) (mask : list bool) :
  Forall is_byte machine_code ->
  (exists i, nth i mask false = true) ->
  exists push_data,
    push_data_list machine_code mask = Ok push_data /\
    forall v, In v push_data <-> pushed_value machine_code mask v.
Proof.
  intros B Ht. pose proof (true_entry_subsets mask Ht) as Hne.
  unfold pushed_value.
  exists (run_values machine_code (get_compound_subsets mask true)).
  split; [exact (get_push_data_values machine_code mask B Hne) |].
  intros v.
  rewrite <- (subsets_as_runs mask
               (fun a b => b + 1 < length machine_code /\
                           v = big_endian_sum (slice machine_code a (b + 1))) Ht).
  unfold run_values. rewrite in_flat_map. split.
  - intros [r [Hin Hv]]. exists r. split; [exact Hin |].
    destruct (Nat.ltb_spec (last r 0 + 1) (length machine_code)) as [L | G];
      [| destruct Hv].
    destruct Hv as [<- | []]. auto.
  - intros [r [Hin [L ->]]]. exists r. split; [exact Hin |].
    apply Nat.ltb_lt in L. rewrite L. left. reflexivity.
Qed.


Lemma get_data_no_push (machine_code : list Z) (mask : list bool) :
  (forall i, nth i mask false = false) ->
  _get_push_data machine_code mask = Raise IndexError /\
  forall jumps_mask,
    _get_pushjump_data machine_code mask jumps_mask = Raise IndexError.
Proof.
  intros H. unfold _get_push_data, _get_pushjump_data, push_data_list,
    pushjump_data_list.
  rewrite (no_true_subsets mask H). split; [reflexivity |].
  intros jumps_mask. reflexivity.
Qed.

Lemma pushed_value_nonneg (machine_code : list Z) (mask : list bool) (v : Z) :
  Forall is_byte machine_code -> pushed_value machine_code mask v -> (0 <= v)%Z.
Proof.
  intros B [a [b [_ [_ ->]]]].
  apply (big_endian_sum_range _ (slice_is_bytes machine_code a (b + 1) B)).
Qed.

(** The array of [_get_push_data]: its entries and their type. *)
Lemma get_push_data_array_members (machine_code : list Z) (mask : list bool) :
  Forall is_byte machine_code ->
  (exists i, nth i mask false = true) ->
  exists push_data,
    _get_push_data machine_code mask = Ok push_data /\
    (forall w,
       In w (Np.tolist push_data)
       <-> exists a b,
             maximal_run mask a b /\
             (b + 1 < length machine_code /\
              w = Np.cast (Np.dtype_of push_data)
                    (big_endian_sum (slice machine_code a (b + 1))))) /\
    (Np.dtype_of push_data = Np.float64
     <-> (forall v, ~ pushed_value machine_code mask v) \/
         mixed_words (pushed_value machine_code mask)).
Proof.
  intros B Ht.
  destruct (get_push_data_members machine_code mask B Ht) as [l [E Hl]].
  exists (Np.array l). split; [apply get_push_data_array; eauto |]. split.
  - intros w. rewrite In_tolist_array. split.
    + intros [v [Hv ->]]. apply Hl in Hv as [a [b [R [L ->]]]].
      exists a, b. auto.
    + intros [a [b [R [L ->]]]]. eexists. split; [| reflexivity].
      apply Hl. exists a, b. auto.
  - cbn [Np.array Np.dtype_of]. destruct l as [| x l'] eqn:El.
    + split; [intros _ | reflexivity]. left. intros v Hv.
      apply Hl in Hv. destruct Hv.
    + rewrite <- El in *. assert (N : l <> []) by (rewrite El; discriminate).
      assert (F : Forall (fun v => 0 <= v)%Z l).
      { apply Forall_forall. intros v Hv. apply Hl in Hv.
        exact (pushed_value_nonneg machine_code mask v B Hv). }
      rewrite (result_type_float64 l N F). split.
      * intros M. right. exact (mixed_words_ext _ _ Hl M).
      * intros [None | M].
        -- exfalso. apply (None x). apply Hl. rewrite El. left. reflexivity.
        -- apply (mixed_words_ext (pushed_value machine_code mask)); [| exact M].
           intros v. symmetry. apply Hl.
Qed.


End PushJump.

(** X14.  On a push-data mask without a true entry, [_get_push_data] and
    [_get_pushjump_data] raise [IndexError], whatever the bytecode. *)
Theorem get_data_without_push_raises (machine_code : list Z) (mask : list bool) :
  (forall i, nth i mask false = false) ->
  Analyzer._get_push_data machine_code mask = Raise IndexError /\
  forall jumps_mask,
    Analyzer._get_pushjump_data machine_code mask jumps_mask = Raise IndexError.
Proof. exact (get_data_no_push machine_code mask). Qed.

Lemma get_data_without_push_raises_witness :
  (forall i, nth i [false; false; false] false = false) /\
  Analyzer._get_push_data [91; 0; 0]%Z [false; false; false] = Raise IndexError /\
  forall jumps_mask,
    Analyzer._get_pushjump_data [91; 0; 0]%Z [false; false; false] jumps_mask
    = Raise IndexError.
Proof.
  assert (H : forall i, nth i [false; false; false] false = false)
    by (intros [| [| [| [| i]]]]; reflexivity).
  split; [exact H |].
  exact (get_data_without_push_raises [91; 0; 0]%Z [false; false; false] H).
Defined.





(** The values of a run before the final byte can be missing as well: in
    [PUSH1 0x03; PUSH8 0x8000000000000001; STOP] the array is a [float64]
    array, and it holds 2^63 where the run folds to 2^63 + 1. *)
Lemma push_data_rounds_mixed_words :
  Analyzer._get_push_data [96; 3; 103; 128; 0; 0; 0; 0; 0; 0; 1; 0]%Z
    [false; true; false; true; true; true; true; true; true; true; true; false]
  = Ok {| Np.dtype_of := Np.float64;
          Np.tolist := [3; 9223372036854775808]%Z |} /\
  big_endian_sum (slice [96; 3; 103; 128; 0; 0; 0; 0; 0; 0; 1; 0]%Z 3 11)
  = 9223372036854775809%Z.
Proof. split; vm_compute; reflexivity. Qed.

(** X15.  For bytecode made of bytes and a push-data mask with a true
    entry, [_get_push_data] returns an array whose entries are exactly the
    folded values of the maximal runs that end before the final byte,
    converted to the type of the array.  The type is [float64], with
    rounded entries, exactly when there is no such run or the folded values
    are of mixed size. *)
Theorem get_push_data_exact (machine_code : list Z) (mask : list bool) :
  Forall is_byte machine_code ->
  (exists i, nth i mask false = true) ->
  exists push_data,
    Analyzer._get_push_data machine_code mask = Ok push_data /\
    (forall w,
       In w (Np.tolist push_data)
       <-> exists a b,
             maximal_run mask a b /\
             (b + 1 < length machine_code /\
              w = Np.cast (Np.dtype_of push_data)
                    (big_endian_sum (slice machine_code a (b + 1))))) /\
    (Np.dtype_of push_data = Np.float64
     <-> (forall v, ~ pushed_value machine_code mask v) \/
         mixed_words (pushed_value machine_code mask)).
Proof. exact (get_push_data_array_members machine_code mask). Qed.

Lemma get_push_data_exact_witness :
  Forall is_byte [96; 3; 103; 128; 0; 0; 0; 0; 0; 0; 1; 0]%Z /\
  (exists i,
     nth i [false; true; false; true; true; true; true; true; true; true; true;
            false] false = true) /\
  exists push_data,
    Analyzer._get_push_data [96; 3; 103; 128; 0; 0; 0; 0; 0; 0; 1; 0]%Z
      [false; true; false; true; true; true; true; true; true; true; true; false]
    = Ok push_data /\
    (forall w,
       In w (Np.tolist push_data)
       <-> exists a b,
             maximal_run
               [false; true; false; true; true; true; true; true; true; true;
                true; false] a b /\
             (b + 1 < length [96; 3; 103; 128; 0; 0; 0; 0; 0; 0; 1; 0]%Z /\
              w = Np.cast (Np.dtype_of push_data)
                    (big_endian_sum
                       (slice [96; 3; 103; 128; 0; 0; 0; 0; 0; 0; 1; 0]%Z a
                          (b + 1))))) /\
    (Np.dtype_of push_data = Np.float64
     <-> (forall v,
            ~ pushed_value [96; 3; 103; 128; 0; 0; 0; 0; 0; 0; 1; 0]%Z
                [false; true; false; true; true; true; true; true; true; true;
                 true; false] v) \/
         mixed_words
           (pushed_value [96; 3; 103; 128; 0; 0; 0; 0; 0; 0; 1; 0]%Z
              [false; true; false; true; true; true; true; true; true; true;
               true; false])).
Proof.
  assert (F : Forall is_byte [96; 3; 103; 128; 0; 0; 0; 0; 0; 0; 1; 0]%Z)
    by (repeat constructor; unfold is_byte; lia).
  assert (T : exists i,
             nth i [false; true; false; true; true; true; true; true; true;
                    true; true; false] false = true)
    by (exists 1; reflexivity).
  split; [exact F |]. split; [exact T |].
  exact (get_push_data_exact [96; 3; 103; 128; 0; 0; 0; 0; 0; 0; 1; 0]%Z
           [false; true; false; true; true; true; true; true; true; true; true;
            false] F T).
Defined.



(** The pair array of [PUSH8 0x8000000000000001; JUMP] is a [float64]
    array: the target 2^63 + 1 is held as 2^63, and the address 9 as a
    float. *)
Lemma pushjump_data_rounds :
  Analyzer._get_pushjump_data [103; 128; 0; 0; 0; 0; 0; 0; 1; 86]%Z
    [false; true; true; true; true; true; true; true; true; false]
    [false; false; false; false; false; false; false; false; false; true]
  = Ok {| Np.dtype_of2 := Np.float64;
          Np.rows := [(9, 9223372036854775808%Z)] |}.
Proof. vm_compute. reflexivity. Qed.

(** ** The push-jump range check *)

Section JumpRange.

Import Analyzer.

Lemma mark_addresses (addresses : list nat) :
  forall mask out,
    for_each addresses (fun m i => setitem m i true) mask = Ok out ->
    length out = length mask /\
    forall p, nth p out false = nth p mask false || existsb (Nat.eqb p) addresses.
Proof.
  induction addresses as [| a addresses IH]; intros mask out H.
  - cbn in H. injection H as <-. split; [reflexivity |].
    intros p. cbn. now rewrite orb_false_r.
  - cbn [for_each] in H.
    destruct (Nat.lt_ge_cases a (length mask)) as [L | G].
    + destruct (setitem_spec mask true false a L) as [mask' [E [L' N']]].
      rewrite E in H. cbn [bind] in H. apply IH in H as [Lo No].
      split; [lia |]. intros p. rewrite No, N'. cbn [existsb].
      destruct (Nat.eqb_spec p a); cbn [orb];
        [now rewrite orb_true_r | reflexivity].
    + rewrite (setitem_out_of_range mask true a G) in H. discriminate H.
Qed.

Lemma nth_repeat_false (n p : nat) : nth p (repeat false n) false = false.
Proof.
  destruct (Nat.lt_ge_cases p n).
  - apply nth_repeat_lt. assumption.
  - apply nth_overflow. rewrite repeat_length. assumption.
Qed.

(** The marking loop of [validate_segment_jumps]: an address of a [float64]
    array stops it with a [TypeError]. *)
Lemma mark_addresses_typed (d : Np.dtype) (addresses : list nat) :
  forall mask out,
    for_each addresses
      (fun m i =>
         match d with
         | Np.float64 => Raise TypeError
         | _ => setitem m i true
         end) mask = Ok out ->
    length out = length mask /\
    forall p, nth p out false = nth p mask false || existsb (Nat.eqb p) addresses.
Proof.
  intros mask out H.
  destruct d; try exact (mark_addresses addresses mask out H).
  destruct addresses as [| a addresses]; [| discriminate H].
  injection H as <-. split; [reflexivity |].
  intros p. cbn. now rewrite orb_false_r.
Qed.

Lemma mark_addresses_float (addresses : list nat) (mask : list bool) :
  addresses <> [] ->
  for_each addresses
    (fun m i =>
       match Np.float64 with
       | Np.float64 => Raise TypeError
       | _ => setitem m i true
       end) mask = Raise TypeError.
Proof. destruct addresses; [congruence | reflexivity]. Qed.

Lemma validate_segment_jumps_spec (machine_code : list Z) (segments : list nat)
  (push_data_mask jumps_mask out : list bool) :
  validate_segment_jumps machine_code segments push_data_mask jumps_mask = Ok out ->
  exists pushjumps,
    _get_pushjump_data machine_code push_data_mask jumps_mask = Ok pushjumps /\
    Np.rows pushjumps <> [] /\
    length out = length segments /\
    forall i,
      i < length segments ->
      (nth i out true = false
       <-> exists address v,
             In (address, v) (Np.rows pushjumps) /\
             Np.greater (Np.dtype_of2 pushjumps) v
               (Z.of_nat (length machine_code)) = true /\
             address < length segments /\
             nth address segments 0 = nth i segments 0).
Proof.
  unfold validate_segment_jumps. intros H. bind_inv H. rename x into pushjumps.
  exists pushjumps. split; [reflexivity |].
  destruct (Np.rows pushjumps) as [| entry rows] eqn:Er; [discriminate H |].
  split; [discriminate |]. cbv zeta in H. bind_inv H. rename x into mask.
  apply mark_addresses_typed in E0 as [_ Nm].
  apply tag_valid_segments_spec in H as [_ [Lo Ho]].
  split; [exact Lo |]. intros i Hi. rewrite (Ho i Hi). split.
  - intros [j [Hj [Hm Hs]]]. rewrite Nm, nth_repeat_false in Hm.
    cbn [orb] in Hm. apply existsb_exists in Hm as [a [Ha Heq]].
    apply Nat.eqb_eq in Heq. subst a.
    apply in_map_iff in Ha as [[address v] [Hfst Hin]]. cbn [fst] in Hfst.
    subst address. apply filter_In in Hin as [Hin Hv]. cbn [snd] in Hv.
    exists j, v. auto.
  - intros [address [v [Hin [Hv [Ha Hs]]]]]. exists address.
    split; [exact Ha |]. split; [| exact Hs].
    rewrite Nm, nth_repeat_false. cbn [orb]. apply existsb_exists.
    exists address. split; [| apply Nat.eqb_refl].
    apply in_map_iff. exists (address, v). split; [reflexivity |].
    apply filter_In. split; [exact Hin |]. cbn [snd]. exact Hv.
Qed.

Lemma validate_segment_jumps_no_pair (machine_code : list Z)
  (segments : list nat) (push_data_mask jumps_mask : list bool)
  (pushjumps : Np.ndarray2) :
  _get_pushjump_data machine_code push_data_mask jumps_mask = Ok pushjumps ->
  Np.rows pushjumps = [] ->
  validate_segment_jumps machine_code segments push_data_mask jumps_mask
  = Raise IndexError.
Proof.
  intros H E. unfold validate_segment_jumps. rewrite H. cbn [bind].
  rewrite E. reflexivity.
Qed.

Lemma validate_segment_jumps_float (machine_code : list Z)
  (segments : list nat) (push_data_mask jumps_mask : list bool)
  (pushjumps : Np.ndarray2) :
  _get_pushjump_data machine_code push_data_mask jumps_mask = Ok pushjumps ->
  Np.dtype_of2 pushjumps = Np.float64 ->
  (exists address v,
     In (address, v) (Np.rows pushjumps) /\
     Np.greater Np.float64 v (Z.of_nat (length machine_code)) = true) ->
  validate_segment_jumps machine_code segments push_data_mask jumps_mask
  = Raise TypeError.
Proof.
  intros H D [address [v [Hin Hv]]]. unfold validate_segment_jumps.
  rewrite H. cbn [bind]. rewrite D.
  destruct (Np.rows pushjumps) as [| entry rows] eqn:Er; [destruct Hin |].
  rewrite mark_addresses_float; [reflexivity |].
  intros En.
  assert (Ha : In address
                 (map fst
                    (filter
                       (fun p : nat * Z =>
                          Np.greater Np.float64 (snd p)
                            (Z.of_nat (length machine_code)))
                       (entry :: rows)))).
  { apply in_map_iff. exists (address, v). split; [reflexivity |].
    apply filter_In. split; [exact Hin | exact Hv]. }
  rewrite En in Ha. destruct Ha.
Qed.

(** Every pair kept by [_get_pushjump_data] stands behind the last
    position of a compound subset and on a jump. *)
Lemma pushjump_entries (machine_code : list Z) (jumps_mask : list bool)
  (runs : list (list nat)) :
  forall pushjump_data out,
    for_each runs
      (fun pushjump_data set =>
         set_start <- getitem set 0 ;;
         set_end <- getlast set ;;
         if set_end + 1 <? length machine_code then
           j <- getitem jumps_mask (set_end + 1) ;;
           if j then
             compound_data <-
               compound_bytes_to_integer
                 (slice machine_code set_start (set_end + 1)) ;;
             Ok (pushjump_data ++ [(set_end + 1, compound_data)])
           else Ok pushjump_data
         else Ok pushjump_data)
      pushjump_data
    = Ok out ->
    forall entry,
      In entry out ->
      In entry pushjump_data \/
      exists r e,
        In r runs /\ In e r /\ fst entry = e + 1 /\
        e + 1 < length machine_code /\ nth (e + 1) jumps_mask false = true.
Proof.
  induction runs as [| r runs IH]; intros pushjump_data out H entry Hin.
  - cbn in H. injection H as <-. left. exact Hin.
  - cbn [for_each] in H. bind_inv H. rename x into acc.
    assert (Hacc : forall entry,
              In entry acc ->
              In entry pushjump_data \/
              exists e, In e r /\ fst entry = e + 1 /\
                        e + 1 < length machine_code /\
                        nth (e + 1) jumps_mask false = true).
    { clear H IH Hin entry. intros entry Hin.
      bind_inv E. rename x into set_start. bind_inv E. rename x into e.
      assert (He : In e r).
      { unfold getlast in E1. destruct (rev r) as [| y l] eqn:R;
          [discriminate E1 |].
        injection E1 as ->. apply in_rev. rewrite R. left. reflexivity. }
      destruct (Nat.ltb_spec (e + 1) (length machine_code)) as [L | G].
      - bind_inv E. rename x into j.
        assert (Hj : nth (e + 1) jumps_mask false = j).
        { unfold getitem in E2.
          destruct (nth_error jumps_mask (e + 1)) as [j' |] eqn:Ej;
            [| discriminate E2].
          injection E2 as ->. exact (nth_error_nth _ _ false Ej). }
        destruct j.
        + bind_inv E. injection E as <-.
          apply in_app_or in Hin as [Hin | [<- | []]]; [left; exact Hin |].
          right. exists e. cbn [fst]. auto.
        + injection E as <-. left. exact Hin.
      - injection E as <-. left. exact Hin. }
    destruct (IH acc out H entry Hin) as [Hin' | [r' [e [Hr [He Hrest]]]]].
    + destruct (Hacc entry Hin') as [Hp | [e He]]; [left; exact Hp |].
      right. exists r, e. split; [left; reflexivity | exact He].
    + right. exists r', e. split; [right; exact Hr |]. auto.
Qed.

Lemma pushjump_needs_push_before_jump (machine_code : list Z)
  (push_data_mask jumps_mask : list bool) (pushjumps : Np.ndarray2) :
  _get_pushjump_data machine_code push_data_mask jumps_mask = Ok pushjumps ->
  Np.rows pushjumps <> [] ->
  exists a,
    S a < length machine_code /\
    nth a push_data_mask false = true /\
    nth (S a) jumps_mask false = true.
Proof.
  intros H N. apply get_pushjump_data_array in H as [l [H ->]].
  destruct l as [| entry l]; [exfalso; apply N; reflexivity |]. clear N.
  unfold pushjump_data_list in H. cbv zeta in H.
  destruct (pushjump_entries machine_code jumps_mask _ [] _ H entry
              (or_introl eq_refl)) as [[] | [r [e [Hr [He [_ [L J]]]]]]].
  exists e. replace (S e) with (e + 1) by lia.
  split; [exact L |]. split; [| exact J].
  apply index_subset_element_true. rewrite <- get_compound_subsets_flat.
  apply in_concat. exists r. split; assumption.
Qed.

End JumpRange.

(** X17.  [validate_segment_jumps] raises [IndexError] when no push-data
    run is directly followed by a jump, and [TypeError] when the pair array
    is a [float64] array with a target greater than the length of the
    bytecode.  When it returns, a position is marked invalid exactly when
    its segment holds the address of a jump whose pushed target is greater
    than the length of the bytecode. *)
Theorem validate_segment_jumps_out_of_range (machine_code : list Z)
  (segments : list nat) (push_data_mask jumps_mask : list bool) :
  (forall pushjumps,
     Analyzer._get_pushjump_data machine_code push_data_mask jumps_mask
     = Ok pushjumps ->
     Np.rows pushjumps = [] ->
     Analyzer.validate_segment_jumps machine_code segments push_data_mask
       jumps_mask = Raise IndexError) /\
  (forall pushjumps,
     Analyzer._get_pushjump_data machine_code push_data_mask jumps_mask
     = Ok pushjumps ->
     Np.dtype_of2 pushjumps = Np.float64 ->
     (exists address v,
        In (address, v) (Np.rows pushjumps) /\
        Np.greater Np.float64 v (Z.of_nat (length machine_code)) = true) ->
     Analyzer.validate_segment_jumps machine_code segments push_data_mask
       jumps_mask = Raise TypeError) /\
  (forall out,
     Analyzer.validate_segment_jumps machine_code segments push_data_mask
       jumps_mask = Ok out ->
     exists pushjumps,
       Analyzer._get_pushjump_data machine_code push_data_mask jumps_mask
       = Ok pushjumps /\
       Np.rows pushjumps <> [] /\
       length out = length segments /\
       forall i,
         i < length segments ->
         (nth i out true = false
          <-> exists address v,
                In (address, v) (Np.rows pushjumps) /\
                Np.greater (Np.dtype_of2 pushjumps) v
                  (Z.of_nat (length machine_code)) = true /\
                address < length segments /\
                nth address segments 0 = nth i segments 0)).
Proof.
  split; [| split].
  - exact (validate_segment_jumps_no_pair machine_code segments push_data_mask
             jumps_mask).
  - exact (validate_segment_jumps_float machine_code segments push_data_mask
             jumps_mask).
  - intros out H.
    exact (validate_segment_jumps_spec machine_code segments push_data_mask
             jumps_mask out H).
Qed.

Lemma validate_segment_jumps_out_of_range_witness :
  (Analyzer._get_pushjump_data [96; 2; 91; 0]%Z [false; true; false; false]
     [false; false; false; false]
   = Ok {| Np.dtype_of2 := Np.float64; Np.rows := [] |} /\
   Analyzer.validate_segment_jumps [96; 2; 91; 0]%Z [0; 0; 1; 1]
     [false; true; false; false] [false; false; false; false]
   = Raise IndexError) /\
  (Analyzer._get_pushjump_data [103; 128; 0; 0; 0; 0; 0; 0; 1; 86]%Z
     [false; true; true; true; true; true; true; true; true; false]
     [false; false; false; false; false; false; false; false; false; true]
   = Ok {| Np.dtype_of2 := Np.float64;
           Np.rows := [(9, 9223372036854775808%Z)] |} /\
   Analyzer.validate_segment_jumps [103; 128; 0; 0; 0; 0; 0; 0; 1; 86]%Z
     [0; 0; 0; 0; 0; 0; 0; 0; 0; 0]
     [false; true; true; true; true; true; true; true; true; false]
     [false; false; false; false; false; false; false; false; false; true]
   = Raise TypeError) /\
  (Analyzer.validate_segment_jumps [91; 97; 255; 255; 86; 0]%Z [1; 1; 1; 1; 1; 1]
     [false; false; true; true; false; false]
     [false; false; false; false; true; false]
   = Ok [false; false; false; false; false; false] /\
   exists pushjumps,
     Analyzer._get_pushjump_data [91; 97; 255; 255; 86; 0]%Z
       [false; false; true; true; false; false]
       [false; false; false; false; true; false] = Ok pushjumps /\
     Np.rows pushjumps <> [] /\
     length [false; false; false; false; false; false]
     = length [1; 1; 1; 1; 1; 1] /\
     forall i,
       i < length [1; 1; 1; 1; 1; 1] ->
       (nth i [false; false; false; false; false; false] true = false
        <-> exists address v,
              In (address, v) (Np.rows pushjumps) /\
              Np.greater (Np.dtype_of2 pushjumps) v
                (Z.of_nat (length [91; 97; 255; 255; 86; 0]%Z)) = true /\
              address < length [1; 1; 1; 1; 1; 1] /\
              nth address [1; 1; 1; 1; 1; 1] 0 = nth i [1; 1; 1; 1; 1; 1] 0)).
Proof.
  split; [| split].
  - split; [reflexivity |].
    exact (proj1 (validate_segment_jumps_out_of_range [96; 2; 91; 0]%Z
                    [0; 0; 1; 1] [false; true; false; false]
                    [false; false; false; false])
             {| Np.dtype_of2 := Np.float64; Np.rows := [] |} eq_refl eq_refl).
  - split; [vm_compute; reflexivity |].
    refine (proj1 (proj2 (validate_segment_jumps_out_of_range
                     [103; 128; 0; 0; 0; 0; 0; 0; 1; 86]%Z
                     [0; 0; 0; 0; 0; 0; 0; 0; 0; 0]
                     [false; true; true; true; true; true; true; true; true;
                      false]
                     [false; false; false; false; false; false; false; false;
                      false; true]))
              {| Np.dtype_of2 := Np.float64;
                 Np.rows := [(9, 9223372036854775808%Z)] |} _ eq_refl _).
    + vm_compute. reflexivity.
    + exists 9, 9223372036854775808%Z. split; [left; reflexivity |].
      vm_compute. reflexivity.
  - split; [reflexivity |].
    exact (proj2 (proj2 (validate_segment_jumps_out_of_range
                    [91; 97; 255; 255; 86; 0]%Z [1; 1; 1; 1; 1; 1]
                    [false; false; true; true; false; false]
                    [false; false; false; false; true; false]))
             [false; false; false; false; false; false] eq_refl).
Defined.

(** X18.  [analyze] returns only on bytecode in which some push operand is
    directly followed by a [JUMP]: on every other bytecode it raises or
    does not terminate. *)
Theorem analyze_needs_push_jump (t : Opcodes.Table) (fuel : nat)
  (machine_code : list Z) (result : list bool * list Ethertracer.report_line) :
  Ethertracer.analyze t fuel machine_code = Ok result ->
  exists m a,
    Ethertracer.analyze_tags t machine_code = Ok m /\
    S a < length machine_code /\
    nth a (Ethertracer.push_data_mask m) false = true /\
    nth (S a) (Ethertracer.jump_mask m) false = true.
Proof.
  unfold Ethertracer.analyze. intros H.
  bind_inv H. rename x into m. bind_inv H. bind_inv H. bind_inv H.
  clear H. rename E2 into H.
  apply validate_segment_jumps_spec in H as [pushjumps [Hp [Hne _]]].
  destruct (pushjump_needs_push_before_jump _ _ _ _ Hp Hne) as [a Ha].
  exists m, a. split; [reflexivity | exact Ha].
Qed.

Lemma analyze_needs_push_jump_witness :
  exists result,
    Ethertracer.analyze Opcodes.evm 2 [96; 3; 86; 91; 0]%Z = Ok result /\
    exists m a,
      Ethertracer.analyze_tags Opcodes.evm [96; 3; 86; 91; 0]%Z = Ok m /\
      S a < length [96; 3; 86; 91; 0]%Z /\
      nth a (Ethertracer.push_data_mask m) false = true /\
      nth (S a) (Ethertracer.jump_mask m) false = true.
Proof.
  eexists. split; [vm_compute; reflexivity |].
  eapply (analyze_needs_push_jump Opcodes.evm 2). vm_compute. reflexivity.
Defined.

(** ** Reachable jump destinations *)

Section Reachable.

Import Analyzer.

Lemma In_set_of (l : list Z) (x : Z) : In x (set_of l) <-> In x l.
Proof. unfold set_of. apply nodup_In. Qed.

Lemma In_intersection (a b : list Z) (x : Z) :
  In x (intersection a b) <-> In x a /\ In x b.
Proof.
  unfold intersection. rewrite filter_In, existsb_exists. split.
  - intros [Ha [y [Hy E]]]. apply Z.eqb_eq in E. subst y. auto.
  - intros [Ha Hb]. split; [exact Ha |]. exists x. split; [exact Hb |].
    apply Z.eqb_refl.
Qed.

Lemma In_difference (a b : list Z) (x : Z) :
  In x (difference a b) <-> In x a /\ ~ In x b.
Proof.
  unfold difference. rewrite filter_In, negb_true_iff. split.
  - intros [Ha E]. split; [exact Ha |]. intros Hb.
    assert (T : existsb (Z.eqb x) b = true).
    { apply existsb_exists. exists x. split; [exact Hb | apply Z.eqb_refl]. }
    congruence.
  - intros [Ha Hb]. split; [exact Ha |].
    destruct (existsb (Z.eqb x) b) eqn:E; [| reflexivity].
    apply existsb_exists in E as [y [Hy E]]. apply Z.eqb_eq in E. subst y.
    contradiction.
Qed.

Lemma argwhere_In (mask : list bool) (i : nat) :
  In i (Np.argwhere mask) <-> nth i mask false = true.
Proof.
  unfold Np.argwhere. rewrite filter_In, in_seq. split; [tauto |].
  intros H. split; [| exact H].
  destruct (Nat.lt_ge_cases i (length mask)) as [L | G]; [lia |].
  rewrite nth_overflow in H by exact G. discriminate.
Qed.

(** The positions found from one entrance: the remaining [JUMPDEST]s that
    a pushed value reaches from it. *)
Lemma found_from_entrance (push_data jumpdest_indices : list Z) (bias : nat)
  (x : Z) :
  In x (map (fun v => (v + Z.of_nat bias)%Z)
          (intersection (set_of push_data)
             (set_of (map (fun j => (j - Z.of_nat bias)%Z) jumpdest_indices))))
  <-> In x jumpdest_indices /\ In (x - Z.of_nat bias)%Z push_data.
Proof.
  rewrite in_map_iff. split.
  - intros [v [<- Hv]]. apply In_intersection in Hv as [Hp Hj].
    apply (proj1 (In_set_of _ _)) in Hp. apply (proj1 (In_set_of _ _)) in Hj.
    apply in_map_iff in Hj as [j [<- Hj]].
    replace (j - Z.of_nat bias + Z.of_nat bias)%Z with j by lia.
    split; [exact Hj | exact Hp].
  - intros [Hj Hp]. exists (x - Z.of_nat bias)%Z. split; [lia |].
    apply In_intersection. split; apply In_set_of; [exact Hp |].
    apply in_map_iff. exists x. auto.
Qed.

Lemma mark_positions (js : list Z) :
  forall mask,
    (forall j, In j js -> (0 <= j)%Z /\ Z.to_nat j < length mask) ->
    exists out,
      for_each js (fun m j => setitem m (Z.to_nat j) true) mask = Ok out /\
      length out = length mask /\
      forall p, nth p out false = true
                <-> nth p mask false = true \/ In (Z.of_nat p) js.
Proof.
  induction js as [| j js IH]; intros mask H.
  - exists mask. split; [reflexivity |]. split; [reflexivity |].
    intros p. cbn. tauto.
  - destruct (H j (or_introl eq_refl)) as [Hj0 Hj].
    destruct (setitem_spec mask true false (Z.to_nat j) Hj) as [mask' [E [L' N']]].
    destruct (IH mask') as [out [Eo [Lo No]]].
    { intros j' Hj'. rewrite L'. apply H. right. exact Hj'. }
    exists out. cbn [for_each]. rewrite E. cbn [bind].
    split; [exact Eo |]. split; [lia |].
    intros p. rewrite No, N'. cbn [In].
    destruct (Nat.eqb_spec p (Z.to_nat j)) as [-> | Hne].
    + split; [intros _ | tauto]. right. left. lia.
    + split.
      * intros [Hm | Hin]; [left; exact Hm | right; right; exact Hin].
      * intros [Hm | [Hjp | Hin]]; [left; exact Hm | | right; exact Hin].
        exfalso. apply Hne. subst j. now rewrite Nat2Z.id.
Qed.

Lemma reached_app (push_data : list Z) (done : list nat) (bias : nat) (x : Z) :
  reached push_data (done ++ [bias]) x
  <-> reached push_data done x \/ In (x - Z.of_nat bias)%Z push_data.
Proof.
  unfold reached. split.
  - intros [e [He Hp]]. apply in_app_or in He as [He | [<- | []]]; eauto.
  - intros [[e [He Hp]] | Hp].
    + exists e. split; [apply in_or_app; left; exact He | exact Hp].
    + exists bias. split; [apply in_or_app; right; left; reflexivity | exact Hp].
Qed.

(** The marking loop of [_tag_valid_jumpdests_to_starting_points]: a
    position taken from a [float64] array stops it with an [IndexError]. *)
Lemma mark_positions_typed (d : Np.dtype) (from_push_data : bool) (js : list Z)
  (mask : list bool) :
  for_each js
    (fun m j =>
       match d, from_push_data with
       | Np.float64, true => Raise IndexError
       | _, _ => setitem m (Z.to_nat j) true
       end) mask
  = match d, from_push_data, js with
    | Np.float64, true, _ :: _ => Raise IndexError
    | Np.float64, true, [] => Ok mask
    | _, _, _ => for_each js (fun m j => setitem m (Z.to_nat j) true) mask
    end.
Proof. destruct d, from_push_data, js; reflexivity. Qed.

Lemma mark_positions_outcome (d : Np.dtype) (from_push_data : bool)
  (js : list Z) (mask : list bool) :
  (forall j, In j js -> (0 <= j)%Z /\ Z.to_nat j < length mask) ->
  (exists out,
     for_each js
       (fun m j =>
          match d, from_push_data with
          | Np.float64, true => Raise IndexError
          | _, _ => setitem m (Z.to_nat j) true
          end) mask = Ok out /\
     length out = length mask /\
     forall p, nth p out false = true
               <-> nth p mask false = true \/ In (Z.of_nat p) js) \/
  (for_each js
     (fun m j =>
        match d, from_push_data with
        | Np.float64, true => Raise IndexError
        | _, _ => setitem m (Z.to_nat j) true
        end) mask = Raise IndexError /\
   d = Np.float64 /\ from_push_data = true /\ js <> []).
Proof.
  intros H. rewrite mark_positions_typed.
  destruct d; try (left; exact (mark_positions js mask H)).
  destruct from_push_data; [| left; exact (mark_positions js mask H)].
  destruct js as [| j js].
  - left. exists mask. split; [reflexivity |]. split; [reflexivity |].
    intros p. cbn. tauto.
  - right. repeat split; try reflexivity. discriminate.
Qed.

(** The loop over the entrances: it ends with the reached [JUMPDEST]s
    marked, or with the [IndexError] of a [float64] position. *)
Lemma reach_loop (len : nat) (push_data : Np.ndarray) (jumpdests : list Z)
  (todo : list nat) :
  (forall x, In x jumpdests -> (0 <= x)%Z /\ Z.to_nat x < len) ->
  forall done st,
    reach_state len (Np.tolist push_data) jumpdests done st ->
    (exists st',
       for_each todo
         (fun (st : list bool * list Z) bias =>
            let (valid_jumpdest_mask, jumpdest_indices) := st in
            let pushed := set_of (Np.tolist push_data) in
            let shifted :=
              set_of (map (fun j => (j - Z.of_nat bias)%Z) jumpdest_indices) in
            let from_push_data := length pushed <? length shifted in
            let valid_jumpdests :=
              map (fun v => (v + Z.of_nat bias)%Z) (intersection pushed shifted) in
            mask <- for_each valid_jumpdests
                      (fun m j =>
                         match Np.dtype_of push_data, from_push_data with
                         | Np.float64, true => Raise IndexError
                         | _, _ => setitem m (Z.to_nat j) true
                         end)
                      valid_jumpdest_mask ;;
            Ok (mask, difference (set_of jumpdest_indices)
                        (set_of valid_jumpdests)))
         st
       = Ok st' /\
       reach_state len (Np.tolist push_data) jumpdests (done ++ todo) st') \/
    (for_each todo
       (fun (st : list bool * list Z) bias =>
          let (valid_jumpdest_mask, jumpdest_indices) := st in
          let pushed := set_of (Np.tolist push_data) in
          let shifted :=
            set_of (map (fun j => (j - Z.of_nat bias)%Z) jumpdest_indices) in
          let from_push_data := length pushed <? length shifted in
          let valid_jumpdests :=
            map (fun v => (v + Z.of_nat bias)%Z) (intersection pushed shifted) in
          mask <- for_each valid_jumpdests
                    (fun m j =>
                       match Np.dtype_of push_data, from_push_data with
                       | Np.float64, true => Raise IndexError
                       | _, _ => setitem m (Z.to_nat j) true
                       end)
                    valid_jumpdest_mask ;;
          Ok (mask, difference (set_of jumpdest_indices)
                      (set_of valid_jumpdests)))
       st
     = Raise IndexError /\
     Np.dtype_of push_data = Np.float64).
Proof.
  intros Hrange. induction todo as [| bias todo IH]; intros done st Hst.
  - left. exists st. split; [reflexivity |]. now rewrite app_nil_r.
  - destruct st as [vm J]. destruct Hst as [L [HJ Hvm]]. cbn [fst snd] in *.
    cbn [for_each]. cbv zeta.
    set (valid := map (fun v => (v + Z.of_nat bias)%Z)
                    (intersection (set_of (Np.tolist push_data))
                       (set_of (map (fun j => (j - Z.of_nat bias)%Z) J)))).
    assert (Hvalid : forall x, In x valid
                               <-> In x J /\
                                   In (x - Z.of_nat bias)%Z (Np.tolist push_data))
      by (intros x; apply found_from_entrance).
    destruct (mark_positions_outcome (Np.dtype_of push_data)
                (length (set_of (Np.tolist push_data))
                 <? length (set_of (map (fun j => (j - Z.of_nat bias)%Z) J)))
                valid vm)
      as [[vm' [E [L' N']]] | [E [D _]]].
    { intros j Hj. apply Hvalid in Hj as [Hj _]. apply HJ in Hj as [Hj _].
      rewrite L. apply Hrange. exact Hj. }
    + rewrite E. cbn [bind].
      replace (done ++ bias :: todo) with ((done ++ [bias]) ++ todo)
        by (rewrite <- app_assoc; reflexivity).
      apply IH. split; [cbn [fst]; lia |]. cbn [fst snd]. split.
      * intros x. rewrite In_difference, !In_set_of, Hvalid, HJ, reached_app.
        tauto.
      * intros p. rewrite N', Hvalid, HJ, reached_app.
        destruct (nth p vm false) eqn:V.
        -- pose proof (proj1 (Hvm p) V). tauto.
        -- assert (Hn : ~ (In (Z.of_nat p) jumpdests /\
                           reached (Np.tolist push_data) done (Z.of_nat p))).
           { intros Hc. apply Hvm in Hc. congruence. }
           split; [| tauto]. intros [Hc | Hc]; [discriminate Hc | tauto].
    + right. rewrite E. split; [reflexivity | exact D].
Qed.

Lemma argwhere_positions (mask : list bool) :
  (forall p, In (Z.of_nat p) (map Z.of_nat (Np.argwhere mask))
             <-> nth p mask false = true) /\
  NoDup (map Z.of_nat (Np.argwhere mask)) /\
  forall x, In x (map Z.of_nat (Np.argwhere mask)) ->
            (0 <= x)%Z /\ Z.to_nat x < length mask.
Proof.
  split; [| split].
  - intros p. rewrite in_map_iff, <- argwhere_In. split.
    + intros [q [Hq Hin]]. apply Nat2Z.inj in Hq. now subst q.
    + intros Hin. exists p. auto.
  - apply NoDup_map_NoDup_ForallPairs.
    + intros x y _ _ H. apply Nat2Z.inj. exact H.
    + unfold Np.argwhere. apply NoDup_filter, seq_NoDup.
  - intros x Hx. apply in_map_iff in Hx as [q [<- Hq]].
    rewrite Nat2Z.id. split; [lia |].
    unfold Np.argwhere in Hq. apply filter_In in Hq as [Hq _].
    apply in_seq in Hq. lia.
Qed.

Lemma tag_valid_jumpdests_outcome (machine_code : list Z)
  (starting_points_mask push_data_mask jumpdests_mask : list bool)
  (push_data : Np.ndarray) :
  _get_push_data machine_code push_data_mask = Ok push_data ->
  length jumpdests_mask <= length machine_code ->
  (exists valid,
     _tag_valid_jumpdests_to_starting_points machine_code starting_points_mask
       push_data_mask jumpdests_mask = Ok valid /\
     length valid = length machine_code /\
     forall p,
       nth p valid false = true
       <-> nth p jumpdests_mask false = true /\
           exists e,
             nth e starting_points_mask false = true /\
             In (Z.of_nat p - Z.of_nat e)%Z (Np.tolist push_data)) \/
  (_tag_valid_jumpdests_to_starting_points machine_code starting_points_mask
     push_data_mask jumpdests_mask = Raise IndexError /\
   Np.dtype_of push_data = Np.float64).
Proof.
  intros Hpd Hlen. unfold _tag_valid_jumpdests_to_starting_points.
  rewrite Hpd. cbn [bind]. cbv zeta.
  destruct (argwhere_positions jumpdests_mask) as [HJ [_ Hrange]].
  set (jumpdests := map Z.of_nat (Np.argwhere jumpdests_mask)) in *.
  destruct (reach_loop (length machine_code) push_data jumpdests
              (Np.argwhere starting_points_mask)) with
    (done := @nil nat) (st := (repeat false (length machine_code), jumpdests))
    as [[[valid J] [E [L [_ Hv]]]] | [E D]].
  - intros x Hx. specialize (Hrange x Hx). lia.
  - split; [cbn [fst]; apply repeat_length |]. cbn [fst snd]. split.
    + intros x. split; [| tauto]. intros Hx. split; [exact Hx |].
      unfold reached. intros [e [[] _]].
    + intros p. rewrite nth_repeat_false. split; [discriminate |].
      unfold reached. intros [_ [e [[] _]]].
  - left. cbn [app] in *. cbv zeta in E. rewrite E. cbn [bind fst].
    exists valid.
    split; [reflexivity |]. cbn [fst] in L, Hv. split; [exact L |].
    intros p. rewrite Hv, HJ. unfold reached.
    split; intros [Hj [e [He Hp]]]; (split; [exact Hj |]); exists e;
      (split; [apply argwhere_In; exact He || (apply argwhere_In in He; exact He)
              | exact Hp]).
  - right. cbv zeta in E. rewrite E. split; [reflexivity | exact D].
Qed.

(** When it returns, it returns the mask of the reached [JUMPDEST]s. *)
Lemma tag_valid_jumpdests_spec (machine_code : list Z)
  (starting_points_mask push_data_mask jumpdests_mask : list bool)
  (push_data : Np.ndarray) (valid : list bool) :
  _get_push_data machine_code push_data_mask = Ok push_data ->
  length jumpdests_mask <= length machine_code ->
  _tag_valid_jumpdests_to_starting_points machine_code starting_points_mask
    push_data_mask jumpdests_mask = Ok valid ->
  length valid = length machine_code /\
  forall p,
    nth p valid false = true
    <-> nth p jumpdests_mask false = true /\
        exists e,
          nth e starting_points_mask false = true /\
          In (Z.of_nat p - Z.of_nat e)%Z (Np.tolist push_data).
Proof.
  intros Hpd Hlen H.
  destruct (tag_valid_jumpdests_outcome machine_code starting_points_mask
              push_data_mask jumpdests_mask push_data Hpd Hlen)
    as [[valid' [E Hv]] | [E _]]; rewrite E in H; [| discriminate H].
  injection H as <-. exact Hv.
Qed.

(** At the first entrance: with fewer pushed values than [JUMPDEST]s, a
    [JUMPDEST] reached from it is an entry of the [float64] array. *)
Lemma tag_valid_jumpdests_float (machine_code : list Z)
  (starting_points_mask push_data_mask jumpdests_mask : list bool)
  (push_data : Np.ndarray) (e0 : nat) (rest : list nat) :
  _get_push_data machine_code push_data_mask = Ok push_data ->
  Np.argwhere starting_points_mask = e0 :: rest ->
  Np.dtype_of push_data = Np.float64 ->
  length (set_of (Np.tolist push_data)) < length (Np.argwhere jumpdests_mask) ->
  (exists p,
     nth p jumpdests_mask false = true /\
     In (Z.of_nat p - Z.of_nat e0)%Z (Np.tolist push_data)) ->
  _tag_valid_jumpdests_to_starting_points machine_code starting_points_mask
    push_data_mask jumpdests_mask = Raise IndexError.
Proof.
  intros Hpd Hs D Hlt [p [Hp Hin]].
  unfold _tag_valid_jumpdests_to_starting_points.
  rewrite Hpd. cbn [bind]. cbv zeta. rewrite Hs. cbn [for_each].
  destruct (argwhere_positions jumpdests_mask) as [HJ [Hnd _]].
  set (jumpdests := map Z.of_nat (Np.argwhere jumpdests_mask)) in *.
  rewrite mark_positions_typed, D.
  assert (Hsize : length (set_of (map (fun j => (j - Z.of_nat e0)%Z) jumpdests))
                  = length (Np.argwhere jumpdests_mask)).
  { unfold set_of. rewrite nodup_fixed_point.
    - unfold jumpdests. now rewrite !length_map.
    - apply NoDup_map_NoDup_ForallPairs; [| exact Hnd].
      intros x y _ _ H. lia. }
  rewrite Hsize. apply Nat.ltb_lt in Hlt. rewrite Hlt.
  destruct (map (fun v => (v + Z.of_nat e0)%Z)
              (intersection (set_of (Np.tolist push_data))
                 (set_of (map (fun j => (j - Z.of_nat e0)%Z) jumpdests))))
    as [| j js] eqn:V; [| reflexivity].
  exfalso.
  assert (Hv : In (Z.of_nat p)
                 (map (fun v => (v + Z.of_nat e0)%Z)
                    (intersection (set_of (Np.tolist push_data))
                       (set_of (map (fun j => (j - Z.of_nat e0)%Z) jumpdests))))).
  { apply found_from_entrance. split; [apply HJ; exact Hp | exact Hin]. }
  rewrite V in Hv. destruct Hv.
Qed.

Lemma logical_xor_pointwise (a b : list bool) :
  length a = length b ->
  exists x,
    Np.logical_xor a b = Ok x /\
    length x = length a /\
    forall i, nth i x false = xorb (nth i a false) (nth i b false).
Proof.
  intros H. unfold Np.logical_xor. apply Nat.eqb_eq in H as H'. rewrite H'.
  eexists. split; [reflexivity |]. split.
  - rewrite length_map, length_combine. lia.
  - clear H'. revert b H.
    induction a as [| x a IH]; intros [| y b] H i; try discriminate.
    + destruct i; reflexivity.
    + destruct i as [| i]; [reflexivity |]. cbn [combine map nth].
      apply IH. now injection H.
Qed.

Lemma logical_xor_value_error (a b : list bool) :
  length a <> length b -> 1 < length a -> 1 < length b ->
  Np.logical_xor a b = Raise ValueError.
Proof.
  intros H La Lb. unfold Np.logical_xor.
  apply Nat.eqb_neq in H. rewrite H.
  destruct a as [| x [| x' a]]; try (cbn in La; lia).
  destruct b as [| y [| y' b]]; try (cbn in Lb; lia).
  reflexivity.
Qed.

Lemma validate_segment_jumpdests_spec (machine_code : list Z)
  (segments : list nat)
  (push_data_mask jumpdests_mask contract_entrance_mask : list bool)
  (push_data : Np.ndarray) (out : list bool) :
  _get_push_data machine_code push_data_mask = Ok push_data ->
  length jumpdests_mask = length machine_code ->
  validate_segment_jumpdests machine_code segments push_data_mask
    jumpdests_mask contract_entrance_mask = Ok out ->
  length out = length segments /\
  forall i,
    i < length segments ->
    (nth i out true = false
     <-> exists j,
           j < length segments /\
           nth j segments 0 = nth i segments 0 /\
           nth j jumpdests_mask false = true /\
           ~ exists e,
               nth e contract_entrance_mask false = true /\
               In (Z.of_nat j - Z.of_nat e)%Z (Np.tolist push_data)).
Proof.
  intros Hpd Lj H. unfold validate_segment_jumpdests in H.
  bind_inv H. rename x into valid.
  destruct (tag_valid_jumpdests_spec machine_code contract_entrance_mask
              push_data_mask jumpdests_mask push_data valid Hpd ltac:(lia) E)
    as [Lv Hv].
  destruct (logical_xor_pointwise jumpdests_mask valid ltac:(lia))
    as [x [Ex [Lx Nx]]].
  rewrite Ex in H. cbn [bind] in H.
  apply tag_valid_segments_spec in H as [_ [Lo Ho]].
  split; [exact Lo |]. intros i Hi. rewrite (Ho i Hi).
  assert (X : forall j,
            nth j x false = true
            <-> nth j jumpdests_mask false = true /\
                ~ exists e,
                    nth e contract_entrance_mask false = true /\
                    In (Z.of_nat j - Z.of_nat e)%Z (Np.tolist push_data)).
  { intros j. rewrite Nx.
    pose proof (Hv j) as Hvj.
    destruct (nth j jumpdests_mask false), (nth j valid false); cbn [xorb].
    - split; [discriminate |]. intros [_ Hn]. exfalso. apply Hn.
      exact (proj2 (proj1 Hvj eq_refl)).
    - split; [| reflexivity]. intros _. split; [reflexivity |]. intros He.
      assert (C : false = true) by (apply Hvj; split; [reflexivity | exact He]).
      discriminate C.
    - destruct (proj1 Hvj eq_refl) as [C _]. discriminate C.
    - split; [discriminate |]. intros [C _]. discriminate C. }
  split.
  - intros [j [Hj [Hx Hs]]]. apply X in Hx as [Hjd Hn]. exists j. auto.
  - intros [j [Hj [Hs [Hjd Hn]]]]. exists j. split; [exact Hj |].
    split; [apply X; auto | exact Hs].
Qed.

Lemma validate_segment_jumpdests_outcome (machine_code : list Z)
  (segments : list nat)
  (push_data_mask jumpdests_mask contract_entrance_mask : list bool)
  (push_data : Np.ndarray) :
  _get_push_data machine_code push_data_mask = Ok push_data ->
  length jumpdests_mask = length machine_code ->
  length segments <= length machine_code ->
  (exists out,
     validate_segment_jumpdests machine_code segments push_data_mask
       jumpdests_mask contract_entrance_mask = Ok out) \/
  (validate_segment_jumpdests machine_code segments push_data_mask
     jumpdests_mask contract_entrance_mask = Raise IndexError /\
   Np.dtype_of push_data = Np.float64).
Proof.
  intros Hpd Lj Ls. unfold validate_segment_jumpdests.
  destruct (tag_valid_jumpdests_outcome machine_code contract_entrance_mask
              push_data_mask jumpdests_mask push_data Hpd ltac:(lia))
    as [[valid [E [Lv _]]] | [E D]].
  - left. rewrite E. cbn [bind].
    destruct (logical_xor_pointwise jumpdests_mask valid ltac:(lia))
      as [x [Ex [Lx _]]].
    rewrite Ex. cbn [bind].
    apply tag_valid_segments_total. lia.
  - right. rewrite E. split; [reflexivity | exact D].
Qed.

Lemma validate_segment_jumpdests_value_error (machine_code : list Z)
  (segments : list nat)
  (push_data_mask jumpdests_mask contract_entrance_mask : list bool)
  (push_data : Np.ndarray) :
  _get_push_data machine_code push_data_mask = Ok push_data ->
  1 < length jumpdests_mask ->
  length jumpdests_mask < length machine_code ->
  validate_segment_jumpdests machine_code segments push_data_mask
    jumpdests_mask contract_entrance_mask = Raise ValueError \/
  (validate_segment_jumpdests machine_code segments push_data_mask
     jumpdests_mask contract_entrance_mask = Raise IndexError /\
   Np.dtype_of push_data = Np.float64).
Proof.
  intros Hpd L1 L2. unfold validate_segment_jumpdests.
  destruct (tag_valid_jumpdests_outcome machine_code contract_entrance_mask
              push_data_mask jumpdests_mask push_data Hpd ltac:(lia))
    as [[valid [E [Lv _]]] | [E D]].
  - left. rewrite E. cbn [bind].
    rewrite logical_xor_value_error by lia. reflexivity.
  - right. rewrite E. split; [reflexivity | exact D].
Qed.

End Reachable.

(** X19.  When [_get_push_data] returns and the [JUMPDEST] mask is no
    longer than the bytecode, [_tag_valid_jumpdests_to_starting_points]
    either returns or raises [IndexError], the latter only for a [float64]
    array of pushed values.  When it returns, the mask has the length of the
    bytecode and marks exactly the [JUMPDEST] positions [p] for which some
    entrance [e] has [p - e] among the entries of the array.  It raises
    when the array is a [float64] array with fewer distinct entries than
    there are [JUMPDEST]s and one of them reaches a [JUMPDEST] from the
    first entrance. *)
Theorem tag_valid_jumpdests_reachable (machine_code : list Z)
  (starting_points_mask push_data_mask jumpdests_mask : list bool)
  (push_data : Np.ndarray) :
  Analyzer._get_push_data machine_code push_data_mask = Ok push_data ->
  length jumpdests_mask <= length machine_code ->
  ((exists valid,
      Analyzer._tag_valid_jumpdests_to_starting_points machine_code
        starting_points_mask push_data_mask jumpdests_mask = Ok valid) \/
   (Analyzer._tag_valid_jumpdests_to_starting_points machine_code
      starting_points_mask push_data_mask jumpdests_mask = Raise IndexError /\
    Np.dtype_of push_data = Np.float64)) /\
  (forall valid,
     Analyzer._tag_valid_jumpdests_to_starting_points machine_code
       starting_points_mask push_data_mask jumpdests_mask = Ok valid ->
     length valid = length machine_code /\
     forall p,
       nth p valid false = true
       <-> nth p jumpdests_mask false = true /\
           exists e,
             nth e starting_points_mask false = true /\
             In (Z.of_nat p - Z.of_nat e)%Z (Np.tolist push_data)) /\
  (forall e0 rest,
     Np.argwhere starting_points_mask = e0 :: rest ->
     Np.dtype_of push_data = Np.float64 ->
     length (Analyzer.set_of (Np.tolist push_data))
     < length (Np.argwhere jumpdests_mask) ->
     (exists p,
        nth p jumpdests_mask false = true /\
        In (Z.of_nat p - Z.of_nat e0)%Z (Np.tolist push_data)) ->
     Analyzer._tag_valid_jumpdests_to_starting_points machine_code
       starting_points_mask push_data_mask jumpdests_mask = Raise IndexError).
Proof.
  intros Hpd Hlen. split; [| split].
  - destruct (tag_valid_jumpdests_outcome machine_code starting_points_mask
                push_data_mask jumpdests_mask push_data Hpd Hlen)
      as [[valid [E _]] | H]; [left; exists valid; exact E | right; exact H].
  - intros valid H.
    exact (tag_valid_jumpdests_spec machine_code starting_points_mask
             push_data_mask jumpdests_mask push_data valid Hpd Hlen H).
  - intros e0 rest.
    exact (tag_valid_jumpdests_float machine_code starting_points_mask
             push_data_mask jumpdests_mask push_data e0 rest Hpd).
Qed.

Lemma tag_valid_jumpdests_reachable_witness :
  Analyzer._get_push_data [96; 3; 86; 91; 0]%Z [false; true; false; false; false]
  = Ok {| Np.dtype_of := Np.int64; Np.tolist := [3%Z] |} /\
  length [false; false; false; true; false] <= length [96; 3; 86; 91; 0]%Z /\
  Analyzer._tag_valid_jumpdests_to_starting_points [96; 3; 86; 91; 0]%Z
    [true; false; false; false; false] [false; true; false; false; false]
    [false; false; false; true; false]
  = Ok [false; false; false; true; false] /\
  length [false; false; false; true; false] = length [96; 3; 86; 91; 0]%Z /\
  forall p,
    nth p [false; false; false; true; false] false = true
    <-> nth p [false; false; false; true; false] false = true /\
        exists e,
          nth e [true; false; false; false; false] false = true /\
          In (Z.of_nat p - Z.of_nat e)%Z
            (Np.tolist {| Np.dtype_of := Np.int64; Np.tolist := [3%Z] |}).
Proof.
  assert (L : length [false; false; false; true; false]
              <= length [96; 3; 86; 91; 0]%Z) by (cbn; lia).
  split; [reflexivity |]. split; [exact L |]. split; [reflexivity |].
  exact (proj1 (proj2 (tag_valid_jumpdests_reachable [96; 3; 86; 91; 0]%Z
                         [true; false; false; false; false]
                         [false; true; false; false; false]
                         [false; false; false; true; false]
                         {| Np.dtype_of := Np.int64; Np.tolist := [3%Z] |}
                         eq_refl L))
           [false; false; false; true; false] eq_refl).
Defined.

(** On [PUSH1 3; JUMP; JUMPDEST; JUMPDEST; JUMPDEST;
    PUSH8 0x8000000000000001; STOP] the pushed values 3 and 2^63 + 1 make a
    [float64] array of two entries, there are three [JUMPDEST]s, and the
    [JUMPDEST] at 3 is reached from the entrance 0 by the entry 3.0:
    [_tag_valid_jumpdests_to_starting_points] raises [IndexError], and
    [analyze] with it. *)
Lemma tag_valid_jumpdests_float_index :
  Analyzer._get_push_data
    [96; 3; 86; 91; 91; 91; 103; 128; 0; 0; 0; 0; 0; 0; 1; 0]%Z
    [false; true; false; false; false; false; false; true; true; true; true;
     true; true; true; true; false]
  = Ok {| Np.dtype_of := Np.float64;
          Np.tolist := [3; 9223372036854775808]%Z |} /\
  Analyzer._tag_valid_jumpdests_to_starting_points
    [96; 3; 86; 91; 91; 91; 103; 128; 0; 0; 0; 0; 0; 0; 1; 0]%Z
    [true; false; false; false; false; false; false; false; false; false;
     false; false; false; false; false; false]
    [false; true; false; false; false; false; false; true; true; true; true;
     true; true; true; true; false]
    [false; false; false; true; true; true; false; false; false; false; false;
     false; false; false; false; false]
  = Raise IndexError /\
  forall fuel,
    Ethertracer.analyze Opcodes.evm (3 + fuel)
      [96; 3; 86; 91; 91; 91; 103; 128; 0; 0; 0; 0; 0; 0; 1; 0]%Z
    = Raise IndexError.
Proof.
  split; [vm_compute; reflexivity |]. split; [vm_compute; reflexivity |].
  intros fuel. destruct fuel; vm_compute; reflexivity.
Qed.

(** X20.  When [_get_push_data] returns and the segment vector is no longer
    than the bytecode: for a [JUMPDEST] mask of the length of the bytecode
    [validate_segment_jumpdests] either returns or raises the [IndexError]
    of a [float64] array of pushed values, and when it returns a position is
    marked invalid exactly when its segment holds a [JUMPDEST] that no
    entrance reaches by an entry of the array; for a shorter [JUMPDEST] mask
    of more than one entry it raises, a [ValueError] unless it is that
    [IndexError]. *)
Theorem validate_segment_jumpdests_unreached (machine_code : list Z)
  (segments : list nat)
  (push_data_mask jumpdests_mask contract_entrance_mask : list bool)
  (push_data : Np.ndarray) :
  Analyzer._get_push_data machine_code push_data_mask = Ok push_data ->
  length segments <= length machine_code ->
  (length jumpdests_mask = length machine_code ->
   ((exists out,
       Analyzer.validate_segment_jumpdests machine_code segments push_data_mask
         jumpdests_mask contract_entrance_mask = Ok out) \/
    (Analyzer.validate_segment_jumpdests machine_code segments push_data_mask
       jumpdests_mask contract_entrance_mask = Raise IndexError /\
     Np.dtype_of push_data = Np.float64)) /\
   forall out,
     Analyzer.validate_segment_jumpdests machine_code segments push_data_mask
       jumpdests_mask contract_entrance_mask = Ok out ->
     length out = length segments /\
     forall i,
       i < length segments ->
       (nth i out true = false
        <-> exists j,
              j < length segments /\
              nth j segments 0 = nth i segments 0 /\
              nth j jumpdests_mask false = true /\
              ~ exists e,
                  nth e contract_entrance_mask false = true /\
                  In (Z.of_nat j - Z.of_nat e)%Z (Np.tolist push_data))) /\
  (1 < length jumpdests_mask ->
   length jumpdests_mask < length machine_code ->
   Analyzer.validate_segment_jumpdests machine_code segments push_data_mask
     jumpdests_mask contract_entrance_mask = Raise ValueError \/
   (Analyzer.validate_segment_jumpdests machine_code segments push_data_mask
      jumpdests_mask contract_entrance_mask = Raise IndexError /\
    Np.dtype_of push_data = Np.float64)).
Proof.
  intros Hpd Ls. split.
  - intros Lj. split.
    + exact (validate_segment_jumpdests_outcome machine_code segments
               push_data_mask jumpdests_mask contract_entrance_mask push_data
               Hpd Lj Ls).
    + intros out H.
      exact (validate_segment_jumpdests_spec machine_code segments
               push_data_mask jumpdests_mask contract_entrance_mask push_data
               out Hpd Lj H).
  - exact (validate_segment_jumpdests_value_error machine_code segments
             push_data_mask jumpdests_mask contract_entrance_mask push_data Hpd).
Qed.

Lemma validate_segment_jumpdests_unreached_witness :
  Analyzer._get_push_data [96; 3; 86; 91; 0; 91]%Z
    [false; true; false; false; false; false]
  = Ok {| Np.dtype_of := Np.int64; Np.tolist := [3%Z] |} /\
  length [0; 0; 0; 1; 1; 2] <= length [96; 3; 86; 91; 0; 91]%Z /\
  length [false; false; false; true; false; true]
  = length [96; 3; 86; 91; 0; 91]%Z /\
  Analyzer.validate_segment_jumpdests [96; 3; 86; 91; 0; 91]%Z
    [0; 0; 0; 1; 1; 2] [false; true; false; false; false; false]
    [false; false; false; true; false; true]
    [true; false; false; false; false; false]
  = Ok [true; true; true; true; true; false] /\
  length [true; true; true; true; true; false] = length [0; 0; 0; 1; 1; 2] /\
  forall i,
    i < length [0; 0; 0; 1; 1; 2] ->
    (nth i [true; true; true; true; true; false] true = false
     <-> exists j,
           j < length [0; 0; 0; 1; 1; 2] /\
           nth j [0; 0; 0; 1; 1; 2] 0 = nth i [0; 0; 0; 1; 1; 2] 0 /\
           nth j [false; false; false; true; false; true] false = true /\
           ~ exists e,
               nth e [true; false; false; false; false; false] false = true /\
               In (Z.of_nat j - Z.of_nat e)%Z
                 (Np.tolist {| Np.dtype_of := Np.int64; Np.tolist := [3%Z] |})).
Proof.
  assert (L1 : length [false; false; false; true; false; true]
               = length [96; 3; 86; 91; 0; 91]%Z) by reflexivity.
  assert (L2 : length [0; 0; 0; 1; 1; 2] <= length [96; 3; 86; 91; 0; 91]%Z)
    by (cbn; lia).
  split; [reflexivity |]. split; [exact L2 |]. split; [exact L1 |].
  split; [reflexivity |].
  exact (proj2 (proj1 (validate_segment_jumpdests_unreached
                         [96; 3; 86; 91; 0; 91]%Z
                         [0; 0; 0; 1; 1; 2]
                         [false; true; false; false; false; false]
                         [false; false; false; true; false; true]
                         [true; false; false; false; false; false]
                         {| Np.dtype_of := Np.int64; Np.tolist := [3%Z] |}
                         eq_refl L2) L1)
           [true; true; true; true; true; false] eq_refl).
Defined.

(** ** The entrance finder *)

Section EntranceFinder.

Import Analyzer.

Lemma argmax_loop_spec (rest : list nat) :
  forall pre best_i best,
    best_i < length pre ->
    nth best_i pre 0 = best ->
    (forall j, j < length pre ->
               nth j pre 0 <= best /\ (j < best_i -> nth j pre 0 < best)) ->
    Np.argmax_loop rest (length pre) best_i best < length (pre ++ rest) /\
    forall j,
      j < length (pre ++ rest) ->
      nth j (pre ++ rest) 0
      <= nth (Np.argmax_loop rest (length pre) best_i best) (pre ++ rest) 0 /\
      (j < Np.argmax_loop rest (length pre) best_i best ->
       nth j (pre ++ rest) 0
       < nth (Np.argmax_loop rest (length pre) best_i best) (pre ++ rest) 0).
Proof.
  induction rest as [| x rest IH]; intros pre best_i best Hi Hb Hmax.
  - cbn [Np.argmax_loop]. rewrite app_nil_r. split; [exact Hi |].
    intros j Hj. rewrite Hb. apply Hmax. exact Hj.
  - cbn [Np.argmax_loop].
    assert (Hlen : S (length pre) = length (pre ++ [x]))
      by (rewrite length_app; cbn; lia).
    assert (Happ : pre ++ x :: rest = (pre ++ [x]) ++ rest)
      by (rewrite <- app_assoc; reflexivity).
    assert (Hold : forall j, j < length pre -> nth j (pre ++ [x]) 0 = nth j pre 0)
      by (intros j Hj; apply app_nth1; exact Hj).
    assert (Hnew : nth (length pre) (pre ++ [x]) 0 = x)
      by (rewrite app_nth2, Nat.sub_diag by lia; reflexivity).
    rewrite Happ, Hlen. destruct (Nat.ltb_spec best x) as [L | G].
    + apply IH; [lia | exact Hnew |].
      intros j Hj. rewrite <- Hlen in Hj.
      destruct (Nat.eq_dec j (length pre)) as [-> | Hne].
      * rewrite Hnew. lia.
      * rewrite Hold by lia. destruct (Hmax j ltac:(lia)). lia.
    + apply IH; [lia | rewrite Hold by lia; exact Hb |].
      intros j Hj. rewrite <- Hlen in Hj.
      destruct (Nat.eq_dec j (length pre)) as [-> | Hne].
      * rewrite Hnew. lia.
      * rewrite Hold by lia. apply Hmax. lia.
Qed.

(** [argmax] is the first position of a greatest entry. *)
Lemma argmax_spec (l : list nat) (i : nat) :
  Np.argmax l = Ok i ->
  i < length l /\
  forall j, j < length l ->
            nth j l 0 <= nth i l 0 /\ (j < i -> nth j l 0 < nth i l 0).
Proof.
  destruct l as [| x rest]; [discriminate |]. cbn [Np.argmax].
  intros H. injection H as <-.
  apply (argmax_loop_spec rest [x] 0 x); [cbn; lia | reflexivity |].
  intros [| j] Hj; [cbn; lia | cbn in Hj; lia].
Qed.

Lemma fold_max_spec (rest : list nat) :
  forall x,
    x <= fold_left Nat.max rest x /\
    (forall y, In y rest -> y <= fold_left Nat.max rest x) /\
    (fold_left Nat.max rest x = x \/ In (fold_left Nat.max rest x) rest).
Proof.
  induction rest as [| y rest IH]; intros x; cbn [fold_left].
  - split; [lia |]. split; [intros y [] | left; reflexivity].
  - destruct (IH (Nat.max x y)) as [H1 [H2 H3]]. split; [lia |]. split.
    + intros z [<- | Hz]; [lia | apply H2; exact Hz].
    + destruct H3 as [H3 | H3]; [| right; right; exact H3].
      destruct (Nat.max_spec x y) as [[_ E] | [_ E]]; rewrite E in H3 |- *.
      * right. left. symmetry. exact H3.
      * left. exact H3.
Qed.

Lemma max_is_argmax (l : list nat) (i m : nat) :
  Np.argmax l = Ok i -> Np.max l = Ok m -> m = nth i l 0.
Proof.
  intros Ha Hm. destruct (argmax_spec l i Ha) as [Hi Hmax].
  destruct l as [| x rest]; [discriminate |]. cbn [Np.max] in Hm.
  injection Hm as <-. destruct (fold_max_spec rest x) as [H1 [H2 H3]].
  apply Nat.le_antisymm.
  - destruct H3 as [E | Hin].
    + rewrite E. apply (Hmax 0). cbn. lia.
    + destruct (In_nth _ _ 0 Hin) as [j [Hj E]].
      rewrite <- E. apply (Hmax (S j)). cbn. lia.
  - destruct i as [| i]; [exact H1 |]. cbn [nth]. apply H2. apply nth_In.
    cbn in Hi. lia.
Qed.

Lemma count_hits_bound (push_data jumpdest_indices : list Z) (bias : nat) :
  count_hits push_data jumpdest_indices bias <= length jumpdest_indices.
Proof.
  unfold count_hits.
  set (shifted := map (fun j => (j - Z.of_nat bias)%Z) jumpdest_indices).
  transitivity (length shifted); [| unfold shifted; now rewrite length_map].
  apply NoDup_incl_length.
  - unfold intersection. apply NoDup_filter. unfold set_of. apply NoDup_nodup.
  - intros x Hx. apply In_intersection in Hx as [_ Hx].
    apply (proj1 (In_set_of _ _)) in Hx. exact Hx.
Qed.

Lemma setitem_returned {A : Type} (l l' : list A) (i : nat) (v d : A) :
  setitem l i v = Ok l' ->
  i < length l /\ length l' = length l /\
  forall p, nth p l' d = if p =? i then v else nth p l d.
Proof.
  intros H. destruct (Nat.lt_ge_cases i (length l)) as [L | G].
  - destruct (setitem_spec l v d i L) as [l'' [E R]].
    rewrite E in H. injection H as <-. split; [exact L | exact R].
  - rewrite (setitem_out_of_range l v i G) in H. discriminate H.
Qed.

Lemma search_body_returned (machine_code push_data : list Z)
  (total_jumpdest_number : nat) (st st' : search_state) :
  search_body machine_code push_data total_jumpdest_number st = Ok st' ->
  exists best hits,
    Np.argmax (map (count_hits push_data (jumpdest_indices st))
                 (seq 0 (length machine_code))) = Ok best /\
    Np.max (map (count_hits push_data (jumpdest_indices st))
              (seq 0 (length machine_code))) = Ok hits /\
    setitem (starting_points_mask st) best true = Ok (starting_points_mask st') /\
    total_hits st' = total_hits st + hits /\
    hit_ratio st' = Np.divide (total_hits st + hits) total_jumpdest_number.
Proof.
  unfold search_body. cbv zeta. intros H.
  bind_inv H. rename x into best. bind_inv H. rename x into hits.
  bind_inv H. injection H as <-.
  exists best, hits. cbn. auto.
Qed.

Lemma search_loop_marks (machine_code push_data : list Z)
  (total_jumpdest_number : nat) (stop_threshold : Q) (fuel : nat) :
  forall st st',
    search_loop fuel machine_code push_data total_jumpdest_number
      stop_threshold st = Ok st' ->
    length (starting_points_mask st') = length (starting_points_mask st) /\
    forall p, nth p (starting_points_mask st) false = true ->
              nth p (starting_points_mask st') false = true.
Proof.
  induction fuel as [| fuel IH]; intros st st' H; cbn [search_loop] in H;
    destruct (search_condition stop_threshold st);
    try discriminate H; try (injection H as <-; auto).
  bind_inv H. rename x into st1.
  apply search_body_returned in E as [best [hits [_ [_ [Es _]]]]].
  apply (setitem_returned _ _ _ _ false) in Es as [Hb [L N]].
  apply IH in H as [L' M]. split; [lia |].
  intros p Hp. apply M. rewrite N. destruct (p =? best); [reflexivity | exact Hp].
Qed.

Lemma first_round (stop_threshold : Q) (st : search_state) :
  (0 < stop_threshold)%Q -> hit_ratio st = Np.Finite 0 ->
  search_condition stop_threshold st = true.
Proof.
  intros Hpos Hr. unfold search_condition. rewrite Hr. cbn [Nat.leb].
  rewrite andb_true_r. unfold Np.lt. apply negb_true_iff.
  destruct (Qle_bool stop_threshold 0) eqn:E; [| reflexivity].
  apply Qle_bool_iff in E. exfalso. exact (Qlt_not_le _ _ Hpos E).
Qed.

Lemma search_marks_best (fuel : nat) (machine_code : list Z)
  (push_data_mask jumpdests_mask : list bool) (stop_threshold : Q)
  (out : list bool) :
  (0 < stop_threshold)%Q ->
  search_contract_starts fuel machine_code push_data_mask jumpdests_mask
    stop_threshold = Ok out ->
  exists push_data b,
    _get_push_data machine_code push_data_mask = Ok push_data /\
    length out = length machine_code /\
    b < length machine_code /\
    nth b out false = true /\
    forall b',
      b' < length machine_code ->
      count_hits (Np.tolist push_data) (map Z.of_nat (Np.argwhere jumpdests_mask)) b'
      <= count_hits (Np.tolist push_data) (map Z.of_nat (Np.argwhere jumpdests_mask)) b /\
      (b' < b ->
       count_hits (Np.tolist push_data) (map Z.of_nat (Np.argwhere jumpdests_mask)) b'
       < count_hits (Np.tolist push_data) (map Z.of_nat (Np.argwhere jumpdests_mask)) b).
Proof.
  intros Hpos H. unfold search_contract_starts in H. cbv zeta in H.
  bind_inv H. rename x into push_data. bind_inv H. rename x into st'.
  injection H as <-.
  set (J := map Z.of_nat (Np.argwhere jumpdests_mask)) in *.
  destruct fuel as [| fuel]; cbn [search_loop] in E0;
    rewrite first_round in E0 by (assumption || reflexivity);
    [discriminate E0 |].
  bind_inv E0. rename x into st1.
  apply search_body_returned in E1 as [best [hits [Ea [_ [Es _]]]]].
  cbn [starting_points_mask jumpdest_indices] in Ea, Es.
  apply (setitem_returned _ _ _ _ false) in Es as [Hb [L N]].
  rewrite repeat_length in Hb, L.
  apply search_loop_marks in E0 as [L' M].
  apply argmax_spec in Ea as [_ Hmax].
  rewrite length_map, length_seq in Hmax.
  exists push_data, best. split; [reflexivity |]. split; [lia |].
  split; [exact Hb |]. split.
  - apply M. rewrite N, Nat.eqb_refl. reflexivity.
  - intros b' Hb'. specialize (Hmax b' Hb').
    rewrite !(nth_map_seq (count_hits (Np.tolist push_data) J)) in Hmax by assumption.
    exact Hmax.
Qed.

End EntranceFinder.

(** X21.  When [search_contract_starts] returns for a positive threshold,
    the mask has the length of the bytecode and marks at least one
    entrance: the offset with the most pushed values landing on
    [JUMPDEST]s, the lowest one among equals. *)
Theorem search_contract_starts_marks_best (fuel : nat) (machine_code : list Z)
  (push_data_mask jumpdests_mask : list bool) (stop_threshold : Q)
  (out : list bool) :
  (0 < stop_threshold)%Q ->
  Analyzer.search_contract_starts fuel machine_code push_data_mask jumpdests_mask
    stop_threshold = Ok out ->
  exists push_data b,
    Analyzer._get_push_data machine_code push_data_mask = Ok push_data /\
    length out = length machine_code /\
    b < length machine_code /\
    nth b out false = true /\
    forall b',
      b' < length machine_code ->
      Analyzer.count_hits (Np.tolist push_data)
      (map Z.of_nat (Np.argwhere jumpdests_mask)) b'
      <= Analyzer.count_hits (Np.tolist push_data)
           (map Z.of_nat (Np.argwhere jumpdests_mask)) b /\
      (b' < b ->
       Analyzer.count_hits (Np.tolist push_data)
         (map Z.of_nat (Np.argwhere jumpdests_mask)) b'
       < Analyzer.count_hits (Np.tolist push_data)
           (map Z.of_nat (Np.argwhere jumpdests_mask)) b).
Proof.
  exact (search_marks_best fuel machine_code push_data_mask jumpdests_mask
           stop_threshold out).
Qed.

Lemma search_contract_starts_marks_best_witness :
  (0 < 98 # 100)%Q /\
  Analyzer.search_contract_starts 3 [0; 96; 2; 86; 91]%Z
    [false; false; true; false; false] [false; false; false; false; true]
    (98 # 100) = Ok [false; false; true; false; false] /\
  exists push_data b,
    Analyzer._get_push_data [0; 96; 2; 86; 91]%Z
      [false; false; true; false; false] = Ok push_data /\
    length [false; false; true; false; false] = length [0; 96; 2; 86; 91]%Z /\
    b < length [0; 96; 2; 86; 91]%Z /\
    nth b [false; false; true; false; false] false = true /\
    forall b',
      b' < length [0; 96; 2; 86; 91]%Z ->
      Analyzer.count_hits (Np.tolist push_data)
        (map Z.of_nat (Np.argwhere [false; false; false; false; true])) b'
      <= Analyzer.count_hits (Np.tolist push_data)
           (map Z.of_nat (Np.argwhere [false; false; false; false; true])) b /\
      (b' < b ->
       Analyzer.count_hits (Np.tolist push_data)
         (map Z.of_nat (Np.argwhere [false; false; false; false; true])) b'
       < Analyzer.count_hits (Np.tolist push_data)
           (map Z.of_nat (Np.argwhere [false; false; false; false; true])) b).
Proof.
  assert (H : (0 < 98 # 100)%Q) by reflexivity.
  split; [exact H |]. split; [reflexivity |].
  exact (search_contract_starts_marks_best 3 [0; 96; 2; 86; 91]%Z
           [false; false; true; false; false]
           [false; false; false; false; true] (98 # 100)
           [false; false; true; false; false] H eq_refl).
Defined.

Section SingleRound.

Import Analyzer.

Lemma ratio_one (n : nat) (stop_threshold : Q) :
  0 < n -> (stop_threshold <= 1)%Q ->
  Np.lt (Np.divide n n) stop_threshold = false.
Proof.
  intros Hn Hle. destruct n as [| k]; [lia |]. unfold Np.divide, Np.lt.
  apply negb_false_iff. apply Qle_bool_iff.
  assert (E : (Z.of_nat (S k) # Pos.of_nat (S k) == 1)%Q).
  { unfold Qeq. cbn [Qnum Qden]. lia. }
  rewrite E. exact Hle.
Qed.

Lemma search_loop_stops (fuel : nat) (machine_code push_data : list Z)
  (total_jumpdest_number : nat) (stop_threshold : Q) (st : search_state) :
  search_condition stop_threshold st = false ->
  search_loop fuel machine_code push_data total_jumpdest_number
    stop_threshold st = Ok st.
Proof. intros H. destruct fuel; cbn [search_loop]; rewrite H; reflexivity. Qed.

Lemma search_single_round (fuel : nat) (machine_code : list Z)
  (push_data_mask jumpdests_mask : list bool) (stop_threshold : Q)
  (push_data : Np.ndarray) (b : nat) :
  _get_push_data machine_code push_data_mask = Ok push_data ->
  (0 < stop_threshold)%Q -> (stop_threshold <= 1)%Q ->
  b < length machine_code ->
  0 < length (Np.argwhere jumpdests_mask) ->
  count_hits (Np.tolist push_data) (map Z.of_nat (Np.argwhere jumpdests_mask)) b
  = length (Np.argwhere jumpdests_mask) ->
  exists b' out,
    b' <= b /\
    count_hits (Np.tolist push_data) (map Z.of_nat (Np.argwhere jumpdests_mask)) b'
    = length (Np.argwhere jumpdests_mask) /\
    search_contract_starts (S fuel) machine_code push_data_mask jumpdests_mask
      stop_threshold = Ok out /\
    length out = length machine_code /\
    forall p, nth p out false = true <-> p = b'.
Proof.
  intros Hpd Hpos Hle Hb HJ Hall.
  set (J := map Z.of_nat (Np.argwhere jumpdests_mask)) in *.
  assert (LJ : length J = length (Np.argwhere jumpdests_mask))
    by (unfold J; apply length_map).
  set (hits := map (count_hits (Np.tolist push_data) J) (seq 0 (length machine_code))).
  assert (Lh : length hits = length machine_code)
    by (unfold hits; now rewrite length_map, length_seq).
  destruct (Np.argmax hits) as [best | e |] eqn:Ea;
    [| destruct hits; [cbn in Lh; lia | discriminate Ea]
     | destruct hits; discriminate Ea].
  destruct (Np.max hits) as [m | e |] eqn:Em;
    [| destruct hits; [cbn in Lh; lia | discriminate Em]
     | destruct hits; discriminate Em].
  pose proof (max_is_argmax hits best m Ea Em) as Hm.
  destruct (argmax_spec hits best Ea) as [Hbest Hmax].
  rewrite Lh in Hbest, Hmax.
  assert (Hn : forall i, i < length machine_code ->
                         nth i hits 0 = count_hits (Np.tolist push_data) J i)
    by (intros i Hi; unfold hits; apply nth_map_seq; exact Hi).
  destruct (Hmax b Hb) as [H1 H2]. rewrite !Hn in H1, H2 by assumption.
  pose proof (count_hits_bound (Np.tolist push_data) J best) as Hbound.
  assert (Hcount : count_hits (Np.tolist push_data) J best = length J) by lia.
  assert (Hbb : best <= b).
  { destruct (Nat.le_gt_cases best b) as [L | G]; [exact L |].
    specialize (H2 G). lia. }
  rewrite Hn in Hm by assumption. rewrite Hcount in Hm. subst m.
  destruct (setitem_spec (repeat false (length machine_code)) true false best
              ltac:(rewrite repeat_length; exact Hbest))
    as [mask [Es [Lm Nm]]].
  exists best, mask. split; [exact Hbb |]. split; [lia |].
  split; [| split].
  - unfold search_contract_starts. rewrite Hpd. cbn [bind]. fold J.
    cbn [search_loop]. rewrite first_round by (assumption || reflexivity).
    unfold search_body. cbn [starting_points_mask jumpdest_indices total_hits].
    fold hits. rewrite Ea, Em. cbn [bind]. rewrite Es. cbn [bind].
    rewrite search_loop_stops; [reflexivity |].
    unfold search_condition. cbn [hit_ratio Nat.add].
    rewrite ratio_one by (assumption || lia). reflexivity.
  - rewrite Lm. apply repeat_length.
  - intros p. rewrite Nm, nth_repeat_false.
    destruct (Nat.eqb_spec p best); split; congruence.
Qed.

End SingleRound.

(** X22.  When some offset lets pushed values land on every [JUMPDEST]
    (and there is one), [search_contract_starts] ends after its first
    round, for every threshold in (0, 1]: it returns the mask that marks the
    lowest such offset and nothing else. *)
Theorem search_contract_starts_single_round (fuel : nat) (machine_code : list Z)
  (push_data_mask jumpdests_mask : list bool) (stop_threshold : Q)
  (push_data : Np.ndarray) (b : nat) :
  Analyzer._get_push_data machine_code push_data_mask = Ok push_data ->
  (0 < stop_threshold)%Q -> (stop_threshold <= 1)%Q ->
  b < length machine_code ->
  0 < length (Np.argwhere jumpdests_mask) ->
  Analyzer.count_hits (Np.tolist push_data)
    (map Z.of_nat (Np.argwhere jumpdests_mask)) b
  = length (Np.argwhere jumpdests_mask) ->
  exists b' out,
    b' <= b /\
    Analyzer.count_hits (Np.tolist push_data)
      (map Z.of_nat (Np.argwhere jumpdests_mask)) b'
    = length (Np.argwhere jumpdests_mask) /\
    Analyzer.search_contract_starts (S fuel) machine_code push_data_mask
      jumpdests_mask stop_threshold = Ok out /\
    length out = length machine_code /\
    forall p, nth p out false = true <-> p = b'.
Proof.
  exact (search_single_round fuel machine_code push_data_mask jumpdests_mask
           stop_threshold push_data b).
Qed.

Lemma search_contract_starts_single_round_witness :
  Analyzer._get_push_data [0; 96; 2; 86; 91]%Z [false; false; true; false; false]
  = Ok {| Np.dtype_of := Np.int64; Np.tolist := [2%Z] |} /\
  (0 < 98 # 100)%Q /\ (98 # 100 <= 1)%Q /\
  2 < length [0; 96; 2; 86; 91]%Z /\
  0 < length (Np.argwhere [false; false; false; false; true]) /\
  Analyzer.count_hits
    (Np.tolist {| Np.dtype_of := Np.int64; Np.tolist := [2%Z] |})
    (map Z.of_nat (Np.argwhere [false; false; false; false; true])) 2
  = length (Np.argwhere [false; false; false; false; true]) /\
  exists b' out,
    b' <= 2 /\
    Analyzer.count_hits
    (Np.tolist {| Np.dtype_of := Np.int64; Np.tolist := [2%Z] |})
      (map Z.of_nat (Np.argwhere [false; false; false; false; true])) b'
    = length (Np.argwhere [false; false; false; false; true]) /\
    Analyzer.search_contract_starts 1 [0; 96; 2; 86; 91]%Z
      [false; false; true; false; false] [false; false; false; false; true]
      (98 # 100) = Ok out /\
    length out = length [0; 96; 2; 86; 91]%Z /\
    forall p, nth p out false = true <-> p = b'.
Proof.
  assert (H1 : (0 < 98 # 100)%Q) by reflexivity.
  assert (H2 : (98 # 100 <= 1)%Q) by (unfold Qle; cbn; lia).
  assert (H3 : 2 < length [0; 96; 2; 86; 91]%Z) by (cbn; lia).
  assert (H4 : 0 < length (Np.argwhere [false; false; false; false; true]))
    by (cbn; lia).
  split; [reflexivity |]. split; [exact H1 |]. split; [exact H2 |].
  split; [exact H3 |]. split; [exact H4 |]. split; [reflexivity |].
  exact (search_contract_starts_single_round 0 [0; 96; 2; 86; 91]%Z
           [false; false; true; false; false]
           [false; false; false; false; true] (98 # 100)
           {| Np.dtype_of := Np.int64; Np.tolist := [2%Z] |} 2
           eq_refl H1 H2 H3 H4 eq_refl).
Defined.

(** ** The report *)

Section Report.

Import Opcodes Ethertracer.

Lemma for_each_ext {A S : Type} (f g : S -> A -> outcome S) (xs : list A) :
  (forall s x, f s x = g s x) ->
  forall s, for_each xs f s = for_each xs g s.
Proof.
  intros H. induction xs as [| x xs IH]; intros s; [reflexivity |].
  cbn [for_each]. rewrite H. destruct (g s x); cbn [bind]; auto.
Qed.

(** A loop that appends one computed entry per row. *)
Lemma collect_column {A : Type} (g : nat -> outcome A) (d : A) (n : nat) :
  forall k acc out,
    for_each (seq k n) (fun column row => y <- g row ;; Ok (column ++ [y])) acc
    = Ok out ->
    exists ys,
      out = acc ++ ys /\ length ys = n /\
      forall i, i < n -> g (k + i) = Ok (nth i ys d).
Proof.
  induction n as [| n IH]; intros k acc out H.
  - cbn in H. injection H as <-. exists []. rewrite app_nil_r.
    split; [reflexivity |]. split; [reflexivity |]. intros i Hi. lia.
  - cbn [seq for_each] in H. bind_inv H. rename x into y. bind_inv E.
    injection E as <-. rename x into y.
    apply IH in H as [ys [-> [L G]]]. exists (y :: ys).
    rewrite <- app_assoc. split; [reflexivity |]. split; [cbn; lia |].
    intros [| i] Hi.
    + rewrite Nat.add_0_r. exact E0.
    + cbn [nth]. rewrite <- (G i) by lia. f_equal. lia.
Qed.

Lemma getitem_returned {A : Type} (l : list A) (i : nat) (x d : A) :
  getitem l i = Ok x -> i < length l /\ nth i l d = x.
Proof.
  unfold getitem. destruct (nth_error l i) as [y |] eqn:E; [| discriminate].
  intros H. injection H as <-. split.
  - apply nth_error_Some. rewrite E. discriminate.
  - exact (nth_error_nth _ _ d E).
Qed.

Lemma plain_column {A : Type} (l : list A) (d : A) (len : nat) (out : list A) :
  for_each (seq 0 len)
    (fun column row => v <- getitem l row ;; Ok (column ++ [v])) [] = Ok out ->
  length out = len /\ len <= length l /\
  forall i, i < len -> nth i out d = nth i l d.
Proof.
  intros H. apply (collect_column (getitem l) d) in H as [ys [-> [L G]]].
  cbn [app]. split; [exact L |]. split.
  - destruct len as [| len]; [lia |].
    destruct (getitem_returned l len _ d (G len ltac:(lia))). lia.
  - intros i Hi. destruct (getitem_returned l i _ d (G i Hi)) as [_ E].
    symmetry. exact E.
Qed.

Lemma finding_column_spec (len : nat) (mnemonic pushjump jumpdest : list bool)
  (out : list finding) :
  finding_column len mnemonic pushjump jumpdest = Ok out ->
  length out = len /\
  forall i,
    i < len ->
    nth i out no_finding
    = if negb (nth i jumpdest false) then JUMPDEST_NEVER_REACHED
      else if negb (nth i mnemonic false) then INVALID_MNEMONIC_OCCURS
      else if negb (nth i pushjump false) then JUMP_OUT_OF_RANGE
      else no_finding.
Proof.
  unfold finding_column. intros H.
  rewrite (for_each_ext _
             (fun column row =>
                y <- (j <- getitem jumpdest row ;;
                      if negb j then Ok JUMPDEST_NEVER_REACHED
                      else
                        m <- getitem mnemonic row ;;
                        if negb m then Ok INVALID_MNEMONIC_OCCURS
                        else
                          p <- getitem pushjump row ;;
                          if negb p then Ok JUMP_OUT_OF_RANGE
                          else Ok no_finding) ;;
                Ok (column ++ [y]))) in H.
  2:{ intros column row.
      destruct (getitem jumpdest row) as [[] | |]; cbn [bind negb];
        try reflexivity.
      destruct (getitem mnemonic row) as [[] | |]; cbn [bind negb];
        try reflexivity.
      destruct (getitem pushjump row) as [[] | |]; cbn [bind negb];
        reflexivity. }
  apply (collect_column _ no_finding) in H as [ys [-> [L G]]].
  cbn [app]. split; [exact L |]. intros i Hi. specialize (G i Hi).
  cbn [Nat.add] in G. bind_inv G. rename x into j.
  apply (getitem_returned _ _ _ false) in E as [_ ->].
  destruct j; cbn [negb] in *; [| injection G as <-; reflexivity].
  bind_inv G. rename x into m.
  apply (getitem_returned _ _ _ false) in E as [_ ->].
  destruct m; cbn [negb] in *; [| injection G as <-; reflexivity].
  bind_inv G. rename x into p.
  apply (getitem_returned _ _ _ false) in E as [_ ->].
  destruct p; cbn [negb] in *; injection G as <-; reflexivity.
Qed.

Lemma instruction_column_spec (t : Table) (machine_code : list Z)
  (valid push : list bool) (out : list instruction_text) :
  instruction_column t machine_code valid push = Ok out ->
  length out = length machine_code /\
  forall i,
    i < length machine_code ->
    if nth i valid false && negb (nth i push false)
    then exists name,
           BYTECODES t (nth i machine_code 0%Z) = Some name /\
           nth i out (Hex 0) = Mnemonic name
    else nth i out (Hex 0) = Hex (nth i machine_code 0%Z).
Proof.
  unfold instruction_column. intros H.
  rewrite (for_each_ext _
             (fun column row =>
                y <- (v <- getitem valid row ;;
                      p <- (if v then getitem push row else Ok true) ;;
                      b <- getitem machine_code row ;;
                      if v && negb p
                      then n <- bytecode_name t b ;; Ok (Mnemonic n)
                      else Ok (Hex b)) ;;
                Ok (column ++ [y]))) in H.
  2:{ intros column row.
      destruct (getitem valid row) as [[] | |]; cbn [bind]; try reflexivity.
      - destruct (getitem push row) as [[] | |]; cbn [bind]; try reflexivity;
          destruct (getitem machine_code row) as [b | |]; cbn [bind andb negb];
          try reflexivity.
        destruct (bytecode_name t b); reflexivity.
      - destruct (getitem machine_code row) as [b | |]; reflexivity. }
  apply (collect_column _ (Hex 0)) in H as [ys [-> [L G]]].
  cbn [app]. split; [exact L |]. intros i Hi. specialize (G i Hi).
  cbn [Nat.add] in G. bind_inv G. rename x into v.
  apply (getitem_returned _ _ _ false) in E as [_ ->].
  destruct v; cbn [andb].
  - bind_inv G. rename x into p.
    apply (getitem_returned _ _ _ false) in E as [_ ->].
    bind_inv G. rename x into b.
    apply (getitem_returned _ _ _ 0%Z) in E as [_ ->].
    destruct p; cbn [negb andb] in *.
    + injection G as <-. reflexivity.
    + bind_inv G. injection G as <-. unfold bytecode_name in E.
      destruct (BYTECODES t b) as [name |]; [| discriminate E].
      injection E as ->. exists x. auto.
  - cbn [bind] in G. bind_inv G. rename x into b.
    apply (getitem_returned _ _ _ 0%Z) in E as [_ ->].
    cbn [andb] in G. injection G as <-. reflexivity.
Qed.

(** The contract-address loop: the counter is unset before the first
    entrance and then counts from the latest one. *)
Lemma contract_address_loop (contract_starts_mask : list bool) (n : nat) :
  forall k column i,
    k + n <= length contract_starts_mask ->
    length column = k ->
    match i with
    | None => forall e, e < k -> nth e contract_starts_mask false = false
    | Some v =>
        exists e,
          e < k /\ nth e contract_starts_mask false = true /\
          (forall e', e < e' -> e' < k ->
                      nth e' contract_starts_mask false = false) /\
          v = k - e
    end ->
    (forall row,
       row < k ->
       match nth row column None with
       | None => forall e, e <= row -> nth e contract_starts_mask false = false
       | Some v =>
           exists e,
             e <= row /\ nth e contract_starts_mask false = true /\
             (forall e', e < e' -> e' <= row ->
                         nth e' contract_starts_mask false = false) /\
             v = row - e
       end) ->
    exists column' i',
      for_each (seq k n)
        (fun (st : list (option nat) * option nat) row =>
           let (column, i) := st in
           c <- getitem contract_starts_mask row ;;
           if c then Ok (column ++ [Some 0], Some 1)
           else match i with
                | Some i => Ok (column ++ [Some i], Some (i + 1))
                | None => Ok (column ++ [None], None)
                end)
        (column, i)
      = Ok (column', i') /\
      length column' = k + n /\
      forall row,
        row < k + n ->
        match nth row column' None with
        | None => forall e, e <= row -> nth e contract_starts_mask false = false
        | Some v =>
            exists e,
              e <= row /\ nth e contract_starts_mask false = true /\
              (forall e', e < e' -> e' <= row ->
                          nth e' contract_starts_mask false = false) /\
              v = row - e
        end.
Proof.
  induction n as [| n IH]; intros k column i Hk L Hi Hcol.
  - exists column, i. rewrite Nat.add_0_r. auto.
  - cbn [seq for_each].
    assert (Ec : getitem contract_starts_mask k
                 = Ok (nth k contract_starts_mask false)).
    { unfold getitem.
      destruct (nth_error contract_starts_mask k) as [c |] eqn:E;
        [| apply nth_error_None in E; lia].
      now rewrite (nth_error_nth _ _ false E). }
    rewrite Ec. cbn [bind].
    assert (Hold : forall x row, row < k ->
              nth row (column ++ [x]) None = nth row column None)
      by (intros x row Hr; apply app_nth1; lia).
    assert (Hnew : forall x, nth k (column ++ [x]) None = x)
      by (intros x; rewrite app_nth2, L, Nat.sub_diag by lia; reflexivity).
    assert (Hlen : forall x : option nat, length (column ++ [x]) = S k)
      by (intros x; rewrite length_app; cbn; lia).
    replace (k + S n) with (S k + n) by lia.
    destruct (nth k contract_starts_mask false) eqn:C.
    + apply IH; [lia | apply Hlen | |].
      * exists k. repeat split; try assumption; try lia; intros; lia.
      * intros row Hr. destruct (Nat.eq_dec row k) as [-> | Hne].
        -- rewrite Hnew. exists k.
           repeat split; try assumption; try lia; intros; lia.
        -- rewrite Hold by lia. apply Hcol. lia.
    + destruct i as [v |].
      * destruct Hi as [e [He [Hs [Hnone Hv]]]].
        assert (Hnone' : forall e', e < e' -> e' <= k ->
                           nth e' contract_starts_mask false = false).
        { intros e' H1 H2. destruct (Nat.eq_dec e' k) as [-> | Hne];
            [exact C | apply Hnone; lia]. }
        apply IH; [lia | apply Hlen | |].
        -- exists e. repeat split; try assumption; try lia.
           intros e' H1 H2. apply Hnone'; lia.
        -- intros row Hr. destruct (Nat.eq_dec row k) as [-> | Hne].
           ++ rewrite Hnew. exists e. repeat split; try assumption; lia.
           ++ rewrite Hold by lia. apply Hcol. lia.
      * assert (Hi' : forall e, e <= k ->
                        nth e contract_starts_mask false = false).
        { intros e He. destruct (Nat.eq_dec e k) as [-> | Hne];
            [exact C | apply Hi; lia]. }
        apply IH; [lia | apply Hlen | |].
        -- intros e He. apply Hi'. lia.
        -- intros row Hr. destruct (Nat.eq_dec row k) as [-> | Hne].
           ++ rewrite Hnew. exact Hi'.
           ++ rewrite Hold by lia. apply Hcol. lia.
Qed.

Lemma contract_address_column_spec (len : nat) (contract_starts_mask : list bool) :
  len <= length contract_starts_mask ->
  exists column,
    contract_address_column len contract_starts_mask = Ok column /\
    length column = len /\
    forall row,
      row < len ->
      match nth row column None with
      | None => forall e, e <= row -> nth e contract_starts_mask false = false
      | Some v =>
          exists e,
            e <= row /\ nth e contract_starts_mask false = true /\
            (forall e', e < e' -> e' <= row ->
                        nth e' contract_starts_mask false = false) /\
            v = row - e
      end.
Proof.
  intros H.
  destruct (contract_address_loop contract_starts_mask len 0 [] None)
    as [column [i [E [L P]]]]; try (cbn; lia).
  exists column. unfold contract_address_column. rewrite E.
  cbn [bind fst]. auto.
Qed.

End Report.

Section ReportLines.

Import Opcodes Ethertracer.

Lemma print_results_spec (t : Table) (machine_code : list Z)
  (push valid starts : list bool) (segments : list nat)
  (mnemonic pushjump jumpdest : list bool) (report : list report_line) :
  _print_results_to_txt t machine_code push valid starts segments mnemonic
    pushjump jumpdest = Ok report ->
  exists column1,
    contract_address_column (length machine_code) starts = Ok column1 /\
    length report = S (length machine_code) /\
    nth 0 report Header = Header /\
    forall i,
      i < length machine_code ->
      exists instruction,
        nth (S i) report Header
        = Line i (nth i column1 None) instruction (nth i valid false)
            (nth i segments 0)
            (if negb (nth i jumpdest false) then JUMPDEST_NEVER_REACHED
             else if negb (nth i mnemonic false) then INVALID_MNEMONIC_OCCURS
             else if negb (nth i pushjump false) then JUMP_OUT_OF_RANGE
             else no_finding) /\
        if nth i valid false && negb (nth i push false)
        then exists name,
               BYTECODES t (nth i machine_code 0%Z) = Some name /\
               instruction = Mnemonic name
        else instruction = Hex (nth i machine_code 0%Z).
Proof.
  unfold _print_results_to_txt. cbv zeta. intros H.
  bind_inv H. rename x into column1. exists column1. split; [reflexivity |].
  bind_inv H. rename x into column2, E0 into E2.
  bind_inv H. rename x into column3, E0 into E3.
  bind_inv H. rename x into column4, E0 into E4.
  bind_inv H. rename x into column5, E0 into E5.
  injection H as <-.
  apply instruction_column_spec in E2 as [_ H2].
  apply (plain_column valid false) in E3 as [_ [_ H3]].
  apply (plain_column segments 0) in E4 as [_ [_ H4]].
  apply finding_column_spec in E5 as [_ H5].
  split; [cbn [length]; now rewrite length_map, length_seq |].
  split; [reflexivity |].
  intros i Hi. exists (nth i column2 (Hex 0)). cbn [nth].
  rewrite (nth_map_seq _ _ _ Header Hi), H3, H4, H5 by exact Hi.
  split; [reflexivity |]. specialize (H2 i Hi).
  destruct (nth i valid false && negb (nth i push false)); exact H2.
Qed.

Lemma analyze_report_spec (t : Table) (fuel : nat) (machine_code : list Z)
  (verdict : list bool) (report : list report_line) :
  analyze t fuel machine_code = Ok (verdict, report) ->
  length report = S (length machine_code) /\
  nth 0 report Header = Header /\
  forall i,
    i < length machine_code ->
    exists contract_address instruction segment found,
      nth (S i) report Header
      = Line i contract_address instruction (nth i verdict false) segment found /\
      (found = no_finding <-> nth i verdict false = true).
Proof.
  unfold analyze. intros H.
  bind_inv H. rename x into m. bind_inv H. rename x into segments.
  bind_inv H. rename x into v1. bind_inv H. rename x into v2.
  bind_inv H. rename x into starts. bind_inv H. rename x into v3.
  cbv zeta in H. bind_inv H. injection H as <- <-.
  apply print_results_spec in E5 as [column1 [_ [L [H0 Hlines]]]].
  split; [exact L |]. split; [exact H0 |].
  intros i Hi. destruct (Hlines i Hi) as [instruction [Hline _]].
  eexists _, _, _, _. split; [exact Hline |].
  rewrite !nth_logical_and.
  destruct (nth i v3 false), (nth i v1 false), (nth i v2 false);
    cbn [negb andb]; split; congruence.
Qed.

End ReportLines.

(** X23.  When [_print_results_to_txt] returns, the report is the header
    followed by one line per position.  Line [i] carries the address [i],
    the code flag and the segment id of position [i], and as finding the
    first failed check in the order unreachable [JUMPDEST], invalid mnemonic,
    jump out of range; the instruction is the mnemonic name when the
    position is valid and not push data, and the byte otherwise. *)
Theorem print_results_lines (t : Opcodes.Table) (machine_code : list Z)
  (push valid starts : list bool) (segments : list nat)
  (mnemonic pushjump jumpdest : list bool)
  (report : list Ethertracer.report_line) :
  Ethertracer._print_results_to_txt t machine_code push valid starts segments
    mnemonic pushjump jumpdest = Ok report ->
  exists column1,
    Ethertracer.contract_address_column (length machine_code) starts
    = Ok column1 /\
    length report = S (length machine_code) /\
    nth 0 report Ethertracer.Header = Ethertracer.Header /\
    forall i,
      i < length machine_code ->
      exists instruction,
        nth (S i) report Ethertracer.Header
        = Ethertracer.Line i (nth i column1 None) instruction
            (nth i valid false) (nth i segments 0)
            (if negb (nth i jumpdest false)
             then Ethertracer.JUMPDEST_NEVER_REACHED
             else if negb (nth i mnemonic false)
                  then Ethertracer.INVALID_MNEMONIC_OCCURS
                  else if negb (nth i pushjump false)
                       then Ethertracer.JUMP_OUT_OF_RANGE
                       else Ethertracer.no_finding) /\
        if nth i valid false && negb (nth i push false)
        then exists name,
               Opcodes.BYTECODES t (nth i machine_code 0%Z) = Some name /\
               instruction = Ethertracer.Mnemonic name
        else instruction = Ethertracer.Hex (nth i machine_code 0%Z).
Proof.
  exact (print_results_spec t machine_code push valid starts segments mnemonic
           pushjump jumpdest report).
Qed.

Lemma print_results_lines_witness :
  exists report,
    Ethertracer._print_results_to_txt Opcodes.evm [96; 3; 86]%Z
      [false; true; false] [true; true; false] [false; true; false] [0; 0; 1]
      [true; true; false] [true; true; true] [true; true; false] = Ok report /\
    exists column1,
      Ethertracer.contract_address_column (length [96; 3; 86]%Z)
        [false; true; false] = Ok column1 /\
      length report = S (length [96; 3; 86]%Z) /\
      nth 0 report Ethertracer.Header = Ethertracer.Header /\
      forall i,
        i < length [96; 3; 86]%Z ->
        exists instruction,
          nth (S i) report Ethertracer.Header
          = Ethertracer.Line i (nth i column1 None) instruction
              (nth i [true; true; false] false) (nth i [0; 0; 1] 0)
              (if negb (nth i [true; true; false] false)
               then Ethertracer.JUMPDEST_NEVER_REACHED
               else if negb (nth i [true; true; false] false)
                    then Ethertracer.INVALID_MNEMONIC_OCCURS
                    else if negb (nth i [true; true; true] false)
                         then Ethertracer.JUMP_OUT_OF_RANGE
                         else Ethertracer.no_finding) /\
          if nth i [true; true; false] false
             && negb (nth i [false; true; false] false)
          then exists name,
                 Opcodes.BYTECODES Opcodes.evm (nth i [96; 3; 86]%Z 0%Z)
                 = Some name /\
                 instruction = Ethertracer.Mnemonic name
          else instruction = Ethertracer.Hex (nth i [96; 3; 86]%Z 0%Z).
Proof.
  eexists. split; [vm_compute; reflexivity |].
  apply (print_results_lines Opcodes.evm [96; 3; 86]%Z [false; true; false]
           [true; true; false] [false; true; false] [0; 0; 1]
           [true; true; false] [true; true; true] [true; true; false]).
  vm_compute. reflexivity.
Defined.

(** X24.  The contract-address column of the report, for an entrance mask
    that covers the rows: a row before the first entrance shows no address
    (["x"]), every other row shows its distance from the latest entrance at
    or before it. *)
Theorem contract_address_column_offsets (len : nat)
  (contract_starts_mask : list bool) :
  len <= length contract_starts_mask ->
  exists column,
    Ethertracer.contract_address_column len contract_starts_mask = Ok column /\
    length column = len /\
    forall row,
      row < len ->
      match nth row column None with
      | None => forall e, e <= row -> nth e contract_starts_mask false = false
      | Some v =>
          exists e,
            e <= row /\ nth e contract_starts_mask false = true /\
            (forall e', e < e' -> e' <= row ->
                        nth e' contract_starts_mask false = false) /\
            v = row - e
      end.
Proof. exact (contract_address_column_spec len contract_starts_mask). Qed.

Lemma contract_address_column_offsets_witness :
  5 <= length [false; true; false; true; false] /\
  exists column,
    Ethertracer.contract_address_column 5 [false; true; false; true; false]
    = Ok column /\
    length column = 5 /\
    forall row,
      row < 5 ->
      match nth row column None with
      | None =>
          forall e, e <= row ->
                    nth e [false; true; false; true; false] false = false
      | Some v =>
          exists e,
            e <= row /\ nth e [false; true; false; true; false] false = true /\
            (forall e', e < e' -> e' <= row ->
                        nth e' [false; true; false; true; false] false = false) /\
            v = row - e
      end.
Proof.
  assert (H : 5 <= length [false; true; false; true; false]) by (cbn; lia).
  split; [exact H |].
  exact (contract_address_column_offsets 5 [false; true; false; true; false] H).
Defined.

(** X25.  In the report of [analyze], every line shows the verdict of its
    position, and it shows a finding exactly when the position is
    classified as data: a line is [CODE] if and only if its finding is
    blank. *)
Theorem analyze_report_findings (t : Opcodes.Table) (fuel : nat)
  (machine_code : list Z) (verdict : list bool)
  (report : list Ethertracer.report_line) :
  Ethertracer.analyze t fuel machine_code = Ok (verdict, report) ->
  length report = S (length machine_code) /\
  nth 0 report Ethertracer.Header = Ethertracer.Header /\
  forall i,
    i < length machine_code ->
    exists contract_address instruction segment found,
      nth (S i) report Ethertracer.Header
      = Ethertracer.Line i contract_address instruction (nth i verdict false)
          segment found /\
      (found = Ethertracer.no_finding <-> nth i verdict false = true).
Proof.
  exact (analyze_report_spec t fuel machine_code verdict report).
Qed.

Lemma analyze_report_findings_witness :
  exists verdict report,
    Ethertracer.analyze Opcodes.evm 2
      [96; 3; 86; 91; 0; 12; 91; 96; 0; 86; 96; 6; 86]%Z = Ok (verdict, report) /\
    length report
    = S (length [96; 3; 86; 91; 0; 12; 91; 96; 0; 86; 96; 6; 86]%Z) /\
    nth 0 report Ethertracer.Header = Ethertracer.Header /\
    forall i,
      i < length [96; 3; 86; 91; 0; 12; 91; 96; 0; 86; 96; 6; 86]%Z ->
      exists contract_address instruction segment found,
        nth (S i) report Ethertracer.Header
        = Ethertracer.Line i contract_address instruction (nth i verdict false)
            segment found /\
        (found = Ethertracer.no_finding <-> nth i verdict false = true).
Proof.
  eexists _, _. split; [vm_compute; reflexivity |].
  apply (analyze_report_findings Opcodes.evm 2). vm_compute. reflexivity.
Defined.

(** ** Known and unknown bytes *)

Lemma nth_map_in_range {A B : Type} (f : A -> B) (l : list A) (i : nat)
  (d : A) (d' : B) :
  i < length l -> nth i (map f l) d' = f (nth i l d).
Proof.
  intros H. rewrite (nth_indep _ d' (f d)) by (rewrite length_map; exact H).
  apply map_nth.
Qed.

(** X26.  [tag_valid_mnemonics] and [tag_invalid_mnemonics] return
    complementary masks of the length of the bytecode, and [is_mnemonic]
    raises [KeyError] exactly on the bytes that [tag_invalid_mnemonics]
    marks; on the other bytes it compares the name of the byte. *)
Theorem mnemonic_tags_complementary (t : Opcodes.Table) (machine_code : list Z) :
  length (Tagger.tag_valid_mnemonics t machine_code) = length machine_code /\
  length (Tagger.tag_invalid_mnemonics t machine_code) = length machine_code /\
  forall i,
    i < length machine_code ->
    nth i (Tagger.tag_invalid_mnemonics t machine_code) false
    = negb (nth i (Tagger.tag_valid_mnemonics t machine_code) false) /\
    forall mnemonic,
      if nth i (Tagger.tag_invalid_mnemonics t machine_code) false
      then Tagger.is_mnemonic t (nth i machine_code 0%Z) mnemonic = Raise KeyError
      else exists name,
             Opcodes.BYTECODES t (nth i machine_code 0%Z) = Some name /\
             Tagger.is_mnemonic t (nth i machine_code 0%Z) mnemonic
             = Ok (String.eqb name mnemonic).
Proof.
  unfold Tagger.tag_valid_mnemonics, Tagger.tag_invalid_mnemonics.
  split; [apply length_map |]. split; [apply length_map |].
  intros i Hi.
  rewrite !(nth_map_in_range _ machine_code i 0%Z) by exact Hi.
  unfold Tagger.is_mnemonic, Opcodes.bytecode_name.
  destruct (Opcodes.BYTECODES t (nth i machine_code 0%Z)) as [name |];
    cbn [negb bind]; split; try reflexivity; intros mnemonic; eauto.
Qed.

Lemma mnemonic_tags_complementary_witness :
  Tagger.tag_invalid_mnemonics Opcodes.evm [91; 12]%Z = [false; true] /\
  length (Tagger.tag_valid_mnemonics Opcodes.evm [91; 12]%Z)
  = length [91; 12]%Z /\
  length (Tagger.tag_invalid_mnemonics Opcodes.evm [91; 12]%Z)
  = length [91; 12]%Z /\
  forall i,
    i < length [91; 12]%Z ->
    nth i (Tagger.tag_invalid_mnemonics Opcodes.evm [91; 12]%Z) false
    = negb (nth i (Tagger.tag_valid_mnemonics Opcodes.evm [91; 12]%Z) false) /\
    forall mnemonic,
      if nth i (Tagger.tag_invalid_mnemonics Opcodes.evm [91; 12]%Z) false
      then Tagger.is_mnemonic Opcodes.evm (nth i [91; 12]%Z 0%Z) mnemonic
           = Raise KeyError
      else exists name,
             Opcodes.BYTECODES Opcodes.evm (nth i [91; 12]%Z 0%Z) = Some name /\
             Tagger.is_mnemonic Opcodes.evm (nth i [91; 12]%Z 0%Z) mnemonic
             = Ok (String.eqb name mnemonic).
Proof.
  split; [reflexivity |].
  exact (mnemonic_tags_complementary Opcodes.evm [91; 12]%Z).
Defined.

(** ** The segments and the verdict of the orchestrator *)

Section Orchestrator.

Import Opcodes Analyzer Ethertracer.

Lemma numbering_walk_no_end (start : list bool) :
  forall end_ c i,
    length start = length end_ ->
    Forall (fun x => x = false) end_ ->
    i < length start ->
    nth i (numbering_walk c start end_) 0
    = c + count_flags (firstn (S i) start).
Proof.
  induction start as [| s start IH]; intros end_ c i L F Hi;
    [cbn in Hi; lia |].
  destruct end_ as [| e end_]; [discriminate |]. injection L as L.
  inversion F as [| ? ? He F']; subst. cbn [numbering_walk].
  unfold count_flags in *. cbn [length] in Hi.
  destruct i as [| i].
  - destruct s; cbn; lia.
  - change (firstn (S (S i)) (s :: start)) with (s :: firstn (S i) start).
    destruct s; cbn [nth filter length];
      rewrite IH by (try assumption; lia); lia.
Qed.

Lemma analyze_segments_spec (t : Table) (machine_code : list Z) (m : tags)
  (jump stop : Z) :
  OPCODES t "JUMP" = Some jump -> OPCODES t "STOP" = Some stop ->
  jump <> stop ->
  analyze_tags t machine_code = Ok m ->
  exists segments,
    analyze_segments machine_code m = Ok segments /\
    length segments = length machine_code /\
    forall i,
      i < length machine_code ->
      nth i segments 0 = count_flags (firstn (S i) (jumpdest_mask m)).
Proof.
  intros Hj Hs Hne H.
  pose proof (end_flag_mask_all_false t machine_code m jump stop Hj Hs Hne H)
    as Hend.
  destruct (analyze_tags_spec t machine_code m H)
    as [_ [_ [[_ [_ [Ljd [Lj [Lst [Lr Lsd]]]]]] _]]].
  assert (Le : length (end_flag_mask m) = length machine_code).
  { unfold end_flag_mask. rewrite !length_logical_and. lia. }
  assert (L : length (start_flag_mask m) = length (end_flag_mask m))
    by (unfold start_flag_mask; lia).
  exists (numbering_walk 0 (start_flag_mask m) (end_flag_mask m)).
  split; [exact (segment_list_walk _ _ L) |].
  split; [rewrite length_numbering_walk by exact L; exact Ljd |].
  intros i Hi.
  rewrite (numbering_walk_no_end _ _ 0 i L Hend) by (unfold start_flag_mask; lia).
  reflexivity.
Qed.

Lemma search_returns_push_data (fuel : nat) (machine_code : list Z)
  (push_data_mask jumpdests_mask : list bool) (stop_threshold : Q)
  (out : list bool) :
  search_contract_starts fuel machine_code push_data_mask jumpdests_mask
    stop_threshold = Ok out ->
  exists push_data, _get_push_data machine_code push_data_mask = Ok push_data.
Proof.
  unfold search_contract_starts. cbv zeta. intros H. bind_inv H. eauto.
Qed.

Lemma nth_default_bool (l : list bool) (i : nat) :
  i < length l -> nth i l true = nth i l false.
Proof. intros H. apply nth_indep. exact H. Qed.

Lemma analyze_verdict_spec (t : Table) (fuel : nat) (machine_code : list Z)
  (verdict : list bool) (report : list report_line) :
  analyze t fuel machine_code = Ok (verdict, report) ->
  exists m segments pushjumps push_data starts,
    analyze_tags t machine_code = Ok m /\
    analyze_segments machine_code m = Ok segments /\
    _get_pushjump_data machine_code (push_data_mask m) (jump_mask m)
    = Ok pushjumps /\
    _get_push_data machine_code (push_data_mask m) = Ok push_data /\
    search_contract_starts fuel machine_code (push_data_mask m) (jumpdest_mask m)
      (98 # 100) = Ok starts /\
    length segments = length machine_code /\
    length verdict = length machine_code /\
    forall i,
      i < length machine_code ->
      (nth i verdict false = false
       <-> exists j,
             j < length machine_code /\
             nth j segments 0 = nth i segments 0 /\
             (nth j (invalid_mnemonic_mask m) false = true \/
              (exists v,
                 In (j, v) (Np.rows pushjumps) /\
                 Np.greater (Np.dtype_of2 pushjumps) v
                   (Z.of_nat (length machine_code)) = true) \/
              (nth j (jumpdest_mask m) false = true /\
               ~ exists e,
                   nth e starts false = true /\
                   In (Z.of_nat j - Z.of_nat e)%Z (Np.tolist push_data)))).
Proof.
  unfold analyze. intros H.
  bind_inv H. rename x into m, E into Etags.
  bind_inv H. rename x into segments, E into Esegs.
  bind_inv H. rename x into v1, E into E1.
  bind_inv H. rename x into v2, E into E2.
  bind_inv H. rename x into starts, E into Es.
  bind_inv H. rename x into v3, E into E3.
  cbv zeta in H. bind_inv H. injection H as <- _.
  destruct (analyze_tags_spec t machine_code m)
    as [_ [_ [[_ [_ [Ljd [Lj [Lst [Lr Lsd]]]]]] _]]];
    [assumption |].
  assert (Lseg : length segments = length machine_code).
  { unfold analyze_segments, segment_code in Esegs.
    assert (Le : length (end_flag_mask m) = length machine_code)
      by (unfold end_flag_mask; rewrite !length_logical_and; lia).
    rewrite segment_list_walk in Esegs by (unfold start_flag_mask; lia).
    injection Esegs as <-. rewrite length_numbering_walk;
      unfold start_flag_mask; lia. }
  destruct (search_returns_push_data _ _ _ _ _ _ Es) as [push_data Hpd].
  unfold validate_segment_mnemonics in E1.
  apply tag_valid_segments_spec in E1 as [_ [L1 H1]].
  apply validate_segment_jumps_spec in E2 as [pushjumps [Hpj [_ [L2 H2]]]].
  destruct (validate_segment_jumpdests_spec machine_code segments
              (push_data_mask m) (jumpdest_mask m) starts push_data v3 Hpd
              ltac:(lia) E3) as [L3 H3].
  exists m, segments, pushjumps, push_data, starts.
  do 5 (split; [first [reflexivity | assumption] |]).
  split; [exact Lseg |].
  split; [rewrite !length_logical_and; lia |].
  intros i Hi. rewrite Lseg in *.
  specialize (H1 i Hi). specialize (H2 i Hi). specialize (H3 i Hi).
  rewrite nth_default_bool in H1, H2, H3 by lia.
  rewrite !nth_logical_and. split.
  - intros Hv.
    destruct (nth i v1 false) eqn:V1.
    + destruct (nth i v2 false) eqn:V2.
      * cbn [andb] in Hv.
        destruct (proj1 H3 Hv) as [j [Hj [Hs [Hjd Hn]]]].
        exists j. split; [exact Hj |]. split; [exact Hs |].
        right. right. split; assumption.
      * destruct (proj1 H2 eq_refl) as [j [v [Hin [Hv' [Hj Hs]]]]].
        exists j. split; [exact Hj |]. split; [exact Hs |].
        right. left. exists v. auto.
    + destruct (proj1 H1 eq_refl) as [j [Hj [Hm Hs]]].
      exists j. split; [exact Hj |]. split; [exact Hs |]. left. exact Hm.
  - intros [j [Hj [Hs [Hm | [[v [Hin Hv]] | [Hjd Hn]]]]]].
    + assert (V1 : nth i v1 false = false)
        by (apply H1; exists j; auto).
      rewrite V1. reflexivity.
    + assert (V2 : nth i v2 false = false)
        by (apply H2; exists j, v; auto).
      rewrite V2. cbn [andb]. apply andb_false_r.
    + assert (V3 : nth i v3 false = false)
        by (apply H3; exists j; auto).
      rewrite V3. rewrite !andb_false_r. reflexivity.
Qed.

End Orchestrator.

(** X27.  For a table in which [JUMP] and [STOP] are different bytes, the
    segments that [analyze] works on are cut at [JUMPDEST]s only: the
    segment id of a position is the number of [JUMPDEST]s outside push data
    at or before it, and no terminator ends a segment. *)
Theorem analyze_segments_by_jumpdest (t : Opcodes.Table) (machine_code : list Z)
  (m : Ethertracer.tags) (jump stop : Z) :
  Opcodes.OPCODES t "JUMP" = Some jump ->
  Opcodes.OPCODES t "STOP" = Some stop ->
  jump <> stop ->
  Ethertracer.analyze_tags t machine_code = Ok m ->
  exists segments,
    Ethertracer.analyze_segments machine_code m = Ok segments /\
    length segments = length machine_code /\
    forall i,
      i < length machine_code ->
      nth i segments 0
      = count_flags (firstn (S i) (Ethertracer.jumpdest_mask m)).
Proof.
  exact (analyze_segments_spec t machine_code m jump stop).
Qed.

Lemma analyze_segments_by_jumpdest_witness :
  exists m,
    Opcodes.OPCODES Opcodes.evm "JUMP" = Some 86%Z /\
    Opcodes.OPCODES Opcodes.evm "STOP" = Some 0%Z /\
    86%Z <> 0%Z /\
    Ethertracer.analyze_tags Opcodes.evm [91; 0; 91; 86; 0]%Z = Ok m /\
    exists segments,
      Ethertracer.analyze_segments [91; 0; 91; 86; 0]%Z m = Ok segments /\
      length segments = length [91; 0; 91; 86; 0]%Z /\
      forall i,
        i < length [91; 0; 91; 86; 0]%Z ->
        nth i segments 0
        = count_flags (firstn (S i) (Ethertracer.jumpdest_mask m)).
Proof.
  assert (H : 86%Z <> 0%Z) by discriminate.
  eexists. split; [reflexivity |]. split; [reflexivity |]. split; [exact H |].
  split; [vm_compute; reflexivity |].
  apply (analyze_segments_by_jumpdest Opcodes.evm [91; 0; 91; 86; 0]%Z _
           86%Z 0%Z eq_refl eq_refl H).
  vm_compute. reflexivity.
Defined.

(** X28.  The verdict of [analyze], when it returns, has the length of the
    bytecode, and a position is classified as data exactly when its segment
    holds an invalid mnemonic outside push data, or a jump whose pushed
    target is greater than the length of the bytecode, or a [JUMPDEST]
    that no entrance found by [search_contract_starts] reaches by a pushed
    value. *)
Theorem analyze_verdict (t : Opcodes.Table) (fuel : nat) (machine_code : list Z)
  (verdict : list bool) (report : list Ethertracer.report_line) :
  Ethertracer.analyze t fuel machine_code = Ok (verdict, report) ->
  exists m segments pushjumps push_data starts,
    Ethertracer.analyze_tags t machine_code = Ok m /\
    Ethertracer.analyze_segments machine_code m = Ok segments /\
    Analyzer._get_pushjump_data machine_code (Ethertracer.push_data_mask m)
      (Ethertracer.jump_mask m) = Ok pushjumps /\
    Analyzer._get_push_data machine_code (Ethertracer.push_data_mask m)
    = Ok push_data /\
    Analyzer.search_contract_starts fuel machine_code
      (Ethertracer.push_data_mask m) (Ethertracer.jumpdest_mask m) (98 # 100)
    = Ok starts /\
    length segments = length machine_code /\
    length verdict = length machine_code /\
    forall i,
      i < length machine_code ->
      (nth i verdict false = false
       <-> exists j,
             j < length machine_code /\
             nth j segments 0 = nth i segments 0 /\
             (nth j (Ethertracer.invalid_mnemonic_mask m) false = true \/
              (exists v,
                 In (j, v) (Np.rows pushjumps) /\
                 Np.greater (Np.dtype_of2 pushjumps) v
                   (Z.of_nat (length machine_code)) = true) \/
              (nth j (Ethertracer.jumpdest_mask m) false = true /\
               ~ exists e,
                   nth e starts false = true /\
                   In (Z.of_nat j - Z.of_nat e)%Z (Np.tolist push_data)))).
Proof.
  exact (analyze_verdict_spec t fuel machine_code verdict report).
Qed.

Lemma analyze_verdict_witness :
  exists verdict report,
    Ethertracer.analyze Opcodes.evm 2
      [96; 3; 86; 91; 0; 12; 91; 96; 0; 86; 96; 6; 86]%Z = Ok (verdict, report) /\
    exists m segments pushjumps push_data starts,
      Ethertracer.analyze_tags Opcodes.evm
        [96; 3; 86; 91; 0; 12; 91; 96; 0; 86; 96; 6; 86]%Z = Ok m /\
      Ethertracer.analyze_segments
        [96; 3; 86; 91; 0; 12; 91; 96; 0; 86; 96; 6; 86]%Z m = Ok segments /\
      Analyzer._get_pushjump_data
        [96; 3; 86; 91; 0; 12; 91; 96; 0; 86; 96; 6; 86]%Z
        (Ethertracer.push_data_mask m) (Ethertracer.jump_mask m) = Ok pushjumps /\
      Analyzer._get_push_data
        [96; 3; 86; 91; 0; 12; 91; 96; 0; 86; 96; 6; 86]%Z
        (Ethertracer.push_data_mask m) = Ok push_data /\
      Analyzer.search_contract_starts 2
        [96; 3; 86; 91; 0; 12; 91; 96; 0; 86; 96; 6; 86]%Z
        (Ethertracer.push_data_mask m) (Ethertracer.jumpdest_mask m) (98 # 100)
      = Ok starts /\
      length segments
      = length [96; 3; 86; 91; 0; 12; 91; 96; 0; 86; 96; 6; 86]%Z /\
      length verdict
      = length [96; 3; 86; 91; 0; 12; 91; 96; 0; 86; 96; 6; 86]%Z /\
      forall i,
        i < length [96; 3; 86; 91; 0; 12; 91; 96; 0; 86; 96; 6; 86]%Z ->
        (nth i verdict false = false
         <-> exists j,
               j < length [96; 3; 86; 91; 0; 12; 91; 96; 0; 86; 96; 6; 86]%Z /\
               nth j segments 0 = nth i segments 0 /\
               (nth j (Ethertracer.invalid_mnemonic_mask m) false = true \/
                (exists v,
                   In (j, v) (Np.rows pushjumps) /\
                   Np.greater (Np.dtype_of2 pushjumps) v
                     (Z.of_nat
                        (length
                           [96; 3; 86; 91; 0; 12; 91; 96; 0; 86; 96; 6; 86]%Z))
                   = true) \/
                (nth j (Ethertracer.jumpdest_mask m) false = true /\
                 ~ exists e,
                     nth e starts false = true /\
                     In (Z.of_nat j - Z.of_nat e)%Z (Np.tolist push_data)))).
Proof.
  eexists _, _. split; [vm_compute; reflexivity |].
  eapply (analyze_verdict Opcodes.evm 2). vm_compute. reflexivity.
Defined.
